(** * Amperfy Bluetooth Protocol: a shallow embedding of the app-side engine

    The development follows the Swift sources of the app side:
    - [BluetoothProtocol.swift]: message vocabulary, envelope, payload records;
    - [BluetoothCommunicationService.swift]: query dispatch, pagination,
      playback commands, the size gate in front of the transport;
    - [BluetoothPlayerObserver.swift]: the polling telemetry publisher;
    - [BluetoothManager.swift]: connection bookkeeping and reconnection;
    and the C++ sources of the display device that talks to it:
    - [library_data.cpp], [bluetooth.cpp], [ui.cpp] and the main sketch.

    Swift [String] is rendered as [string] (one [ascii] per [Character]),
    [Int] as [Z], [Double] as the primitive binary64 [float], an array as a
    [list], a dictionary as a [gmap].  Calls to [logger] are left out. *)

From Stdlib Require Import ZArith Floats Lia.
From stdpp Require Import base option list gmap strings.

Set Warnings "-register-all".
Set Default Proof Using "Type".

Local Open Scope string_scope.
Local Open Scope list_scope.
Local Open Scope Z_scope.

(* ===================================================================== *)
(** * Foundation: numbers and JSON documents *)
(* ===================================================================== *)

Module Foundation.

Definition Double := float.
Definition TimeInterval := Double.

Definition Int_min : Z := - 2 ^ 63.
Definition Int_max : Z := 2 ^ 63 - 1.

(** [Double(_: Int)]: the nearest binary64 value. *)
Definition Double_init (z : Z) : Double :=
  if z =? Int_min then
    PrimFloat.opp (PrimFloat.mul (PrimFloat.of_uint63 (Uint63.of_Z (2 ^ 62))) PrimFloat.two)
  else if z <? 0 then PrimFloat.opp (PrimFloat.of_uint63 (Uint63.of_Z (- z)))
  else PrimFloat.of_uint63 (Uint63.of_Z z).

(** [Int(exactly:)]: the integer a double denotes, when it denotes one
    that fits in 64 bits. *)
Definition Int_exactly (d : Double) : option Z :=
  let in_range (z : Z) := if (Int_min <=? z) && (z <=? Int_max) then Some z else None in
  match Prim2SF d with
  | S754_zero _ => Some 0
  | S754_finite s m e =>
      let v := if s then Z.neg m else Z.pos m in
      if 0 <=? e then in_range (v * 2 ^ e)
      else if v mod 2 ^ (- e) =? 0 then in_range (v / 2 ^ (- e))
      else None
  | _ => None
  end.

(** What [JSONSerialization] hands out and accepts: [NSNull], [NSNumber]
    (a boolean, an integer or a double), [NSString], [NSArray],
    [NSDictionary] with string keys. *)
Inductive JSON :=
| JNull
| JBool (b : bool)
| JInt (z : Z)
| JDouble (d : Double)
| JString (s : string)
| JArray (l : list JSON)
| JObject (m : gmap string JSON).

(** Conditional casts out of [Any]. *)
Definition as_String (v : JSON) : option string :=
  match v with JString s => Some s | _ => None end.

Definition as_Dictionary (v : JSON) : option (gmap string JSON) :=
  match v with JObject m => Some m | _ => None end.

(** [as? Double] on a number succeeds when the value is exactly
    representable; a JSON boolean is an [NSNumber] too and bridges to 1.0
    or 0.0. *)
Definition as_Double (v : JSON) : option Double :=
  match v with
  | JDouble d => Some d
  | JInt z => if decide (Int_exactly (Double_init z) = Some z) then Some (Double_init z) else None
  | JBool b => Some (if b then 1%float else 0%float)
  | _ => None
  end.

Definition as_Int (v : JSON) : option Z :=
  match v with
  | JInt z => if (Int_min <=? z) && (z <=? Int_max) then Some z else None
  | JDouble d => Int_exactly d
  | _ => None
  end.

Definition is_container (v : JSON) : bool :=
  match v with JArray _ | JObject _ => true | _ => false end.

(** The platform's [JSONSerialization] over its [Data].  Both operations
    throw on failure; a throw caught by [try?] is [None].  Writing a value
    that is no array and no dictionary does not throw: it raises an
    [NSInvalidArgumentException], which [try?] does not catch; the writer
    hands out no data then either, and the caller tells the two apart with
    [is_container].  The platform compares numbers by value; the model
    keeps the constructor that was written. *)
Class JSONSerialization := {
  Data : Type;
  (** [data.count], the number of bytes *)
  count : Data → Z;
  (** [JSONSerialization.jsonObject(with:options: [])] *)
  jsonObject : Data → option JSON;
  (** [JSONSerialization.data(withJSONObject:options: [])] *)
  dataWithJSONObject : JSON → option Data;
  (** reading back what was written gives the document written *)
  jsonObject_dataWithJSONObject :
    ∀ v d, dataWithJSONObject v = Some d → jsonObject d = Some v;
  (** what was read can be written again *)
  dataWithJSONObject_jsonObject :
    ∀ d v, jsonObject d = Some v → is_Some (dataWithJSONObject v)
}.

(** A size estimate, in bytes, of the compact JSON text of a document. *)
Fixpoint json_size (v : JSON) : nat :=
  match v with
  | JNull => 4
  | JBool _ => 5
  | JInt _ => 20
  | JDouble _ => 24
  | JString s => 2 + String.length s
  | JArray l => 2 + foldr (λ x acc, json_size x + 1 + acc)%nat 0%nat l
  | JObject m =>
      2 + map_fold (λ k x acc, String.length k + 3 + json_size x + 1 + acc)%nat 0%nat m
  end%nat.

(** A [JSONSerialization] whose [Data] is the parsed document itself,
    measured by [json_size]; with [options: []] only arrays and
    dictionaries are read or written at top level. *)
#[export] Program Instance TreeJSON : JSONSerialization | 100 := {|
  Data := JSON;
  count d := Z.of_nat (json_size d);
  jsonObject d := if is_container d then Some d else None;
  dataWithJSONObject v := if is_container v then Some v else None
|}.
Next Obligation. intros v d. simpl. destruct (is_container v) eqn:E; [|done].
  intros [= <-]. by rewrite E. Qed.
Next Obligation. intros d v. simpl. destruct (is_container d) eqn:E; [|done].
  intros [= <-]. rewrite E. by eexists. Qed.

End Foundation.

Import Foundation.

(* ===================================================================== *)
(** * BluetoothProtocol.swift *)
(* ===================================================================== *)

Module Protocol.

Inductive MessageType :=
(* App -> Device events *)
| songStarted | songStopped | playbackProgress
(* Device -> App queries *)
| queryPlaylists | queryArtists | queryAlbums | querySongs
| queryPlaylistSongs | queryArtistSongs | queryAlbumSongs
(* Device -> App commands *)
| playSong | playPause | nextSong | prevSong
(* App -> Device responses *)
| playlistsResponse | artistsResponse | albumsResponse | songsResponse
(* Errors *)
| error.

#[export] Instance MessageType_eq_dec : EqDecision MessageType.
Proof. solve_decision. Defined.

Definition rawValue (t : MessageType) : string :=
  match t with
  | songStarted => "SONG_STARTED"
  | songStopped => "SONG_STOPPED"
  | playbackProgress => "PLAYBACK_PROGRESS"
  | queryPlaylists => "QUERY_PLAYLISTS"
  | queryArtists => "QUERY_ARTISTS"
  | queryAlbums => "QUERY_ALBUMS"
  | querySongs => "QUERY_SONGS"
  | queryPlaylistSongs => "QUERY_PLAYLIST_SONGS"
  | queryArtistSongs => "QUERY_ARTIST_SONGS"
  | queryAlbumSongs => "QUERY_ALBUM_SONGS"
  | playSong => "PLAY_SONG"
  | playPause => "PLAY_PAUSE"
  | nextSong => "NEXT_SONG"
  | prevSong => "PREV_SONG"
  | playlistsResponse => "PLAYLISTS_RESPONSE"
  | artistsResponse => "ARTISTS_RESPONSE"
  | albumsResponse => "ALBUMS_RESPONSE"
  | songsResponse => "SONGS_RESPONSE"
  | error => "ERROR"
  end.

Definition allCases : list MessageType :=
  [ songStarted; songStopped; playbackProgress;
    queryPlaylists; queryArtists; queryAlbums; querySongs;
    queryPlaylistSongs; queryArtistSongs; queryAlbumSongs;
    playSong; playPause; nextSong; prevSong;
    playlistsResponse; artistsResponse; albumsResponse; songsResponse;
    error ].

(** [MessageType(rawValue:)], the initializer the compiler derives for a
    [String]-backed enum: the case whose raw value is the string. *)
Definition MessageType_init (s : string) : option MessageType :=
  snd <$> list_find (λ t, rawValue t = s) allCases.

(** ** Keyed containers of the derived [Codable] conformances *)

(** [JSONEncoder] with its default strategy throws on a non-finite
    double. *)
Definition encodeDouble (d : Double) : option JSON :=
  if PrimFloat.is_finite d then Some (JDouble d) else None.

Definition encode_key (k : string) (v : JSON) (m : gmap string JSON) : gmap string JSON :=
  <[k := v]> m.

Definition encodeIfPresent (k : string) (v : option JSON) (m : gmap string JSON)
  : gmap string JSON :=
  match v with Some x => <[k := x]> m | None => m end.

(** [decode(_:forKey:)]: the key must be there with a value of the type. *)
Definition decode_key {T} (cast : JSON → option T) (m : gmap string JSON) (k : string)
  : option T :=
  m !! k ≫= cast.

(** [decodeIfPresent(_:forKey:)]: a missing key or [null] is [nil]; a
    value of another type throws. *)
Definition decodeIfPresent {T} (cast : JSON → option T) (m : gmap string JSON) (k : string)
  : option (option T) :=
  match m !! k with
  | None | Some JNull => Some None
  | Some v => Some <$> cast v
  end.

(** ** Event payloads *)

Module SongStartedPayload.
Record t := mk {
  songId : string;
  title : string;
  artist : option string;
  album : option string;
  duration : Double;
  playlistName : option string;
  playlistId : option string
}.
Definition encode (p : t) : option JSON :=
  d ← encodeDouble (duration p);
  Some (JObject
    (encodeIfPresent "playlistId" (JString <$> playlistId p)
    (encodeIfPresent "playlistName" (JString <$> playlistName p)
    (encode_key "duration" d
    (encodeIfPresent "album" (JString <$> album p)
    (encodeIfPresent "artist" (JString <$> artist p)
    (encode_key "title" (JString (title p))
    (encode_key "songId" (JString (songId p)) ∅)))))))).
End SongStartedPayload.

Module SongStoppedPayload.
Record t := mk { songId : string }.
Definition encode (p : t) : option JSON :=
  Some (JObject (encode_key "songId" (JString (songId p)) ∅)).
End SongStoppedPayload.

Module PlaybackProgressPayload.
Record t := mk {
  songId : string;
  elapsedTime : Double;
  duration : Double;
  isPlaying : bool
}.
Definition encode (p : t) : option JSON :=
  e ← encodeDouble (elapsedTime p);
  d ← encodeDouble (duration p);
  Some (JObject
    (encode_key "isPlaying" (JBool (isPlaying p))
    (encode_key "duration" d
    (encode_key "elapsedTime" e
    (encode_key "songId" (JString (songId p)) ∅))))).
End PlaybackProgressPayload.

(** ** Query payloads *)

Module QueryPlaylistSongsPayload.
Record t := mk { playlistId : string }.
Definition decode (v : JSON) : option t :=
  m ← as_Dictionary v;
  i ← decode_key as_String m "playlistId";
  Some (mk i).
End QueryPlaylistSongsPayload.

Module QueryArtistSongsPayload.
Record t := mk { artistId : string }.
Definition decode (v : JSON) : option t :=
  m ← as_Dictionary v;
  i ← decode_key as_String m "artistId";
  Some (mk i).
End QueryArtistSongsPayload.

Module QueryAlbumSongsPayload.
Record t := mk { albumId : string }.
Definition decode (v : JSON) : option t :=
  m ← as_Dictionary v;
  i ← decode_key as_String m "albumId";
  Some (mk i).
End QueryAlbumSongsPayload.

(** ** Command payloads *)

Module PlaySongPayload.
Record t := mk {
  songId : string;
  context : option string;    (* "playlist", "album", "artist", or nil *)
  contextId : option string;  (* ID of the playlist/album/artist *)
  songIndex : option Z        (* Index of song in context *)
}.
Definition decode (v : JSON) : option t :=
  m ← as_Dictionary v;
  i ← decode_key as_String m "songId";
  c ← decodeIfPresent as_String m "context";
  ci ← decodeIfPresent as_String m "contextId";
  si ← decodeIfPresent as_Int m "songIndex";
  Some (mk i c ci si).
End PlaySongPayload.

(** ** Response payloads *)

Module PlaylistInfo.
Record t := mk { id : string; name : string; songCount : Z }.
Definition encode (p : t) : option JSON :=
  Some (JObject
    (encode_key "songCount" (JInt (songCount p))
    (encode_key "name" (JString (name p))
    (encode_key "id" (JString (id p)) ∅)))).
End PlaylistInfo.

Module ArtistInfo.
Record t := mk { id : string; name : string; albumCount : Z; songCount : Z }.
Definition encode (p : t) : option JSON :=
  Some (JObject
    (encode_key "songCount" (JInt (songCount p))
    (encode_key "albumCount" (JInt (albumCount p))
    (encode_key "name" (JString (name p))
    (encode_key "id" (JString (id p)) ∅))))).
End ArtistInfo.

Module AlbumInfo.
Record t := mk {
  id : string;
  name : string;
  artist : option string;
  songCount : Z;
  year : option Z
}.
Definition encode (p : t) : option JSON :=
  Some (JObject
    (encodeIfPresent "year" (JInt <$> year p)
    (encode_key "songCount" (JInt (songCount p))
    (encodeIfPresent "artist" (JString <$> artist p)
    (encode_key "name" (JString (name p))
    (encode_key "id" (JString (id p)) ∅)))))).
End AlbumInfo.

Module SongInfo.
Record t := mk {
  id : string;
  title : string;
  artist : option string;
  album : option string;
  duration : Double;
  trackNumber : option Z
}.
Definition encode (p : t) : option JSON :=
  d ← encodeDouble (duration p);
  Some (JObject
    (encodeIfPresent "trackNumber" (JInt <$> trackNumber p)
    (encode_key "duration" d
    (encodeIfPresent "album" (JString <$> album p)
    (encodeIfPresent "artist" (JString <$> artist p)
    (encode_key "title" (JString (title p))
    (encode_key "id" (JString (id p)) ∅))))))).
End SongInfo.

Module PlaylistsResponsePayload.
Record t := mk { playlists : list PlaylistInfo.t; page : Z; totalPages : Z }.
Definition encode (p : t) : option JSON :=
  l ← mapM PlaylistInfo.encode (playlists p);
  Some (JObject
    (encode_key "totalPages" (JInt (totalPages p))
    (encode_key "page" (JInt (page p))
    (encode_key "playlists" (JArray l) ∅)))).
End PlaylistsResponsePayload.

Module ArtistsResponsePayload.
Record t := mk { artists : list ArtistInfo.t; page : Z; totalPages : Z }.
Definition encode (p : t) : option JSON :=
  l ← mapM ArtistInfo.encode (artists p);
  Some (JObject
    (encode_key "totalPages" (JInt (totalPages p))
    (encode_key "page" (JInt (page p))
    (encode_key "artists" (JArray l) ∅)))).
End ArtistsResponsePayload.

Module AlbumsResponsePayload.
Record t := mk { albums : list AlbumInfo.t; page : Z; totalPages : Z }.
Definition encode (p : t) : option JSON :=
  l ← mapM AlbumInfo.encode (albums p);
  Some (JObject
    (encode_key "totalPages" (JInt (totalPages p))
    (encode_key "page" (JInt (page p))
    (encode_key "albums" (JArray l) ∅)))).
End AlbumsResponsePayload.

Module SongsResponsePayload.
Record t := mk {
  songs : list SongInfo.t;
  context : option string;  (* "playlist", "artist", "album", or nil for all songs *)
  contextId : option string;
  page : Z;
  totalPages : Z
}.
Definition encode (p : t) : option JSON :=
  l ← mapM SongInfo.encode (songs p);
  Some (JObject
    (encode_key "totalPages" (JInt (totalPages p))
    (encode_key "page" (JInt (page p))
    (encodeIfPresent "contextId" (JString <$> contextId p)
    (encodeIfPresent "context" (JString <$> context p)
    (encode_key "songs" (JArray l) ∅)))))).
End SongsResponsePayload.

Module ErrorPayload.
Record t := mk { code : string; message : string }.
Definition encode (p : t) : option JSON :=
  Some (JObject
    (encode_key "message" (JString (message p))
    (encode_key "code" (JString (code p)) ∅))).
End ErrorPayload.

(** The [Encodable] values the service hands to [BluetoothMessage.init]. *)
Inductive Payload :=
| PSongStarted (p : SongStartedPayload.t)
| PSongStopped (p : SongStoppedPayload.t)
| PPlaybackProgress (p : PlaybackProgressPayload.t)
| PPlaylistsResponse (p : PlaylistsResponsePayload.t)
| PArtistsResponse (p : ArtistsResponsePayload.t)
| PAlbumsResponse (p : AlbumsResponsePayload.t)
| PSongsResponse (p : SongsResponsePayload.t)
| PError (p : ErrorPayload.t).

Definition Payload_encode (p : Payload) : option JSON :=
  match p with
  | PSongStarted p => SongStartedPayload.encode p
  | PSongStopped p => SongStoppedPayload.encode p
  | PPlaybackProgress p => PlaybackProgressPayload.encode p
  | PPlaylistsResponse p => PlaylistsResponsePayload.encode p
  | PArtistsResponse p => ArtistsResponsePayload.encode p
  | PAlbumsResponse p => AlbumsResponsePayload.encode p
  | PSongsResponse p => SongsResponsePayload.encode p
  | PError p => ErrorPayload.encode p
  end.

(** ** Protocol constants *)

Definition maxMessageSize : Z := 512.  (* 512 bytes max per message *)

(** ** Base message *)

Section BaseMessage.
Context `{JSONSerialization}.

(** [JSONEncoder().encode(_:)] and [JSONDecoder().decode(_:from:)] of a
    keyed container, through the platform's reader and writer. *)
Definition JSONEncoder_encode (p : Payload) : option Data :=
  Payload_encode p ≫= dataWithJSONObject.

Definition JSONDecoder_decode {T} (decode : JSON → option T) (d : Data) : option T :=
  jsonObject d ≫= decode.

Record BluetoothMessage := {
  type : MessageType;
  timestamp : TimeInterval;
  payloadData : option Data
}.

(** [init(type:payload:)]; [now] is the value of
    [Date().timeIntervalSince1970] at the call. *)
Definition BluetoothMessage_init
    (now : TimeInterval) (type : MessageType) (payload : option Payload)
  : BluetoothMessage :=
  {| type := type;
     timestamp := now;
     payloadData := payload ≫= JSONEncoder_encode |}.

Definition decode_as {T} (decode : JSON → option T) (m : BluetoothMessage) : option T :=
  payloadData m ≫= JSONDecoder_decode decode.

(** Converts the message to JSON data with payload as a nested JSON object. *)
Definition toData (m : BluetoothMessage) : option Data :=
  let dict : gmap string JSON :=
    <["timestamp" := JDouble (timestamp m)]> (<["type" := JString (rawValue (type m))]> ∅) in
  let dict :=
    match payloadData m ≫= jsonObject with
    | Some payloadObject => <["payload" := payloadObject]> dict
    | None => dict
    end in
  dataWithJSONObject (JObject dict).

(** Parses a message from JSON data with payload as a nested JSON object.
    The result is [Some None] where the function returns [nil], and [None]
    where it does not return: a "payload" that is no array and no
    dictionary (a string, a number, a boolean, null) makes
    [JSONSerialization.data(withJSONObject:)] raise an
    [NSInvalidArgumentException], which [try?] does not catch. *)
Definition from (data : Data) : option (option BluetoothMessage) :=
  match
    dict ← jsonObject data ≫= as_Dictionary;
    typeString ← dict !! "type" ≫= as_String;
    type ← MessageType_init typeString;
    timestamp ← dict !! "timestamp" ≫= as_Double;
    Some (dict, type, timestamp)
  with
  | None => Some None
  | Some (dict, type, timestamp) =>
      match dict !! "payload" with
      | None =>
          Some (Some {| type := type; timestamp := timestamp; payloadData := None |})
      | Some payloadObject =>
          match dataWithJSONObject payloadObject with
          | Some payloadData =>
              Some (Some {| type := type; timestamp := timestamp;
                            payloadData := Some payloadData |})
          | None =>
              if is_container payloadObject
              then Some (Some {| type := type; timestamp := timestamp;
                                 payloadData := None |})
              else None
          end
      end
  end.

(** The payload of a message as a document. *)
Definition payloadObject (m : BluetoothMessage) : option JSON :=
  payloadData m ≫= jsonObject.

End BaseMessage.

End Protocol.

Import Protocol.

(* ===================================================================== *)
(** * AmperfyKit: the library and player the service calls into *)
(* ===================================================================== *)

Module Kit.

Module Song.
Record t := mk {
  id : string;
  title : string;
  creatorName : string;
  artist : option string;  (* song.artist?.name *)
  album : option string;   (* song.album?.name *)
  duration : Z;
  track : Z
}.
End Song.

(** A playable is a song or something else (a podcast episode, a radio). *)
Module AbstractPlayable.
Inductive t :=
| song (s : Song.t)
| other (id title creatorName : string) (duration : Z).
Definition id (p : t) : string :=
  match p with song s => Song.id s | other i _ _ _ => i end.
Definition title (p : t) : string :=
  match p with song s => Song.title s | other _ n _ _ => n end.
Definition creatorName (p : t) : string :=
  match p with song s => Song.creatorName s | other _ _ c _ => c end.
Definition duration (p : t) : Z :=
  match p with song s => Song.duration s | other _ _ _ d => d end.
(** [$0 as? Song] *)
Definition asSong (p : t) : option Song.t :=
  match p with song s => Some s | other _ _ _ _ => None end.
End AbstractPlayable.

Module Playlist.
Record t := mk {
  id : string;
  name : string;
  playables : list AbstractPlayable.t;
  isSystemPlaylist : bool
}.
End Playlist.

Module Artist.
Record t := mk {
  id : string;
  name : string;
  albums : list string;  (* the ids of artist.albums *)
  songs : list Song.t
}.
End Artist.

Module Album.
Record t := mk {
  id : string;
  name : string;
  artist : option string;  (* album.artist?.name *)
  songs : list Song.t;
  year : Z
}.
End Album.

Module LibraryStorage.
Record t := mk {
  playlists : list Playlist.t;
  artists : list Artist.t;
  albums : list Album.t;
  songs : list Song.t
}.
(** Modelled from the spec: [getAllPlaylists(areSystemPlaylistsIncluded:)]
    is declared in AmperfyKit, outside the sources at hand; by its argument
    label it returns every stored playlist when the flag is set and leaves
    the system playlists out when it is not. *)
Definition getAllPlaylists (areSystemPlaylistsIncluded : bool) (storage : t)
  : list Playlist.t :=
  if areSystemPlaylistsIncluded then playlists storage
  else filter (λ p, Playlist.isSystemPlaylist p = false) (playlists storage).
Definition getAllArtists (storage : t) : list Artist.t := artists storage.
Definition getAllAlbums (storage : t) : list Album.t := albums storage.
Definition getAllSongs (storage : t) : list Song.t := songs storage.
End LibraryStorage.

Module PlayContext.
Record t := mk {
  name : string;
  index : Z;
  playables : list AbstractPlayable.t
}.
End PlayContext.

(** What the service and the observer read off the player when they look. *)
Module PlayerFacade.
Record t := mk {
  isPlaying : bool;
  currentlyPlaying : option AbstractPlayable.t;
  contextName : string;
  elapsedTime : Double;
  duration : Double
}.
End PlayerFacade.

End Kit.

Import Kit.

(** [Array.count] *)
Definition count_of {A} (l : list A) : Z := Z.of_nat (length l).

(** [String(s.prefix(n))] *)
Definition prefix (n : nat) (s : string) : string := String.substring 0 n s.

(** [items[start..<end]]: a range with [start > end] or reaching outside
    the array's indices stops the program ([None]). *)
Definition slice {A} (items : list A) (start end_ : Z) : option (list A) :=
  if (0 <=? start) && (start <=? end_) && (end_ <=? count_of items)
  then Some (take (Z.to_nat (end_ - start)) (drop (Z.to_nat start) items))
  else None.

(** [for i in lo..<hi]: the bodies' results in order; an empty range when
    [hi <= lo] is what the callers below have, never [hi < lo]. *)
Definition for_in {A} (lo hi : Z) (body : Z → option (list A)) : option (list A) :=
  @concat A <$> mapM body (seqZ lo (hi - lo)).

(* ===================================================================== *)
(** * BluetoothCommunicationService.swift *)
(* ===================================================================== *)

Module Service.

(** What a handler does to the world around it, in the order it does it. *)
Inductive Effect :=
(** [let message = BluetoothMessage(type:payload:); sendMessage(message)] *)
| SendMessage (type : MessageType) (payload : option Payload)
(** [try? await Task.sleep(nanoseconds:)] *)
| Sleep (nanoseconds : Z)
(** calls on the player *)
| Play (context : PlayContext.t)
| TogglePlayPause
| PlayNext
| PlayPreviousOrReplay.

(** The mutable fields of the service that its own methods write. *)
Record State := {
  progressTimer : bool;            (* a scheduled, valid timer *)
  currentSongId : option string
}.

Definition sendError (code message : string) : list Effect :=
  let payload := ErrorPayload.mk code message in
  [SendMessage error (Some (PError payload))].

(** ** Sending events *)

Definition stopProgressTimer (s : State) : State :=
  {| progressTimer := false; currentSongId := currentSongId s |}.

Definition startProgressTimer (s : State) : State :=
  let s := stopProgressTimer s in
  {| progressTimer := true; currentSongId := currentSongId s |}.

Definition sendSongStarted (song : AbstractPlayable.t) (playlistName : option string)
    (s : State) : State * list Effect :=
  let payload := SongStartedPayload.mk
    (AbstractPlayable.id song)
    (AbstractPlayable.title song)
    (Some (AbstractPlayable.creatorName song))
    (AbstractPlayable.asSong song ≫= Song.album)
    (Double_init (AbstractPlayable.duration song))
    playlistName
    None in
  let s := {| progressTimer := progressTimer s;
              currentSongId := Some (AbstractPlayable.id song) |} in
  (startProgressTimer s, [SendMessage songStarted (Some (PSongStarted payload))]).

Definition sendSongStopped (songId : string) (s : State) : State * list Effect :=
  let payload := SongStoppedPayload.mk songId in
  let s := stopProgressTimer s in
  ({| progressTimer := progressTimer s; currentSongId := None |},
   [SendMessage songStopped (Some (PSongStopped payload))]).

Definition sendPlaybackProgress (player : option PlayerFacade.t) (s : State) : list Effect :=
  match player with
  | Some player =>
      match PlayerFacade.currentlyPlaying player, currentSongId s with
      | Some _, Some currentSongId =>
          let payload := PlaybackProgressPayload.mk
            currentSongId
            (PlayerFacade.elapsedTime player)
            (PlayerFacade.duration player)
            (PlayerFacade.isPlaying player) in
          [SendMessage playbackProgress (Some (PPlaybackProgress payload))]
      | _, _ => []
      end
  | None => []
  end.

(** The repeating timer of [startProgressTimer] fires only while it is
    scheduled and valid. *)
Definition progressTimerFired (player : option PlayerFacade.t) (s : State) : list Effect :=
  if progressTimer s then sendPlaybackProgress player s else [].

Definition didDisconnectFromPeripheral (s : State) : State :=
  let s := stopProgressTimer s in
  {| progressTimer := progressTimer s; currentSongId := None |}.

(** ** Query handlers *)

(* Items per page to fit within 512 byte BLE message limit *)
Definition playlistsPerPage : Z := 4.
Definition artistsPerPage : Z := 4.
Definition albumsPerPage : Z := 3.
Definition songsPerPage : Z := 2.
Definition delayBetweenPages : Z := 50000000.  (* 50ms in nanoseconds *)

(** The body shared word for word by [sendPaginatedPlaylists],
    [sendPaginatedArtists], [sendPaginatedAlbums] and [sendPaginatedSongs];
    they differ in [perPage], the message type and the payload built. *)
Definition sendPaginated {T} (perPage : Z) (type : MessageType)
    (payload : list T → Z → Z → Payload) (items : list T) : option (list Effect) :=
  let totalPages := Z.max 1 (Z.quot (count_of items + perPage - 1) perPage) in
  for_in 0 totalPages (λ page,
    let start := page * perPage in
    let end_ := Z.min (start + perPage) (count_of items) in
    pageItems ← slice items start end_;
    Some (SendMessage type (Some (payload pageItems (page + 1) totalPages))
          :: (if page <? totalPages - 1 then [Sleep delayBetweenPages] else []))).

Definition sendPaginatedPlaylists (items : list PlaylistInfo.t) : option (list Effect) :=
  sendPaginated playlistsPerPage playlistsResponse
    (λ pageItems page totalPages,
       PPlaylistsResponse (PlaylistsResponsePayload.mk pageItems page totalPages))
    items.

Definition sendPaginatedArtists (items : list ArtistInfo.t) : option (list Effect) :=
  sendPaginated artistsPerPage artistsResponse
    (λ pageItems page totalPages,
       PArtistsResponse (ArtistsResponsePayload.mk pageItems page totalPages))
    items.

Definition sendPaginatedAlbums (items : list AlbumInfo.t) : option (list Effect) :=
  sendPaginated albumsPerPage albumsResponse
    (λ pageItems page totalPages,
       PAlbumsResponse (AlbumsResponsePayload.mk pageItems page totalPages))
    items.

Definition sendPaginatedSongs (items : list SongInfo.t)
    (context contextId : option string) : option (list Effect) :=
  sendPaginated songsPerPage songsResponse
    (λ pageItems page totalPages,
       PSongsResponse (SongsResponsePayload.mk pageItems context contextId page totalPages))
    items.

Definition createSongInfo (song : Song.t) : SongInfo.t :=
  SongInfo.mk
    (Song.id song)
    (prefix 30 (Song.title song))
    (prefix 20 <$> Song.artist song)
    (prefix 20 <$> Song.album song)
    (Double_init (Song.duration song))
    (Some (Song.track song)).

Definition handleQueryPlaylists (storage : LibraryStorage.t) : option (list Effect) :=
  let playlists := LibraryStorage.getAllPlaylists false storage in
  let playlistInfos := map (λ playlist,
    PlaylistInfo.mk
      (Playlist.id playlist)
      (prefix 30 (Playlist.name playlist))
      (count_of (Playlist.playables playlist))) playlists in
  sendPaginatedPlaylists playlistInfos.

Definition handleQueryArtists (storage : LibraryStorage.t) : option (list Effect) :=
  let artists := LibraryStorage.getAllArtists storage in
  let artistInfos := map (λ artist,
    ArtistInfo.mk
      (Artist.id artist)
      (prefix 30 (Artist.name artist))
      (count_of (Artist.albums artist))
      (count_of (Artist.songs artist))) artists in
  sendPaginatedArtists artistInfos.

Definition handleQueryAlbums (storage : LibraryStorage.t) : option (list Effect) :=
  let albums := LibraryStorage.getAllAlbums storage in
  let albumInfos := map (λ album,
    AlbumInfo.mk
      (Album.id album)
      (prefix 25 (Album.name album))
      (prefix 20 <$> Album.artist album)
      (count_of (Album.songs album))
      (Some (Album.year album))) albums in
  sendPaginatedAlbums albumInfos.

Definition handleQuerySongs (storage : LibraryStorage.t) : option (list Effect) :=
  let songs := LibraryStorage.getAllSongs storage in
  let songInfos := map createSongInfo songs in
  sendPaginatedSongs songInfos None None.

Definition handleQueryPlaylistSongs (storage : LibraryStorage.t) (playlistId : string)
  : option (list Effect) :=
  let playlists := LibraryStorage.getAllPlaylists true storage in
  match snd <$> list_find (λ p, Playlist.id p = playlistId) playlists with
  | None =>
      Some (sendError "PLAYLIST_NOT_FOUND"
              ("Playlist with ID " +:+ playlistId +:+ " not found"))
  | Some playlist =>
      let songs := omap AbstractPlayable.asSong (Playlist.playables playlist) in
      let songInfos := map createSongInfo songs in
      sendPaginatedSongs songInfos (Some "playlist") (Some playlistId)
  end.

Definition handleQueryArtistSongs (storage : LibraryStorage.t) (artistId : string)
  : option (list Effect) :=
  let artists := LibraryStorage.getAllArtists storage in
  match snd <$> list_find (λ a, Artist.id a = artistId) artists with
  | None =>
      Some (sendError "ARTIST_NOT_FOUND"
              ("Artist with ID " +:+ artistId +:+ " not found"))
  | Some artist =>
      let songs := Artist.songs artist in
      let songInfos := map createSongInfo songs in
      sendPaginatedSongs songInfos (Some "artist") (Some artistId)
  end.

Definition handleQueryAlbumSongs (storage : LibraryStorage.t) (albumId : string)
  : option (list Effect) :=
  let albums := LibraryStorage.getAllAlbums storage in
  match snd <$> list_find (λ a, Album.id a = albumId) albums with
  | None =>
      Some (sendError "ALBUM_NOT_FOUND"
              ("Album with ID " +:+ albumId +:+ " not found"))
  | Some album =>
      let songs := Album.songs album in
      let songInfos := map createSongInfo songs in
      sendPaginatedSongs songInfos (Some "album") (Some albumId)
  end.

(** ** Playback command handlers *)

Definition isEmpty {A} (l : list A) : bool :=
  match l with [] => true | _ => false end.

Definition handlePlaySong (player : option PlayerFacade.t) (storage : LibraryStorage.t)
    (payload : PlaySongPayload.t) : list Effect :=
  match player with
  | None => sendError "NO_PLAYER" "Player not available"
  | Some _ =>
      let playables : list AbstractPlayable.t := [] in
      let contextName := "" in
      let startIndex := 0 in
      (* Build the queue based on context *)
      let '(playables, contextName) :=
        match PlaySongPayload.context payload, PlaySongPayload.contextId payload with
        | Some context, Some contextId =>
            if decide (context = "playlist") then
              let playlists := LibraryStorage.getAllPlaylists true storage in
              match snd <$> list_find (λ p, Playlist.id p = contextId) playlists with
              | Some playlist => (Playlist.playables playlist, Playlist.name playlist)
              | None => (playables, contextName)
              end
            else if decide (context = "album") then
              let albums := LibraryStorage.getAllAlbums storage in
              match snd <$> list_find (λ a, Album.id a = contextId) albums with
              | Some album => (map AbstractPlayable.song (Album.songs album), Album.name album)
              | None => (playables, contextName)
              end
            else if decide (context = "artist") then
              let artists := LibraryStorage.getAllArtists storage in
              match snd <$> list_find (λ a, Artist.id a = contextId) artists with
              | Some artist => (map AbstractPlayable.song (Artist.songs artist), Artist.name artist)
              | None => (playables, contextName)
              end
            else (playables, contextName)
        | _, _ => (playables, contextName)
        end in
      (* If no context or context not found, try to find the song directly *)
      let '(playables, contextName) :=
        if isEmpty playables then
          let songs := LibraryStorage.getAllSongs storage in
          match snd <$> list_find (λ s, Song.id s = PlaySongPayload.songId payload) songs with
          | Some song => ([AbstractPlayable.song song], Song.title song)
          | None => (playables, contextName)
          end
        else (playables, contextName) in
      if isEmpty playables then
        sendError "SONG_NOT_FOUND" "Could not find song or context"
      else
        (* Find the index of the selected song by ID (most reliable) *)
        let startIndex :=
          match fst <$> list_find
                  (λ p, AbstractPlayable.id p = PlaySongPayload.songId payload) playables with
          | Some index => Z.of_nat index
          | None =>
              match PlaySongPayload.songIndex payload with
              | Some songIndex =>
                  (* Fall back to provided index if song ID not found *)
                  Z.min songIndex (count_of playables - 1)
              | None => startIndex
              end
          end in
        (* Create play context and start playback *)
        let playContext := PlayContext.mk contextName startIndex playables in
        [Play playContext]
  end.

Definition handlePlayPause (player : option PlayerFacade.t) : list Effect :=
  match player with
  | None => []
  | Some _ => [TogglePlayPause]
  end.

Definition handleNextSong (player : option PlayerFacade.t) : list Effect :=
  match player with
  | None => []
  | Some _ => [PlayNext]
  end.

Definition handlePrevSong (player : option PlayerFacade.t) : list Effect :=
  match player with
  | None => []
  | Some _ => [PlayPreviousOrReplay]
  end.

(** ** Message receiving and sending: the parts that touch [Data] *)

Section OverData.
Context `{JSONSerialization}.

Definition handleQuery (player : option PlayerFacade.t) (storage : option LibraryStorage.t)
    (message : BluetoothMessage) : option (list Effect) :=
  match storage with
  | None => Some (sendError "NO_STORAGE" "Library storage not available")
  | Some storage =>
      match type message with
      | queryPlaylists => handleQueryPlaylists storage
      | queryArtists => handleQueryArtists storage
      | queryAlbums => handleQueryAlbums storage
      | querySongs => handleQuerySongs storage
      | queryPlaylistSongs =>
          match decode_as QueryPlaylistSongsPayload.decode message with
          | Some payload =>
              handleQueryPlaylistSongs storage (QueryPlaylistSongsPayload.playlistId payload)
          | None => Some []
          end
      | queryArtistSongs =>
          match decode_as QueryArtistSongsPayload.decode message with
          | Some payload =>
              handleQueryArtistSongs storage (QueryArtistSongsPayload.artistId payload)
          | None => Some []
          end
      | queryAlbumSongs =>
          match decode_as QueryAlbumSongsPayload.decode message with
          | Some payload =>
              handleQueryAlbumSongs storage (QueryAlbumSongsPayload.albumId payload)
          | None => Some []
          end
      | playSong =>
          match decode_as PlaySongPayload.decode message with
          | Some payload => Some (handlePlaySong player storage payload)
          | None => Some []
          end
      | playPause => Some (handlePlayPause player)
      | nextSong => Some (handleNextSong player)
      | prevSong => Some (handlePrevSong player)
      | _ => Some []
      end
  end.

(** [None]: the program stops, in [from] or in a handler. *)
Definition handleReceivedData (player : option PlayerFacade.t)
    (storage : option LibraryStorage.t) (data : Data) : option (list Effect) :=
  match from data with
  | None => None
  | Some None => Some (sendError "INVALID_MESSAGE" "Could not decode message")
  | Some (Some message) => handleQuery player storage message
  end.

(** The link as [sendMessage] sees it: whether the TX characteristic is set
    and its peripheral still there, what was written so far, and the wall
    clock ([Date ()] read for the [n]-th time gives [clock n]). *)
Record Link := {
  txCharacteristic : bool;
  written : list Data;
  clock : nat → TimeInterval;
  clockReads : nat
}.

Definition writeValue (data : Data) (l : Link) : Link :=
  {| txCharacteristic := txCharacteristic l;
     written := written l ++ [data];
     clock := clock l;
     clockReads := clockReads l |}.

Definition Date (l : Link) : TimeInterval * Link :=
  (clock l (clockReads l),
   {| txCharacteristic := txCharacteristic l;
      written := written l;
      clock := clock l;
      clockReads := S (clockReads l) |}).

(** The [SendMessage] effects of a handler, each message built when its
    turn comes and handed to [send]; the other effects do not touch the
    link. *)
Fixpoint perform (send : BluetoothMessage → Link → option Link)
    (effects : list Effect) (l : Link) : option Link :=
  match effects with
  | [] => Some l
  | SendMessage type payload :: effects =>
      let '(now, l) := Date l in
      l ← send (BluetoothMessage_init now type payload) l;
      perform send effects l
  | _ :: effects => perform send effects l
  end.

(** [sendMessage] calls [sendError], which calls [sendMessage]; [fuel]
    bounds the depth of that chain. *)
Fixpoint sendMessage (fuel : nat) (message : BluetoothMessage) (l : Link) : option Link :=
  match fuel with
  | O => None
  | S fuel =>
      if txCharacteristic l then
        match toData message with
        | Some data =>
            (* Check if message is too large *)
            if maxMessageSize <? count data then
              perform (sendMessage fuel)
                (sendError "MESSAGE_TOO_LARGE" "Message exceeds max size") l
            else Some (writeValue data l)
        | None => Some l
        end
      else Some l
  end.

(** A whole handler's effects on the link. *)
Definition transmit (fuel : nat) (effects : list Effect) (l : Link) : option Link :=
  perform (sendMessage fuel) effects l.

End OverData.

End Service.

Import Service.

(* ===================================================================== *)
(** * BluetoothPlayerObserver.swift *)
(* ===================================================================== *)

Module Observer.

Record State := {
  lastPlayingState : bool;
  lastSongId : option string
}.

Definition init : State := {| lastPlayingState := false; lastSongId := None |}.

Definition stopObserving (o : State) : State :=
  {| lastPlayingState := false; lastSongId := None |}.

(** [player.contextName.isEmpty ? nil : player.contextName] *)
Definition playlistName_of (player : PlayerFacade.t) : option string :=
  if decide (PlayerFacade.contextName player = "") then None
  else Some (PlayerFacade.contextName player).

(** One firing of the 500 ms poll.  [player] and [communicationService] are
    the two weak references as they stand at the firing; the service comes
    back with what the calls did to it. *)
Definition checkPlayerState (player : option PlayerFacade.t)
    (communicationService : option Service.State) (o : State)
  : State * option Service.State * list Effect :=
  match player, communicationService with
  | Some player, Some service =>
      let isCurrentlyPlaying := PlayerFacade.isPlaying player in
      let currentSong := PlayerFacade.currentlyPlaying player in
      let currentSongId := AbstractPlayable.id <$> currentSong in
      (* Detect song changes *)
      if decide (currentSongId ≠ lastSongId o) then
        (* Song changed *)
        let '(service, stopped) :=
          match lastSongId o with
          | Some lastId => sendSongStopped lastId service  (* Stop the previous song *)
          | None => (service, [])
          end in
        let '(service, started) :=
          match currentSong with
          | Some song =>
              if isCurrentlyPlaying
              then sendSongStarted song (playlistName_of player) service  (* Start the new song *)
              else (service, [])
          | None => (service, [])
          end in
        ({| lastPlayingState := isCurrentlyPlaying; lastSongId := currentSongId |},
         Some service, stopped ++ started)
      (* Detect play/pause changes on the same song *)
      else if decide (isCurrentlyPlaying ≠ lastPlayingState o) then
        let '(service, sent) :=
          match currentSong with
          | Some song =>
              if isCurrentlyPlaying
              then sendSongStarted song (playlistName_of player) service  (* Resumed playback *)
              else sendSongStopped (AbstractPlayable.id song) service    (* Paused playback *)
          | None => (service, [])
          end in
        ({| lastPlayingState := isCurrentlyPlaying; lastSongId := lastSongId o |},
         Some service, sent)
      else (o, Some service, [])
  | _, _ => (o, communicationService, [])
  end.

(** ** The two timers on the main run loop *)

(** What the run loop delivers: a firing of the observer's poll or of the
    service's progress timer, each seeing the player as it is then. *)
Inductive Firing :=
| Poll (player : PlayerFacade.t)
| Progress (player : PlayerFacade.t).

Record Publisher := {
  observer : State;
  service : Service.State
}.

Definition deliver (f : Firing) (p : Publisher) : Publisher * list Effect :=
  match f with
  | Poll player =>
      let '(o, s, sent) := checkPlayerState (Some player) (Some (service p)) (observer p) in
      ({| observer := o; service := default (service p) s |}, sent)
  | Progress player =>
      (p, progressTimerFired (Some player) (service p))
  end.

Fixpoint run (fs : list Firing) (p : Publisher) : Publisher * list Effect :=
  match fs with
  | [] => (p, [])
  | f :: fs =>
      let '(p, sent) := deliver f p in
      let '(p, rest) := run fs p in
      (p, sent ++ rest)
  end.

End Observer.

(* ===================================================================== *)
(** * BluetoothManager.swift *)
(* ===================================================================== *)

Module Manager.

Definition UUID := string.

Record CBPeripheral := {
  identifier : UUID;
  peripheral_name : option string
}.

#[export] Instance CBPeripheral_eq_dec : EqDecision CBPeripheral.
Proof. solve_decision. Defined.

(** A discovered device.  [BluetoothDevice] is a class; the list of
    discovered devices and [connectedDevice] share the objects, which only
    shows in [isConnected], a field nothing below reads. *)
Record BluetoothDevice := {
  id : UUID;
  peripheral : CBPeripheral;
  name : string;
  rssi : Z;
  isConnected : bool
}.

Definition BluetoothDevice_init (peripheral : CBPeripheral) (rssi : Z) : BluetoothDevice :=
  {| id := identifier peripheral;
     peripheral := peripheral;
     name := default "Unknown Device" (peripheral_name peripheral);
     rssi := rssi;
     isConnected := false |}.

(** The three keys the manager keeps in [UserDefaults.standard]. *)
Record UserDefaults := {
  LastConnectedBluetoothDeviceUUID : option string;
  LastConnectedBluetoothDeviceName : option string;
  BluetoothShouldAutoReconnect : option bool
}.

Record State := {
  poweredOn : bool;  (* centralManager.state == .poweredOn *)
  isScanning : bool;
  isBluetoothEnabled : bool;
  discoveredDevices : list BluetoothDevice;
  connectedDevice : option BluetoothDevice;
  errorMessage : option string;
  hasAttemptedAutoReconnect : bool;
  defaults : UserDefaults;
  communicationService : Service.State
}.

(** Calls on the central manager, and the one task the manager spawns. *)
Inductive Command :=
| scanForPeripherals
| stopScan
| connect (peripheral : CBPeripheral)
| cancelPeripheralConnection (peripheral : CBPeripheral)
| discoverServices (peripheral : CBPeripheral)
(** [Task { try? await Task.sleep(for: .seconds(seconds)); ... connect ... }] *)
| reconnectAfter (seconds : Z) (peripheral : CBPeripheral).

Definition with_defaults (d : UserDefaults) (st : State) : State :=
  {| poweredOn := poweredOn st; isScanning := isScanning st;
     isBluetoothEnabled := isBluetoothEnabled st;
     discoveredDevices := discoveredDevices st;
     connectedDevice := connectedDevice st;
     errorMessage := errorMessage st;
     hasAttemptedAutoReconnect := hasAttemptedAutoReconnect st;
     defaults := d;
     communicationService := communicationService st |}.

(** ** Persistent storage *)

Definition saveConnectedDevice (device : BluetoothDevice) (st : State) : State :=
  with_defaults
    {| LastConnectedBluetoothDeviceUUID := Some (id device);
       LastConnectedBluetoothDeviceName := Some (name device);
       BluetoothShouldAutoReconnect := Some true |} st.

Definition clearConnectedDevice (st : State) : State :=
  with_defaults
    {| LastConnectedBluetoothDeviceUUID := None;
       LastConnectedBluetoothDeviceName := None;
       BluetoothShouldAutoReconnect := Some false |} st.

Definition getLastConnectedDeviceUUID (st : State) : option UUID :=
  LastConnectedBluetoothDeviceUUID (defaults st).

(** [UserDefaults.standard.bool(forKey:)] is [false] for a key never set. *)
Definition shouldAutoReconnect (st : State) : bool :=
  default false (BluetoothShouldAutoReconnect (defaults st)).

(** ** Public methods *)

Definition startScanning (st : State) : State * list Command :=
  if poweredOn st then
    ({| poweredOn := poweredOn st; isScanning := true;
        isBluetoothEnabled := isBluetoothEnabled st;
        discoveredDevices := [];
        connectedDevice := connectedDevice st;
        errorMessage := errorMessage st;
        hasAttemptedAutoReconnect := hasAttemptedAutoReconnect st;
        defaults := defaults st;
        communicationService := communicationService st |},
     [scanForPeripherals])
  else
    ({| poweredOn := poweredOn st; isScanning := isScanning st;
        isBluetoothEnabled := isBluetoothEnabled st;
        discoveredDevices := discoveredDevices st;
        connectedDevice := connectedDevice st;
        errorMessage := Some "Bluetooth is not available";
        hasAttemptedAutoReconnect := hasAttemptedAutoReconnect st;
        defaults := defaults st;
        communicationService := communicationService st |},
     []).

Definition disconnect (st : State) : State * list Command :=
  match connectedDevice st with
  | None => (st, [])
  | Some device =>
      (* Clear the saved device so we don't auto-reconnect *)
      let st := clearConnectedDevice st in
      (st, [cancelPeripheralConnection (peripheral device)])
  end.

(** ** CBCentralManagerDelegate *)

Definition findDevice (peripheralID : UUID) (st : State) : option (nat * BluetoothDevice) :=
  list_find (λ d, identifier (peripheral d) = peripheralID) (discoveredDevices st).

Definition set_isConnected (b : bool) (d : BluetoothDevice) : BluetoothDevice :=
  {| id := id d; peripheral := peripheral d; name := name d; rssi := rssi d;
     isConnected := b |}.

(** [didConnect]; the wiring of player and storage into the communication
    service, done here when it is still missing, is not part of this
    model. *)
Definition didConnect (peripheral : CBPeripheral) (st : State) : State * list Command :=
  match findDevice (identifier peripheral) st with
  | Some (i, device) =>
      let device := set_isConnected true device in
      let st :=
        {| poweredOn := poweredOn st; isScanning := isScanning st;
           isBluetoothEnabled := isBluetoothEnabled st;
           discoveredDevices := <[i := device]> (discoveredDevices st);
           connectedDevice := Some device;
           errorMessage := errorMessage st;
           hasAttemptedAutoReconnect := hasAttemptedAutoReconnect st;
           defaults := defaults st;
           communicationService := communicationService st |} in
      (* Save the connected device for auto-reconnect *)
      let st := saveConnectedDevice device st in
      (st, [discoverServices (Manager.peripheral device)])
  | None => (st, [])
  end.

Definition didDisconnectPeripheral (peripheral : CBPeripheral) (hadError : bool)
    (st : State) : State * list Command :=
  match findDevice (identifier peripheral) st with
  | Some (i, device) =>
      let device := set_isConnected false device in
      let st :=
        {| poweredOn := poweredOn st; isScanning := isScanning st;
           isBluetoothEnabled := isBluetoothEnabled st;
           discoveredDevices := <[i := device]> (discoveredDevices st);
           connectedDevice :=
             if decide (id <$> connectedDevice st = Some (id device))
             then None else connectedDevice st;
           errorMessage := errorMessage st;
           hasAttemptedAutoReconnect := hasAttemptedAutoReconnect st;
           defaults := defaults st;
           communicationService :=
             Service.didDisconnectFromPeripheral (communicationService st) |} in
      if hadError && shouldAutoReconnect st then
        (* Unexpected disconnection - try to reconnect *)
        (st, [reconnectAfter 2 (Manager.peripheral device)])
      else (st, [])
  | None => (st, [])
  end.

(** The body of the spawned task once its sleep is over, in the state the
    manager is in by then. *)
Definition reconnectTask (peripheral : CBPeripheral) (st : State) : list Command :=
  if poweredOn st then [connect peripheral] else [].

(** [centralManagerDidUpdateState], as far as the power state goes; the
    start-up reconnection of [attemptAutoReconnect] is not part of this
    model. *)
Definition didUpdateState (on : bool) (st : State) : State :=
  {| poweredOn := on; isScanning := isScanning st;
     isBluetoothEnabled := on;
     discoveredDevices := discoveredDevices st;
     connectedDevice := connectedDevice st;
     errorMessage := if on then None else Some "Bluetooth unavailable";
     hasAttemptedAutoReconnect := hasAttemptedAutoReconnect st;
     defaults := defaults st;
     communicationService := communicationService st |}.

(** ** The rest of the manager: scanning, connecting, start-up reconnection *)

Module CBManagerState.
Inductive t := unknown | resetting | unsupported | unauthorized | poweredOff | poweredOn.
End CBManagerState.

(** The manager as its property initializers leave it, over the defaults
    the process finds. *)
Definition initialState (d : UserDefaults) : State :=
  {| poweredOn := false; isScanning := false;
     isBluetoothEnabled := false;
     discoveredDevices := [];
     connectedDevice := None;
     errorMessage := None;
     hasAttemptedAutoReconnect := false;
     defaults := d;
     communicationService :=
       {| Service.progressTimer := false; Service.currentSongId := None |} |}.

Definition with_discoveredDevices (l : list BluetoothDevice) (st : State) : State :=
  {| poweredOn := poweredOn st; isScanning := isScanning st;
     isBluetoothEnabled := isBluetoothEnabled st;
     discoveredDevices := l;
     connectedDevice := connectedDevice st;
     errorMessage := errorMessage st;
     hasAttemptedAutoReconnect := hasAttemptedAutoReconnect st;
     defaults := defaults st;
     communicationService := communicationService st |}.

Definition stopScanning (st : State) : State * list Command :=
  if isScanning st then
    ({| poweredOn := poweredOn st; isScanning := false;
        isBluetoothEnabled := isBluetoothEnabled st;
        discoveredDevices := discoveredDevices st;
        connectedDevice := connectedDevice st;
        errorMessage := errorMessage st;
        hasAttemptedAutoReconnect := hasAttemptedAutoReconnect st;
        defaults := defaults st;
        communicationService := communicationService st |},
     [stopScan])
  else (st, []).

(** [connect(to:)] *)
Definition connect_to (device : BluetoothDevice) (st : State) : State * list Command :=
  let '(st, stopped) := stopScanning st in
  (st, stopped ++ [connect (peripheral device)]).

(** [updateRSSI].  The object is shared with [connectedDevice] when it is
    the connected one; as for [isConnected], the copy held there is not
    kept in step, and nothing below reads its [rssi]. *)
Definition updateRSSI (rssi : Z) (d : BluetoothDevice) : BluetoothDevice :=
  {| id := id d; peripheral := peripheral d; name := name d; rssi := rssi;
     isConnected := isConnected d |}.

Definition didFailToConnect (peripheral : CBPeripheral) (st : State) : State :=
  let deviceName := default "Unknown" (peripheral_name peripheral) in
  {| poweredOn := poweredOn st; isScanning := isScanning st;
     isBluetoothEnabled := isBluetoothEnabled st;
     discoveredDevices := discoveredDevices st;
     connectedDevice := connectedDevice st;
     errorMessage := Some ("Failed to connect to " +:+ deviceName);
     hasAttemptedAutoReconnect := hasAttemptedAutoReconnect st;
     defaults := defaults st;
     communicationService := communicationService st |}.

Section CentralManager.

(** [centralManager.retrievePeripherals(withIdentifiers:)]: the peripherals
    the system knows under the identifiers asked for. *)
Variable retrievePeripherals : list UUID → list CBPeripheral.

(** Attempts to reconnect to the last connected device. *)
Definition attemptAutoReconnect (st : State) : State * list Command :=
  if hasAttemptedAutoReconnect st then (st, [])
  else
    let st :=
      {| poweredOn := poweredOn st; isScanning := isScanning st;
         isBluetoothEnabled := isBluetoothEnabled st;
         discoveredDevices := discoveredDevices st;
         connectedDevice := connectedDevice st;
         errorMessage := errorMessage st;
         hasAttemptedAutoReconnect := true;
         defaults := defaults st;
         communicationService := communicationService st |} in
    match (if shouldAutoReconnect st then getLastConnectedDeviceUUID st else None) with
    | None => (st, [])
    | Some lastDeviceUUID =>
        if poweredOn st then
          (* Retrieve the peripheral from Core Bluetooth *)
          let peripherals := retrievePeripherals [lastDeviceUUID] in
          match head peripherals with
          | None => (st, [])
          | Some peripheral =>
              (* Create a device object and attempt connection *)
              let device := BluetoothDevice_init peripheral 0 in
              (with_discoveredDevices (discoveredDevices st ++ [device]) st,
               [connect peripheral])
          end
        else (st, [])
    end.

(** [centralManagerDidUpdateState]; [state] is [central.state], which the
    model keeps in [poweredOn]. *)
Definition centralManagerDidUpdateState (state : CBManagerState.t) (st : State)
  : State * list Command :=
  let update (on enabled : bool) (message : option string) : State :=
    {| poweredOn := on; isScanning := isScanning st;
       isBluetoothEnabled := enabled;
       discoveredDevices := discoveredDevices st;
       connectedDevice := connectedDevice st;
       errorMessage := message;
       hasAttemptedAutoReconnect := hasAttemptedAutoReconnect st;
       defaults := defaults st;
       communicationService := communicationService st |} in
  match state with
  | CBManagerState.poweredOn =>
      (* Attempt auto-reconnect when Bluetooth becomes available *)
      attemptAutoReconnect (update true true None)
  | CBManagerState.poweredOff => (update false false (Some "Bluetooth is turned off"), [])
  | CBManagerState.unauthorized =>
      (update false false (Some "Bluetooth access not authorized"), [])
  | CBManagerState.unsupported =>
      (update false false (Some "Bluetooth LE not supported on this device"), [])
  | _ => (update false false (Some "Bluetooth unavailable"), [])
  end.

Definition didDiscover (peripheral : CBPeripheral) (RSSI : Z) (st : State) : State :=
  let peripheralID := identifier peripheral in
  (* Update existing device or add new one *)
  match findDevice peripheralID st with
  | Some (i, existingDevice) =>
      with_discoveredDevices (<[i := updateRSSI RSSI existingDevice]> (discoveredDevices st)) st
  | None =>
      match head (retrievePeripherals [peripheralID]) with
      | Some retrievedPeripheral =>
          let device := BluetoothDevice_init retrievedPeripheral RSSI in
          with_discoveredDevices (discoveredDevices st ++ [device]) st
      | None => st
      end
  end.

End CentralManager.

End Manager.

(* ===================================================================== *)
(** * The display device (ESP32): library_data.cpp, bluetooth.cpp, ui.cpp
      and the main sketch *)
(* ===================================================================== *)

(** The device is written in C++.  A [const char*] is a [string] read up
    to its first NUL ([c_str]), or [None] for [nullptr] where the code
    tests for it; a fixed-width unsigned integer is a [Z] with its
    wrap-around written out; a JSON document is the [JSON] of the app
    side, read through the accessors of ArduinoJson 6.  Calls to [Serial]
    and to LVGL widgets are left out. *)

Module C.

Definition uint8_t (z : Z) : Z := z mod 2 ^ 8.
Definition uint16_t (z : Z) : Z := z mod 2 ^ 16.
(** 32 bits on the ESP32 *)
Definition unsigned_long (z : Z) : Z := z mod 2 ^ 32.

(** The bytes of a C string: those before the first NUL. *)
Fixpoint c_str (s : string) : string :=
  match s with
  | EmptyString => EmptyString
  | String a s => if Ascii.eqb a Ascii.zero then EmptyString else String a (c_str s)
  end.

Definition strlen (s : string) : nat := String.length (c_str s).

(** [strcmp(a, b) == 0] *)
Definition strcmp_is_0 (a b : string) : bool := bool_decide (c_str a = c_str b).

(** What [strncpy(dest, src, n)] leaves in [dest] as a C string when
    [dest[n]] is NUL: the first [n] bytes of [src], or all of it. *)
Definition strncpy (src : string) (n : nat) : string := prefix n (c_str src).

(** The value [m * 2^e], [m > 0], rounded to the 24 significant bits of a
    binary32 (to nearest, ties to even), as a mantissa and an exponent;
    exact in the normal range of binary32. *)
Definition binary32_round (m e : Z) : Z * Z :=
  let shift := Z.log2 m + 1 - 24 in
  if shift <=? 0 then (m, e)
  else
    let q := m / 2 ^ shift in
    let r := m mod 2 ^ shift in
    let half := 2 ^ (shift - 1) in
    (if (half <? r) || ((r =? half) && Z.odd q) then q + 1 else q, e + shift).

(** [(uint16_t)(float)d]: the double narrowed to binary32, then truncated
    toward zero.  [None] where C leaves the conversion undefined (the
    truncated value is outside [0, 65535]) and for a NaN or an infinity. *)
Definition uint16_of_float (d : Double) : option Z :=
  match Prim2SF d with
  | S754_zero _ => Some 0
  | S754_finite s m e =>
      let '(q, e) := binary32_round (Z.pos m) e in
      let t := if 0 <=? e then q * 2 ^ e else q / 2 ^ (- e) in
      if s then (if t =? 0 then Some 0 else None)
      else if t <? 2 ^ 16 then Some t else None
  | _ => None
  end.

End C.

(** ArduinoJson 6: reading a parsed document. *)
Module ArduinoJson.

(** [v["key"]]: the member, or a null variant when [v] is no object or
    has no such member. *)
Definition member (v : JSON) (key : string) : JSON :=
  match v with
  | JObject m => default JNull (m !! key)
  | _ => JNull
  end.

(** [v | "default"] *)
Definition or_str (v : JSON) (default : string) : string :=
  match v with JString s => s | _ => default end.

(** [v | 0] for an [int]: the value when it is an integer that fits in 32
    bits. *)
Definition or_int (v : JSON) (default : Z) : Z :=
  match v with
  | JInt z => if (- 2 ^ 31 <=? z) && (z <=? 2 ^ 31 - 1) then z else default
  | _ => default
  end.

(** [v | false] *)
Definition or_bool (v : JSON) (default : bool) : bool :=
  match v with JBool b => b | _ => default end.

(** [(uint16_t)(v | 0.0f)]: every number is a [float]. *)
Definition or_0f_as_uint16 (v : JSON) : option Z :=
  match v with
  | JDouble d => C.uint16_of_float d
  | JInt z => if (0 <=? z) && (z <? 2 ^ 16) then Some z else None
  | _ => Some 0
  end.

(** [JsonArray a = v]: the elements, none when [v] is no array. *)
Definition as_array (v : JSON) : list JSON :=
  match v with JArray l => l | _ => [] end.

End ArduinoJson.

(** ** library_data.cpp *)

Module LibraryData.

(* Maximum counts for dynamic data *)
Definition MAX_BLE_PLAYLISTS : Z := 50.
Definition MAX_BLE_ARTISTS : Z := 100.
Definition MAX_BLE_ALBUMS : Z := 100.
Definition MAX_BLE_SONGS : Z := 200.
Definition MAX_NAME_LENGTH : nat := 64.
Definition MAX_ID_LENGTH : nat := 48.

Module BLEPlaylist.
Record t := mk { id : string; name : string; song_count : Z }.
End BLEPlaylist.

Module BLEArtist.
Record t := mk { id : string; name : string; album_count : Z; song_count : Z }.
End BLEArtist.

Module BLEAlbum.
Record t := mk { id : string; name : string; artist : string; song_count : Z; year : Z }.
End BLEAlbum.

Module BLESong.
Record t := mk {
  id : string;
  title : string;
  artist : string;
  album : string;
  duration_sec : Z;
  track_number : Z
}.
End BLESong.

(** The statics of the file.  Each storage array is kept with its count as
    the list of its first [count] entries, the only ones the functions
    read. *)
Record t := mk {
  g_playlists : list BLEPlaylist.t;
  g_artists : list BLEArtist.t;
  g_albums : list BLEAlbum.t;
  g_songs : list BLESong.t;
  g_song_context_type : string;
  g_song_context_id : string;
  g_has_ble_data : bool;
  g_last_playlist_index : Z;
  g_last_artist_index : Z;
  g_last_album_index : Z
}.

Definition g_playlist_count (l : t) : Z := count_of (g_playlists l).
Definition g_artist_count (l : t) : Z := count_of (g_artists l).
Definition g_album_count (l : t) : Z := count_of (g_albums l).
Definition g_song_count (l : t) : Z := count_of (g_songs l).

(** Helper to safely copy strings: what is in [dest] afterwards. *)
Definition safe_strcpy (src : option string) (dest_size : nat) : string :=
  match src with
  | Some src => C.strncpy src (dest_size - 1)
  | None => ""
  end.

(** *** Playlists *)

Definition library_clear_playlists (l : t) : t :=
  mk [] (g_artists l) (g_albums l) (g_songs l)
     (g_song_context_type l) (g_song_context_id l) (g_has_ble_data l)
     (g_last_playlist_index l) (g_last_artist_index l) (g_last_album_index l).

Definition library_add_playlist (id name : option string) (song_count : Z) (l : t)
  : bool * t :=
  if MAX_BLE_PLAYLISTS <=? g_playlist_count l then (false, l)
  else
    let pl := BLEPlaylist.mk
      (safe_strcpy id MAX_ID_LENGTH)
      (safe_strcpy name MAX_NAME_LENGTH)
      song_count in
    (true,
     mk (g_playlists l ++ [pl]) (g_artists l) (g_albums l) (g_songs l)
        (g_song_context_type l) (g_song_context_id l) true
        (g_last_playlist_index l) (g_last_artist_index l) (g_last_album_index l)).

Definition library_get_playlist_count (l : t) : Z := g_playlist_count l.

Definition library_get_playlist (index : Z) (l : t) : option BLEPlaylist.t :=
  if g_playlist_count l <=? index then None
  else g_playlists l !! Z.to_nat index.

Definition library_get_playlist_by_id (id : string) (l : t) : option BLEPlaylist.t :=
  snd <$> list_find (λ pl, C.strcmp_is_0 (BLEPlaylist.id pl) id = true) (g_playlists l).

(** *** Artists *)

Definition library_clear_artists (l : t) : t :=
  mk (g_playlists l) [] (g_albums l) (g_songs l)
     (g_song_context_type l) (g_song_context_id l) (g_has_ble_data l)
     (g_last_playlist_index l) (g_last_artist_index l) (g_last_album_index l).

Definition library_add_artist (id name : option string) (album_count song_count : Z) (l : t)
  : bool * t :=
  if MAX_BLE_ARTISTS <=? g_artist_count l then (false, l)
  else
    let artist := BLEArtist.mk
      (safe_strcpy id MAX_ID_LENGTH)
      (safe_strcpy name MAX_NAME_LENGTH)
      album_count
      song_count in
    (true,
     mk (g_playlists l) (g_artists l ++ [artist]) (g_albums l) (g_songs l)
        (g_song_context_type l) (g_song_context_id l) true
        (g_last_playlist_index l) (g_last_artist_index l) (g_last_album_index l)).

Definition library_get_artist_count (l : t) : Z := g_artist_count l.

Definition library_get_artist (index : Z) (l : t) : option BLEArtist.t :=
  if g_artist_count l <=? index then None
  else g_artists l !! Z.to_nat index.

Definition library_get_artist_by_id (id : string) (l : t) : option BLEArtist.t :=
  snd <$> list_find (λ a, C.strcmp_is_0 (BLEArtist.id a) id = true) (g_artists l).

(** *** Albums *)

Definition library_clear_albums (l : t) : t :=
  mk (g_playlists l) (g_artists l) [] (g_songs l)
     (g_song_context_type l) (g_song_context_id l) (g_has_ble_data l)
     (g_last_playlist_index l) (g_last_artist_index l) (g_last_album_index l).

Definition library_add_album (id name artist : option string) (song_count year : Z) (l : t)
  : bool * t :=
  if MAX_BLE_ALBUMS <=? g_album_count l then (false, l)
  else
    let album := BLEAlbum.mk
      (safe_strcpy id MAX_ID_LENGTH)
      (safe_strcpy name MAX_NAME_LENGTH)
      (safe_strcpy artist MAX_NAME_LENGTH)
      song_count
      year in
    (true,
     mk (g_playlists l) (g_artists l) (g_albums l ++ [album]) (g_songs l)
        (g_song_context_type l) (g_song_context_id l) true
        (g_last_playlist_index l) (g_last_artist_index l) (g_last_album_index l)).

Definition library_get_album_count (l : t) : Z := g_album_count l.

Definition library_get_album (index : Z) (l : t) : option BLEAlbum.t :=
  if g_album_count l <=? index then None
  else g_albums l !! Z.to_nat index.

Definition library_get_album_by_id (id : string) (l : t) : option BLEAlbum.t :=
  snd <$> list_find (λ a, C.strcmp_is_0 (BLEAlbum.id a) id = true) (g_albums l).

(** *** Songs *)

Definition library_clear_songs (l : t) : t :=
  mk (g_playlists l) (g_artists l) (g_albums l) []
     "" "" (g_has_ble_data l)
     (g_last_playlist_index l) (g_last_artist_index l) (g_last_album_index l).

Definition library_add_song (id title artist album : option string) (duration track : Z)
    (l : t) : bool * t :=
  if MAX_BLE_SONGS <=? g_song_count l then (false, l)
  else
    let song := BLESong.mk
      (safe_strcpy id MAX_ID_LENGTH)
      (safe_strcpy title MAX_NAME_LENGTH)
      (safe_strcpy artist MAX_NAME_LENGTH)
      (safe_strcpy album MAX_NAME_LENGTH)
      duration
      track in
    (true,
     mk (g_playlists l) (g_artists l) (g_albums l) (g_songs l ++ [song])
        (g_song_context_type l) (g_song_context_id l) (g_has_ble_data l)
        (g_last_playlist_index l) (g_last_artist_index l) (g_last_album_index l)).

Definition library_get_song_count (l : t) : Z := g_song_count l.

Definition library_get_song (index : Z) (l : t) : option BLESong.t :=
  if g_song_count l <=? index then None
  else g_songs l !! Z.to_nat index.

(** [sizeof(g_song_context_type)] is 32, [sizeof(g_song_context_id)] is
    [MAX_ID_LENGTH]. *)
Definition library_set_song_context (context_type context_id : option string) (l : t) : t :=
  mk (g_playlists l) (g_artists l) (g_albums l) (g_songs l)
     (safe_strcpy context_type 32) (safe_strcpy context_id MAX_ID_LENGTH)
     (g_has_ble_data l)
     (g_last_playlist_index l) (g_last_artist_index l) (g_last_album_index l).

Definition library_get_song_context_type (l : t) : string := g_song_context_type l.
Definition library_get_song_context_id (l : t) : string := g_song_context_id l.

Definition library_has_ble_data (l : t) : bool := g_has_ble_data l.

Definition library_data_clear (l : t) : t :=
  let l := library_clear_playlists l in
  let l := library_clear_artists l in
  let l := library_clear_albums l in
  let l := library_clear_songs l in
  mk (g_playlists l) (g_artists l) (g_albums l) (g_songs l)
     (g_song_context_type l) (g_song_context_id l) false
     (g_last_playlist_index l) (g_last_artist_index l) (g_last_album_index l).

Definition library_data_init (l : t) : t := library_data_clear l.

(** *** Persistent selection tracking *)

Definition library_set_last_playlist_index (index : Z) (l : t) : t :=
  mk (g_playlists l) (g_artists l) (g_albums l) (g_songs l)
     (g_song_context_type l) (g_song_context_id l) (g_has_ble_data l)
     index (g_last_artist_index l) (g_last_album_index l).

Definition library_get_last_playlist_index (l : t) : Z := g_last_playlist_index l.

End LibraryData.

(** ** bluetooth.cpp *)

Module Bluetooth.

Record State := {
  deviceConnected : bool;
  oldDeviceConnected : bool
}.

(** What the module asks of the BLE stack. *)
Inductive Call :=
| notify (data : JSON * Z)  (* [setValue] and [notify()] on the TX characteristic *)
| startAdvertising
| delay (ms : Z).

(** [ServerCallbacks]; the connection callback registered by the sketch is
    run by the caller. *)
Definition onConnect (b : State) : State :=
  {| deviceConnected := true; oldDeviceConnected := oldDeviceConnected b |}.

Definition onDisconnect (b : State) : State :=
  {| deviceConnected := false; oldDeviceConnected := oldDeviceConnected b |}.

Definition bluetooth_is_connected (b : State) : bool := deviceConnected b.

(** [bluetooth_send], after [bluetooth_init] set the TX characteristic.
    [data] is the buffer [serializeJson(doc, buffer, sizeof(buffer))]
    filled, given by the document and the size of the buffer. *)
Definition bluetooth_send (data : JSON * Z) (b : State) : list Call :=
  if deviceConnected b then [notify data] else [].

Definition bluetooth_update (b : State) : State * list Call :=
  (* Handle disconnecting - restart advertising *)
  let '(b, calls) :=
    if negb (deviceConnected b) && oldDeviceConnected b then
      ({| deviceConnected := deviceConnected b; oldDeviceConnected := deviceConnected b |},
       [delay 500; startAdvertising])
    else (b, []) in
  (* Handle connecting *)
  let b :=
    if deviceConnected b && negb (oldDeviceConnected b) then
      {| deviceConnected := deviceConnected b; oldDeviceConnected := deviceConnected b |}
    else b in
  (b, calls).

End Bluetooth.

(** ** ui.cpp: the paged lists and the BLE songs screen *)

Module Ui.

Definition ITEMS_PER_PAGE : Z := 4.

(* from music_data.cpp *)
Definition ALL_ALBUMS_COUNT : Z := 20.
Definition ALL_ARTISTS_COUNT : Z := 10.
Definition ALL_PLAYLISTS_COUNT : Z := 10.

Inductive screen_t :=
| SCREEN_NOW_PLAYING
| SCREEN_LIBRARY
| SCREEN_PLAYLISTS
| SCREEN_ALBUMS
| SCREEN_ARTISTS
| SCREEN_PLAYLIST_DETAIL
| SCREEN_ALBUM_DETAIL
| SCREEN_ARTIST_ALBUMS.

(** The statics of the file the functions below use. *)
Record State := {
  g_current_screen : screen_t;
  g_list_page : Z;
  g_ble_detail_name : string;
  g_ble_detail_id : string;
  g_ble_detail_type : string;
  g_using_ble_song : bool;
  g_ble_song_title : string;
  g_ble_song_artist : string;
  g_ble_song_album : string;
  g_ble_song_duration : Z;
  is_playing : bool;       (* g_playback.is_playing *)
  progress_sec : Z         (* g_playback.progress_sec *)
}.

(** The callbacks the sketch registers, as the UI invokes them. *)
Inductive Callback :=
| query (query_type : string) (id : option string)
| play (song_id : string) (context context_id : option string) (song_index : Z)
| command (command : string).

Definition with_page_screen (page : Z) (screen : screen_t) (u : State) : State :=
  {| g_current_screen := screen; g_list_page := page;
     g_ble_detail_name := g_ble_detail_name u;
     g_ble_detail_id := g_ble_detail_id u;
     g_ble_detail_type := g_ble_detail_type u;
     g_using_ble_song := g_using_ble_song u;
     g_ble_song_title := g_ble_song_title u;
     g_ble_song_artist := g_ble_song_artist u;
     g_ble_song_album := g_ble_song_album u;
     g_ble_song_duration := g_ble_song_duration u;
     is_playing := is_playing u;
     progress_sec := progress_sec u |}.

(** [uint8_t total_pages = (count + ITEMS_PER_PAGE - 1) / ITEMS_PER_PAGE;
     if (total_pages == 0) total_pages = 1;] *)
Definition total_pages_of (count : Z) : Z :=
  let total_pages := C.uint8_t ((count + ITEMS_PER_PAGE - 1) / ITEMS_PER_PAGE) in
  if total_pages =? 0 then 1 else total_pages.

(** The page the four [on_*_prev] handlers (playlists, albums, artists, BLE
    songs) leave in [g_list_page]; their bodies differ in the count they
    read and the screen they rebuild. *)
Definition page_prev (count : Z) (g_list_page : Z) : Z :=
  let total_pages := total_pages_of count in
  if 0 <? g_list_page then C.uint8_t (g_list_page - 1)
  else (* Wrap to last page *) C.uint8_t (total_pages - 1).

(** Likewise for the four [on_*_next] handlers. *)
Definition page_next (count : Z) (g_list_page : Z) : Z :=
  let total_pages := total_pages_of count in
  if g_list_page <? total_pages - 1 then C.uint8_t (g_list_page + 1)
  else (* Wrap to first page *) 0.

(** The indices [i] a list screen makes an item for: [for (uint8_t i =
    start_idx; i < end_idx; i++)]. *)
Definition page_indices (count : Z) (g_list_page : Z) : list Z :=
  let start_idx := C.uint8_t (g_list_page * ITEMS_PER_PAGE) in
  let end_idx := C.uint8_t (start_idx + ITEMS_PER_PAGE) in
  let end_idx := if count <? end_idx then count else end_idx in
  seqZ start_idx (end_idx - start_idx).

Definition get_playlists_count (l : LibraryData.t) : Z :=
  if LibraryData.library_has_ble_data l then LibraryData.library_get_playlist_count l
  else ALL_PLAYLISTS_COUNT.

Definition get_albums_count (l : LibraryData.t) : Z :=
  if LibraryData.library_has_ble_data l then LibraryData.library_get_album_count l
  else ALL_ALBUMS_COUNT.

Definition get_artists_count (l : LibraryData.t) : Z :=
  if LibraryData.library_has_ble_data l then LibraryData.library_get_artist_count l
  else ALL_ARTISTS_COUNT.

(** [create_playlists_screen], as far as the state goes. *)
Definition create_playlists_screen (u : State) : State :=
  with_page_screen (g_list_page u) SCREEN_PLAYLISTS u.

Definition on_playlists_prev (l : LibraryData.t) (u : State) : State :=
  let count := get_playlists_count l in
  create_playlists_screen
    (with_page_screen (page_prev count (g_list_page u)) (g_current_screen u) u).

Definition on_playlists_next (l : LibraryData.t) (u : State) : State :=
  let count := get_playlists_count l in
  create_playlists_screen
    (with_page_screen (page_next count (g_list_page u)) (g_current_screen u) u).

(** [create_ble_songs_screen]: the screen type follows the detail type. *)
Definition create_ble_songs_screen (u : State) : State :=
  with_page_screen (g_list_page u)
    (if C.strcmp_is_0 (g_ble_detail_type u) "playlist" then SCREEN_PLAYLIST_DETAIL
     else if C.strcmp_is_0 (g_ble_detail_type u) "album" then SCREEN_ALBUM_DETAIL
     else SCREEN_ARTIST_ALBUMS) u.

(** The items of the BLE songs screen: none while the list is empty (the
    screen says Loading). *)
Definition ble_songs_items (l : LibraryData.t) (u : State) : list LibraryData.BLESong.t :=
  let count := LibraryData.library_get_song_count l in
  if count =? 0 then []
  else omap (λ i, LibraryData.library_get_song i l) (page_indices count (g_list_page u)).

Definition on_ble_songs_prev (l : LibraryData.t) (u : State) : State :=
  let count := LibraryData.library_get_song_count l in
  create_ble_songs_screen
    (with_page_screen (page_prev count (g_list_page u)) (g_current_screen u) u).

Definition on_ble_songs_next (l : LibraryData.t) (u : State) : State :=
  let count := LibraryData.library_get_song_count l in
  create_ble_songs_screen
    (with_page_screen (page_next count (g_list_page u)) (g_current_screen u) u).

Definition ui_show_ble_songs (u : State) : State := create_ble_songs_screen u.

(** The three [ui_show_ble_*] functions: [kind] is the string copied to
    [g_ble_detail_type], [query_type] the query sent. *)
Definition ui_show_ble_detail (kind query_type : string) (id name : string) (u : State)
  : State * list Callback :=
  let u :=
    {| g_current_screen := g_current_screen u; g_list_page := 0;
       g_ble_detail_name := C.strncpy name 63;
       g_ble_detail_id := C.strncpy id 47;
       g_ble_detail_type := C.strncpy kind 15;
       g_using_ble_song := g_using_ble_song u;
       g_ble_song_title := g_ble_song_title u;
       g_ble_song_artist := g_ble_song_artist u;
       g_ble_song_album := g_ble_song_album u;
       g_ble_song_duration := g_ble_song_duration u;
       is_playing := is_playing u;
       progress_sec := progress_sec u |} in
  (* Request songs from app *)
  (create_ble_songs_screen u, [query query_type (Some id)]).

Definition ui_show_ble_playlist_detail (playlist_id name : string) (u : State)
  : State * list Callback :=
  ui_show_ble_detail "playlist" "QUERY_PLAYLIST_SONGS" playlist_id name u.

Definition ui_show_ble_album_detail (album_id name : string) (u : State)
  : State * list Callback :=
  ui_show_ble_detail "album" "QUERY_ALBUM_SONGS" album_id name u.

Definition ui_show_ble_artist_albums (artist_id name : string) (u : State)
  : State * list Callback :=
  ui_show_ble_detail "artist" "QUERY_ARTIST_SONGS" artist_id name u.

Definition ui_set_song_info (title artist album : string) (duration_sec : Z) (u : State)
  : State :=
  {| g_current_screen := g_current_screen u; g_list_page := g_list_page u;
     g_ble_detail_name := g_ble_detail_name u;
     g_ble_detail_id := g_ble_detail_id u;
     g_ble_detail_type := g_ble_detail_type u;
     g_using_ble_song := true;
     g_ble_song_title := C.strncpy title 127;
     g_ble_song_artist := C.strncpy artist 127;
     g_ble_song_album := C.strncpy album 127;
     g_ble_song_duration := duration_sec;
     is_playing := is_playing u;
     progress_sec := progress_sec u |}.

Definition ui_set_playing (playing : bool) (u : State) : State :=
  {| g_current_screen := g_current_screen u; g_list_page := g_list_page u;
     g_ble_detail_name := g_ble_detail_name u;
     g_ble_detail_id := g_ble_detail_id u;
     g_ble_detail_type := g_ble_detail_type u;
     g_using_ble_song := g_using_ble_song u;
     g_ble_song_title := g_ble_song_title u;
     g_ble_song_artist := g_ble_song_artist u;
     g_ble_song_album := g_ble_song_album u;
     g_ble_song_duration := g_ble_song_duration u;
     is_playing := playing;
     progress_sec := progress_sec u |}.

Definition ui_set_progress (progress : Z) (u : State) : State :=
  {| g_current_screen := g_current_screen u; g_list_page := g_list_page u;
     g_ble_detail_name := g_ble_detail_name u;
     g_ble_detail_id := g_ble_detail_id u;
     g_ble_detail_type := g_ble_detail_type u;
     g_using_ble_song := g_using_ble_song u;
     g_ble_song_title := g_ble_song_title u;
     g_ble_song_artist := g_ble_song_artist u;
     g_ble_song_album := g_ble_song_album u;
     g_ble_song_duration := g_ble_song_duration u;
     is_playing := is_playing u;
     progress_sec := progress |}.

Definition ui_show_now_playing (u : State) : State :=
  with_page_screen (g_list_page u) SCREEN_NOW_PLAYING u.

(** A tap on the [index]-th item of the BLE songs screen. *)
Definition on_ble_song_click (index : Z) (l : LibraryData.t) (u : State)
  : State * list Callback :=
  let actual_index := C.uint8_t (g_list_page u * ITEMS_PER_PAGE + index) in
  match LibraryData.library_get_song actual_index l with
  | Some song =>
      (* Send play command to app *)
      let context := LibraryData.library_get_song_context_type l in
      let context_id := LibraryData.library_get_song_context_id l in
      (* Use context if available, otherwise pass NULL *)
      let called :=
        if (0 <? C.strlen context)%nat
        then [play (LibraryData.BLESong.id song) (Some context) (Some context_id) actual_index]
        else [play (LibraryData.BLESong.id song) None None actual_index] in
      (* Update UI immediately *)
      let u := ui_set_song_info
        (LibraryData.BLESong.title song) (LibraryData.BLESong.artist song)
        (LibraryData.BLESong.album song) (LibraryData.BLESong.duration_sec song) u in
      let u := ui_set_playing true u in
      let u := ui_set_progress 0 u in
      (ui_show_now_playing u, called)
  | None => (u, [])
  end.

End Ui.

(** ** The main sketch *)

Module Sketch.

Import ArduinoJson.

Definition QUERY_DELAY_MS : Z := 2000.  (* Wait 2 seconds for app to be ready *)

Record State := {
  library : LibraryData.t;
  ui : Ui.State;
  ble : Bluetooth.State;
  g_should_query_library : bool;
  g_connection_time : Z
}.

Definition with_library (l : LibraryData.t) (s : State) : State :=
  {| library := l; ui := ui s; ble := ble s;
     g_should_query_library := g_should_query_library s;
     g_connection_time := g_connection_time s |}.

Definition with_ui (u : Ui.State) (s : State) : State :=
  {| library := library s; ui := u; ble := ble s;
     g_should_query_library := g_should_query_library s;
     g_connection_time := g_connection_time s |}.

(** [millis() / 1000.0] *)
Definition seconds (millis : Z) : Double :=
  PrimFloat.div (Double_init millis) 1000%float.

(** Send a query message to the app; [millis] is what [millis()] returns
    at the call. *)
Definition send_query (millis : Z) (query_type : string) (id : option string)
    (b : Bluetooth.State) : list Bluetooth.Call :=
  let doc : gmap string JSON :=
    <["timestamp" := JDouble (seconds millis)]>
      (<["type" := JString (C.c_str query_type)]> ∅) in
  let doc :=
    match id with
    | Some id =>
        if (0 <? C.strlen id)%nat then
          let payload : gmap string JSON :=
            if C.strcmp_is_0 query_type "QUERY_PLAYLIST_SONGS"
            then {[ "playlistId" := JString (C.c_str id) ]}
            else if C.strcmp_is_0 query_type "QUERY_ALBUM_SONGS"
            then {[ "albumId" := JString (C.c_str id) ]}
            else if C.strcmp_is_0 query_type "QUERY_ARTIST_SONGS"
            then {[ "artistId" := JString (C.c_str id) ]}
            else ∅ in
          <["payload" := JObject payload]> doc
        else doc
    | None => doc
    end in
  Bluetooth.bluetooth_send (JObject doc, 256) b.

(** UI query callback - called when UI needs data from app *)
Definition on_ui_query (millis : Z) (query_type : string) (id : option string)
    (b : Bluetooth.State) : list Bluetooth.Call :=
  send_query millis query_type id b.

(** UI play callback - called when user taps a song to play *)
Definition on_ui_play (millis : Z) (song_id : string) (context context_id : option string)
    (song_index : Z) (b : Bluetooth.State) : list Bluetooth.Call :=
  let payload : gmap string JSON := {[ "songId" := JString (C.c_str song_id) ]} in
  let payload :=
    match context with
    | Some context =>
        if (0 <? C.strlen context)%nat then
          <["contextId" := from_option (λ s, JString (C.c_str s)) JNull context_id]>
            (<["context" := JString (C.c_str context)]> payload)
        else payload
    | None => payload
    end in
  let payload := <["songIndex" := JInt song_index]> payload in
  let doc : gmap string JSON :=
    <["payload" := JObject payload]>
      (<["timestamp" := JDouble (seconds millis)]>
        (<["type" := JString "PLAY_SONG"]> ∅)) in
  Bluetooth.bluetooth_send (JObject doc, 256) b.

(** UI command callback - called for playback control *)
Definition on_ui_command (millis : Z) (command : string) (b : Bluetooth.State)
  : list Bluetooth.Call :=
  let doc : gmap string JSON :=
    <["timestamp" := JDouble (seconds millis)]>
      (<["type" := JString (C.c_str command)]> ∅) in
  Bluetooth.bluetooth_send (JObject doc, 128) b.

(** Send initial library queries; the three readings of [millis()]. *)
Definition send_library_queries (millis1 millis2 millis3 : Z) (b : Bluetooth.State)
  : list Bluetooth.Call :=
  send_query millis1 "QUERY_PLAYLISTS" None b
  ++ [Bluetooth.delay 50]
  ++ send_query millis2 "QUERY_ARTISTS" None b
  ++ [Bluetooth.delay 50]
  ++ send_query millis3 "QUERY_ALBUMS" None b.

(** Bluetooth connection callback *)
Definition on_ble_connection (millis : Z) (connected : bool) (s : State) : State :=
  if connected then
    (* Record connection time - we'll send queries after a delay *)
    {| library := library s; ui := ui s; ble := ble s;
       g_should_query_library := true;
       g_connection_time := C.unsigned_long millis |}
  else
    (* Clear library data on disconnect *)
    {| library := LibraryData.library_data_clear (library s); ui := ui s; ble := ble s;
       g_should_query_library := false;
       g_connection_time := g_connection_time s |}.

(** Handle SONG_STARTED message *)
Definition handle_song_started (payload : JSON) (u : Ui.State) : option Ui.State :=
  let title := or_str (member payload "title") "Unknown" in
  let artist := or_str (member payload "artist") "Unknown Artist" in
  let album := or_str (member payload "album") "Unknown Album" in
  duration ← or_0f_as_uint16 (member payload "duration");
  let u := Ui.ui_set_song_info title artist album duration u in
  let u := Ui.ui_set_playing true u in
  Some (Ui.ui_set_progress 0 u).

(** Handle SONG_STOPPED message *)
Definition handle_song_stopped (payload : JSON) (u : Ui.State) : Ui.State :=
  Ui.ui_set_playing false u.

(** Handle PLAYBACK_PROGRESS message *)
Definition handle_playback_progress (payload : JSON) (u : Ui.State) : option Ui.State :=
  elapsedTime ← or_0f_as_uint16 (member payload "elapsedTime");
  let isPlaying := or_bool (member payload "isPlaying") false in
  let u := Ui.ui_set_progress elapsedTime u in
  Some (Ui.ui_set_playing isPlaying u).

(** Handle PLAYLISTS_RESPONSE message *)
Definition handle_playlists_response (payload : JSON) (l : LibraryData.t) : LibraryData.t :=
  let page := or_int (member payload "page") 1 in
  let playlists := as_array (member payload "playlists") in
  (* Only clear on first page *)
  let l := if page =? 1 then LibraryData.library_clear_playlists l else l in
  foldl (λ l pl,
    let id := or_str (member pl "id") "" in
    let name := or_str (member pl "name") "Unknown" in
    let songCount := C.uint16_t (or_int (member pl "songCount") 0) in
    (LibraryData.library_add_playlist (Some id) (Some name) songCount l).2) l playlists.

(** Handle ARTISTS_RESPONSE message *)
Definition handle_artists_response (payload : JSON) (l : LibraryData.t) : LibraryData.t :=
  let page := or_int (member payload "page") 1 in
  let artists := as_array (member payload "artists") in
  (* Only clear on first page *)
  let l := if page =? 1 then LibraryData.library_clear_artists l else l in
  foldl (λ l artist,
    let id := or_str (member artist "id") "" in
    let name := or_str (member artist "name") "Unknown" in
    let albumCount := C.uint8_t (or_int (member artist "albumCount") 0) in
    let songCount := C.uint16_t (or_int (member artist "songCount") 0) in
    (LibraryData.library_add_artist (Some id) (Some name) albumCount songCount l).2) l artists.

(** Handle ALBUMS_RESPONSE message *)
Definition handle_albums_response (payload : JSON) (l : LibraryData.t) : LibraryData.t :=
  let page := or_int (member payload "page") 1 in
  let albums := as_array (member payload "albums") in
  (* Only clear on first page *)
  let l := if page =? 1 then LibraryData.library_clear_albums l else l in
  foldl (λ l album,
    let id := or_str (member album "id") "" in
    let name := or_str (member album "name") "Unknown" in
    let artist := or_str (member album "artist") "Unknown" in
    let songCount := C.uint8_t (or_int (member album "songCount") 0) in
    let year := C.uint16_t (or_int (member album "year") 0) in
    (LibraryData.library_add_album (Some id) (Some name) (Some artist) songCount year l).2)
    l albums.

(** One turn of the loop over the songs of a page. *)
Definition add_song_of (l : LibraryData.t) (song : JSON) : option LibraryData.t :=
  let id := or_str (member song "id") "" in
  let title := or_str (member song "title") "Unknown" in
  let artist := or_str (member song "artist") "Unknown" in
  let album := or_str (member song "album") "Unknown" in
  duration ← or_0f_as_uint16 (member song "duration");
  let trackNumber := C.uint8_t (or_int (member song "trackNumber") 0) in
  Some (LibraryData.library_add_song
          (Some id) (Some title) (Some artist) (Some album) duration trackNumber l).2.

(** Handle SONGS_RESPONSE message *)
Definition handle_songs_response (payload : JSON) (l : LibraryData.t) (u : Ui.State)
  : option (LibraryData.t * Ui.State) :=
  let page := or_int (member payload "page") 1 in
  let totalPages := or_int (member payload "totalPages") 1 in
  let songs := as_array (member payload "songs") in
  (* Only clear and set context on first page *)
  let l :=
    if page =? 1 then
      let l := LibraryData.library_clear_songs l in
      let context := or_str (member payload "context") "" in
      let contextId := or_str (member payload "contextId") "" in
      LibraryData.library_set_song_context (Some context) (Some contextId) l
    else l in
  l ← foldl (λ l song, l ≫= λ l, add_song_of l song) (Some l) songs;
  (* Only refresh UI after last page *)
  Some (l, if page =? totalPages then Ui.ui_show_ble_songs u else u).

(** Bluetooth data callback - receives JSON from Amperfy app.  [doc] is
    what [deserializeJson] made of the bytes, [None] when it reports an
    error. *)
Definition on_ble_data (doc : option JSON) (s : State) : option State :=
  match doc with
  | None => Some s
  | Some doc =>
      let type := or_str (member doc "type") "" in
      let payload :=
        match member doc "payload" with JObject m => JObject m | _ => JNull end in
      if C.strcmp_is_0 type "SONG_STARTED" then
        u ← handle_song_started payload (ui s); Some (with_ui u s)
      else if C.strcmp_is_0 type "SONG_STOPPED" then
        Some (with_ui (handle_song_stopped payload (ui s)) s)
      else if C.strcmp_is_0 type "PLAYBACK_PROGRESS" then
        u ← handle_playback_progress payload (ui s); Some (with_ui u s)
      else if C.strcmp_is_0 type "PLAYLISTS_RESPONSE" then
        Some (with_library (handle_playlists_response payload (library s)) s)
      else if C.strcmp_is_0 type "ARTISTS_RESPONSE" then
        Some (with_library (handle_artists_response payload (library s)) s)
      else if C.strcmp_is_0 type "ALBUMS_RESPONSE" then
        Some (with_library (handle_albums_response payload (library s)) s)
      else if C.strcmp_is_0 type "SONGS_RESPONSE" then
        '(l, u) ← handle_songs_response payload (library s) (ui s);
        Some (with_ui u (with_library l s))
      else Some s
  end.

(** [ServerCallbacks]: the flag, then the connection callback. *)
Definition onConnect (millis : Z) (s : State) : State :=
  on_ble_connection millis true
    {| library := library s; ui := ui s; ble := Bluetooth.onConnect (ble s);
       g_should_query_library := g_should_query_library s;
       g_connection_time := g_connection_time s |}.

Definition onDisconnect (millis : Z) (s : State) : State :=
  on_ble_connection millis false
    {| library := library s; ui := ui s; ble := Bluetooth.onDisconnect (ble s);
       g_should_query_library := g_should_query_library s;
       g_connection_time := g_connection_time s |}.

(** One pass of [loop]; [millis] is what [millis()] returns in it, and
    [millis1], [millis2], [millis3] what it returns in the three queries,
    when they are sent. *)
Definition loop (millis millis1 millis2 millis3 : Z) (s : State)
  : State * list Bluetooth.Call :=
  (* Handle Bluetooth events *)
  let '(b, calls) := Bluetooth.bluetooth_update (ble s) in
  let s :=
    {| library := library s; ui := ui s; ble := b;
       g_should_query_library := g_should_query_library s;
       g_connection_time := g_connection_time s |} in
  (* Send library queries after connection (with delay for app to be ready) *)
  let '(s, sent) :=
    if g_should_query_library s && Bluetooth.bluetooth_is_connected (ble s) then
      let elapsed := C.unsigned_long (C.unsigned_long millis - g_connection_time s) in
      if QUERY_DELAY_MS <=? elapsed then
        ({| library := library s; ui := ui s; ble := ble s;
            g_should_query_library := false;
            g_connection_time := g_connection_time s |},
         send_library_queries millis1 millis2 millis3 (ble s))
      else (s, [])
    else (s, []) in
  (s, calls ++ sent ++ [Bluetooth.delay 10]).

End Sketch.

Import Observer.

(* ===================================================================== *)
(** * Vocabulary of the statements *)
(* ===================================================================== *)

(** The envelopes a handler hands to [sendMessage], in order. *)
Definition sentMessages (effects : list Effect) : list (MessageType * option Payload) :=
  omap (λ e, match e with SendMessage t p => Some (t, p) | _ => None end) effects.

(** The calls a handler makes on the player, in order. *)
Definition playerCalls (effects : list Effect) : list Effect :=
  omap (λ e, match e with
             | Play _ | TogglePlayPause | PlayNext | PlayPreviousOrReplay => Some e
             | _ => None
             end) effects.

(** [result] is a paginated response to [items]: the handler runs to its
    end, and the envelopes it sends are the pages [1..n] of a split of
    [items] into [n] consecutive runs, each stamped with its number and
    with [n], where [n] is [1] for no items and the least [n] with
    [items.count <= n * perPage] otherwise. *)
Definition paginates {T} (perPage : Z) (type : MessageType)
    (payload : list T → Z → Z → Payload) (items : list T)
    (result : option (list Effect)) : Prop :=
  ∃ (effects : list Effect) (pages : list (list T)),
    result = Some effects
    ∧ sentMessages effects =
        imap (λ i pageItems,
                (type, Some (payload pageItems (Z.of_nat i + 1) (count_of pages)))) pages
    ∧ (items = [] → pages = [[]])
    ∧ (items ≠ [] →
         (count_of pages - 1) * perPage < count_of items <= count_of pages * perPage)
    ∧ concat pages = items.

(** The [page]-th run of [perPage] items. *)
Definition window {T} (perPage : Z) (items : list T) (page : Z) : list T :=
  take (Z.to_nat perPage) (drop (Z.to_nat (page * perPage)) items).

(** The three scopes of a songs query, with what the service ties to each:
    the query type, the string put in [context], the error code, the ids
    the lookup runs over and the id a message asks for. *)
Inductive ScopeKind := playlistScope | artistScope | albumScope.

Definition scopeQuery (k : ScopeKind) : MessageType :=
  match k with
  | playlistScope => queryPlaylistSongs
  | artistScope => queryArtistSongs
  | albumScope => queryAlbumSongs
  end.

Definition scopeName (k : ScopeKind) : string :=
  match k with
  | playlistScope => "playlist"
  | artistScope => "artist"
  | albumScope => "album"
  end.

Definition notFoundCode (k : ScopeKind) : string :=
  match k with
  | playlistScope => "PLAYLIST_NOT_FOUND"
  | artistScope => "ARTIST_NOT_FOUND"
  | albumScope => "ALBUM_NOT_FOUND"
  end.

Definition scopeIds (k : ScopeKind) (storage : LibraryStorage.t) : list string :=
  match k with
  | playlistScope => Playlist.id <$> LibraryStorage.getAllPlaylists true storage
  | artistScope => Artist.id <$> LibraryStorage.getAllArtists storage
  | albumScope => Album.id <$> LibraryStorage.getAllAlbums storage
  end.

Definition handleScopedSongs (k : ScopeKind) (storage : LibraryStorage.t) (scopeId : string)
  : option (list Effect) :=
  match k with
  | playlistScope => handleQueryPlaylistSongs storage scopeId
  | artistScope => handleQueryArtistSongs storage scopeId
  | albumScope => handleQueryAlbumSongs storage scopeId
  end.

Definition requestedScopeId `{JSONSerialization} (k : ScopeKind) (message : BluetoothMessage)
  : option string :=
  match k with
  | playlistScope =>
      QueryPlaylistSongsPayload.playlistId
        <$> decode_as QueryPlaylistSongsPayload.decode message
  | artistScope =>
      QueryArtistSongsPayload.artistId <$> decode_as QueryArtistSongsPayload.decode message
  | albumScope =>
      QueryAlbumSongsPayload.albumId <$> decode_as QueryAlbumSongsPayload.decode message
  end.

(** An envelope is a page of songs carrying the given scope. *)
Definition songsPageWith (context contextId : option string)
    (m : MessageType * option Payload) : Prop :=
  ∃ p, m = (songsResponse, Some (PSongsResponse p))
       ∧ SongsResponsePayload.context p = context
       ∧ SongsResponsePayload.contextId p = contextId.

(** Lookups in a dictionary written as a chain of inserts. *)
Ltac map_lookup :=
  repeat first
    [ rewrite lookup_insert_eq
    | rewrite lookup_insert_ne by done
    | rewrite lookup_empty ].

(** The envelope [sendMessage] turns an oversized one into. *)
Definition tooLargePayload : Payload :=
  PError (ErrorPayload.mk "MESSAGE_TOO_LARGE" "Message exceeds max size").

(** The encodings of the envelopes a handler sends, the first stamped with
    the [n]-th reading of the clock, the next with the one after, and so
    on. *)
Fixpoint encodings `{JSONSerialization} (clock : nat → TimeInterval) (n : nat)
    (effects : list Effect) : option (list Data) :=
  match effects with
  | [] => Some []
  | SendMessage type payload :: effects =>
      d ← toData (BluetoothMessage_init (clock n) type payload);
      ds ← encodings clock (S n) effects;
      Some (d :: ds)
  | _ :: effects => encodings clock n effects
  end.

(** The scope a [context] string names. *)
Definition scopeKind_of (context : string) : option ScopeKind :=
  snd <$> list_find (λ k, scopeName k = context) [playlistScope; artistScope; albumScope].

(** The playables of a scope, when the catalog has the id. *)
Definition songsIn (k : ScopeKind) (scopeId : string) (storage : LibraryStorage.t)
  : option (list AbstractPlayable.t) :=
  match k with
  | playlistScope =>
      (Playlist.playables ∘ snd)
        <$> list_find (λ p, Playlist.id p = scopeId)
              (LibraryStorage.getAllPlaylists true storage)
  | artistScope =>
      (map AbstractPlayable.song ∘ Artist.songs ∘ snd)
        <$> list_find (λ a, Artist.id a = scopeId) (LibraryStorage.getAllArtists storage)
  | albumScope =>
      (map AbstractPlayable.song ∘ Album.songs ∘ snd)
        <$> list_find (λ a, Album.id a = scopeId) (LibraryStorage.getAllAlbums storage)
  end.

(** The candidate list the scope of a command gives: empty without a
    scope (kind and id), for a kind that is none of the three and for an
    id the catalog does not have. *)
Definition scopeCandidates (storage : LibraryStorage.t) (payload : PlaySongPayload.t)
  : list AbstractPlayable.t :=
  default []
    (context ← PlaySongPayload.context payload;
     contextId ← PlaySongPayload.contextId payload;
     k ← scopeKind_of context;
     songsIn k contextId storage).

(** The candidate list the full catalog gives: the first song with the
    id, alone, or nothing. *)
Definition catalogCandidates (storage : LibraryStorage.t) (payload : PlaySongPayload.t)
  : list AbstractPlayable.t :=
  match list_find (λ s, Song.id s = PlaySongPayload.songId payload)
          (LibraryStorage.getAllSongs storage) with
  | Some (_, song) => [AbstractPlayable.song song]
  | None => []
  end.

Definition playCandidates (storage : LibraryStorage.t) (payload : PlaySongPayload.t)
  : list AbstractPlayable.t :=
  if isEmpty (scopeCandidates storage payload)
  then catalogCandidates storage payload
  else scopeCandidates storage payload.

(** The publisher before anything played. *)
Definition freshPublisher : Publisher :=
  {| observer := Observer.init;
     service := {| progressTimer := false; currentSongId := None |} |}.

(** The publisher once a poll has seen [song] playing or paused. *)
Definition publisherAt (song : AbstractPlayable.t) (playing : bool) : Publisher :=
  {| observer := {| lastPlayingState := playing;
                    lastSongId := Some (AbstractPlayable.id song) |};
     service := {| progressTimer := playing;
                   currentSongId :=
                     if playing then Some (AbstractPlayable.id song) else None |} |}.

(** A firing is in keeping with the player having [song], playing or not:
    a poll sees exactly that; the progress timer may see anything. *)
Definition observes (song : option AbstractPlayable.t) (playing : bool) (f : Firing) : Prop :=
  match f with
  | Poll player =>
      PlayerFacade.currentlyPlaying player = song ∧ PlayerFacade.isPlaying player = playing
  | Progress _ => True
  end.

(** An observed interval: it opens with the poll that sees the state, and
    every later poll in it sees the same state. *)
Definition interval (song : AbstractPlayable.t) (playing : bool) (fs : list Firing) : Prop :=
  (∃ player rest, fs = Poll player :: rest) ∧ Forall (observes (Some song) playing) fs.

(** The three frames of the publisher. *)
Definition songStartedFrame (song : AbstractPlayable.t) (playlistName : option string)
  : Effect :=
  SendMessage songStarted
    (Some (PSongStarted (SongStartedPayload.mk
       (AbstractPlayable.id song)
       (AbstractPlayable.title song)
       (Some (AbstractPlayable.creatorName song))
       (AbstractPlayable.asSong song ≫= Song.album)
       (Double_init (AbstractPlayable.duration song))
       playlistName
       None))).

Definition songStoppedFrame (song : AbstractPlayable.t) : Effect :=
  SendMessage songStopped
    (Some (PSongStopped (SongStoppedPayload.mk (AbstractPlayable.id song)))).

Definition isProgress (e : Effect) : Prop :=
  ∃ p, e = SendMessage playbackProgress (Some (PPlaybackProgress p)).

(** A run of disconnect notifications, each for some peripheral, with or
    without an error; the tasks spawned along the way. *)
Fixpoint afterDisconnects (losses : list (Manager.CBPeripheral * bool)) (st : Manager.State)
  : Manager.State * list Manager.Command :=
  match losses with
  | [] => (st, [])
  | (peripheral, hadError) :: losses =>
      let '(st, spawned) := Manager.didDisconnectPeripheral peripheral hadError st in
      let '(st, later) := afterDisconnects losses st in
      (st, spawned ++ later)
  end.

(* ===================================================================== *)
(** * Sample data *)
(* ===================================================================== *)

Definition demoSong (i t : string) (n : Z) : Song.t :=
  Song.mk i t "Some Artist" (Some "Some Artist") (Some "Some Album") 200 n.

(** A catalog of three songs, all of one album and one artist, with a
    playlist of the three and a system playlist. *)
Definition demoStorage : LibraryStorage.t :=
  LibraryStorage.mk
    [ Playlist.mk "pl-1" "Road trip"
        [ AbstractPlayable.song (demoSong "s1" "One" 1);
          AbstractPlayable.song (demoSong "s2" "Two" 2);
          AbstractPlayable.song (demoSong "s3" "Three" 3) ] false;
      Playlist.mk "sys-1" "Context queue"
        [ AbstractPlayable.song (demoSong "s2" "Two" 2) ] true ]
    [ Artist.mk "ar-1" "Some Artist" ["al-1"]
        [ demoSong "s1" "One" 1; demoSong "s2" "Two" 2; demoSong "s3" "Three" 3 ] ]
    [ Album.mk "al-1" "Some Album" (Some "Some Artist")
        [ demoSong "s1" "One" 1; demoSong "s2" "Two" 2; demoSong "s3" "Three" 3 ] 2024 ]
    [ demoSong "s1" "One" 1; demoSong "s2" "Two" 2; demoSong "s3" "Three" 3 ].

(** A query for the songs of a playlist, as it arrives. *)
Definition playlistSongsQuery (playlistId : string) : BluetoothMessage (H := TreeJSON) :=
  {| type := queryPlaylistSongs;
     timestamp := 1737302400.5%float;
     payloadData := Some (JObject {[ "playlistId" := JString playlistId ]}) |}.

(** An error envelope and the frame it is encoded to. *)
Definition demoEnvelope : BluetoothMessage (H := TreeJSON) :=
  BluetoothMessage_init 1737302400.5%float error
    (Some (PError (ErrorPayload.mk "ALBUM_NOT_FOUND" "Album with ID al-9 not found"))).

Definition demoFrame : @Data TreeJSON :=
  JObject
    {[ "type" := JString "ERROR";
       "timestamp" := JDouble 1737302400.5%float;
       "payload" := JObject
         {[ "code" := JString "ALBUM_NOT_FOUND";
            "message" := JString "Album with ID al-9 not found" ]} ]}.

(** A frame of a type the vocabulary does not have. *)
Definition genresQuery : @Data TreeJSON :=
  JObject {[ "type" := JString "QUERY_GENRES"; "timestamp" := JDouble 1737302400.5%float ]}.

(** A playSong command as the device sends it. *)
Definition playFrame : @Data TreeJSON :=
  JObject
    {[ "type" := JString "PLAY_SONG";
       "timestamp" := JDouble 12.25%float;
       "payload" := JObject
         {[ "songId" := JString "s3";
            "context" := JString "album";
            "contextId" := JString "al-1";
            "songIndex" := JInt 2 ]} ]}.

(** [String(repeating:count:)] *)
Fixpoint repeated (n : nat) (s : string) : string :=
  match n with
  | O => ""
  | S n => s +:+ repeated n s
  end.

(** A ready link with nothing written yet. *)
Definition readyLink : Link (H := TreeJSON) :=
  {| txCharacteristic := true;
     written := [];
     clock := λ _, 1737302400.5%float;
     clockReads := 0 |}.

(** A page of two songs whose ids alone go past the cap. *)
Definition oversizedPage : BluetoothMessage (H := TreeJSON) :=
  BluetoothMessage_init 1737302400.5%float songsResponse
    (Some (PSongsResponse (SongsResponsePayload.mk
       [ createSongInfo (demoSong (repeated 300 "a") "One" 1);
         createSongInfo (demoSong (repeated 300 "b") "Two" 2) ]
       None None 1 1))).

Definition oversizedFrame : @Data TreeJSON := default JNull (toData oversizedPage).

Definition tooLargeFrame : @Data TreeJSON :=
  default JNull
    (toData (BluetoothMessage_init 1737302400.5%float error (Some tooLargePayload))).

(** A player with nothing loaded. *)
Definition idlePlayer : PlayerFacade.t :=
  PlayerFacade.mk false None "" 0%float 0%float.

(** Two songs and a run through the four intervals: a poll, two firings of
    the progress timer and a second poll in each. *)
Definition songA : AbstractPlayable.t := AbstractPlayable.song (demoSong "s1" "One" 1).
Definition songB : AbstractPlayable.t := AbstractPlayable.song (demoSong "s2" "Two" 2).

Definition playerWith (song : AbstractPlayable.t) (playing : bool) : PlayerFacade.t :=
  PlayerFacade.mk playing (Some song) "Road trip" 12.5%float 200%float.

Definition fourFirings (song : AbstractPlayable.t) (playing : bool) : list Firing :=
  [ Poll (playerWith song playing); Progress (playerWith song playing);
    Progress (playerWith song playing); Poll (playerWith song playing) ].

(** A manager connected to one discovered peer, which is also the
    persisted one, with autoReconnect set. *)
Definition esp32 : Manager.CBPeripheral :=
  {| Manager.identifier := "6E400001-0000-0000-0000-000000000001";
     Manager.peripheral_name := Some "Amperfy-ESP32" |}.

Definition connectedManager : Manager.State :=
  (Manager.didConnect esp32
     {| Manager.poweredOn := true;
        Manager.isScanning := false;
        Manager.isBluetoothEnabled := true;
        Manager.discoveredDevices := [Manager.BluetoothDevice_init esp32 (-60)];
        Manager.connectedDevice := None;
        Manager.errorMessage := None;
        Manager.hasAttemptedAutoReconnect := true;
        Manager.defaults :=
          {| Manager.LastConnectedBluetoothDeviceUUID := None;
             Manager.LastConnectedBluetoothDeviceName := None;
             Manager.BluetoothShouldAutoReconnect := None |};
        Manager.communicationService :=
          {| progressTimer := false; currentSongId := None |} |}).1.

(* ===================================================================== *)
(** * Vocabulary of the further properties *)
(* ===================================================================== *)

(** The publisher's two halves agree: the service holds a current song
    exactly while the observer last saw one playing, and the progress
    timer is scheduled exactly while the service holds a current song. *)
Definition inStep (p : Publisher) : Prop :=
  currentSongId (service p)
    = (if lastPlayingState (observer p) then lastSongId (observer p) else None)
  ∧ progressTimer (service p) = bool_decide (is_Some (currentSongId (service p))).

(** The frames of a run that are not progress frames. *)
Definition transitions (effects : list Effect) : list Effect :=
  omap (λ e, match e with
             | SendMessage playbackProgress _ => None
             | _ => Some e
             end) effects.

(** The publisher after the link was lost: the manager resets the service
    and leaves the observer as it is. *)
Definition afterLinkLoss (p : Publisher) : Publisher :=
  {| observer := observer p;
     service := didDisconnectFromPeripheral (service p) |}.

(** A list with [sep] between each two consecutive elements. *)
Fixpoint separated {A} (sep : A) (l : list A) : list A :=
  match l with
  | [] => []
  | x :: l => match l with [] => [x] | _ => x :: sep :: separated sep l end
  end.

(** A handler runs to its end, and what it does is send its envelopes
    with one sleep of [delayBetweenPages] between each two. *)
Definition pacedBySleeps (result : option (list Effect)) : Prop :=
  ∃ effects,
    result = Some effects
    ∧ effects = separated (Sleep delayBetweenPages)
                  ((λ m, SendMessage m.1 m.2) <$> sentMessages effects).

(** The lengths the service cuts names to before it lists them. *)
Definition withinCaps (m : MessageType * option Payload) : Prop :=
  match m.2 with
  | Some (PPlaylistsResponse p) =>
      Forall (λ i, String.length (PlaylistInfo.name i) ≤ 30)%nat
        (PlaylistsResponsePayload.playlists p)
  | Some (PArtistsResponse p) =>
      Forall (λ i, String.length (ArtistInfo.name i) ≤ 30)%nat
        (ArtistsResponsePayload.artists p)
  | Some (PAlbumsResponse p) =>
      Forall (λ i, (String.length (AlbumInfo.name i) ≤ 25)%nat
                   ∧ ∀ a, AlbumInfo.artist i = Some a → (String.length a ≤ 20)%nat)
        (AlbumsResponsePayload.albums p)
  | Some (PSongsResponse p) =>
      Forall (λ i, (String.length (SongInfo.title i) ≤ 30)%nat
                   ∧ (∀ a, SongInfo.artist i = Some a → (String.length a ≤ 20)%nat)
                   ∧ (∀ a, SongInfo.album i = Some a → (String.length a ≤ 20)%nat))
        (SongsResponsePayload.songs p)
  | _ => True
  end.

(** A catalog whose one playlist has an episode between two songs. *)
Definition mixedStorage : LibraryStorage.t :=
  LibraryStorage.mk
    [ Playlist.mk "pl-mix" "Mixed"
        [ AbstractPlayable.song (demoSong "s1" "One" 1);
          AbstractPlayable.other "ep-1" "Episode" "Some Podcast" 1800;
          AbstractPlayable.song (demoSong "s2" "Two" 2) ] false ]
    [] []
    [ demoSong "s1" "One" 1; demoSong "s2" "Two" 2 ].

(** A run of power-state notifications, and the calls on the central
    manager made along the way. *)
Fixpoint afterStateUpdates (retrievePeripherals : list Manager.UUID → list Manager.CBPeripheral)
    (states : list Manager.CBManagerState.t) (st : Manager.State)
  : Manager.State * list Manager.Command :=
  match states with
  | [] => (st, [])
  | state :: states =>
      let '(st, called) := Manager.centralManagerDidUpdateState retrievePeripherals state st in
      let '(st, later) := afterStateUpdates retrievePeripherals states st in
      (st, called ++ later)
  end.

(** What happens to the manager: the user's requests and the delegate
    callbacks. *)
Inductive ManagerEvent :=
| UserStartsScanning
| UserStopsScanning
| UserConnects (device : Manager.BluetoothDevice)
| UserDisconnects
| StateUpdated (state : Manager.CBManagerState.t)
| Discovered (peripheral : Manager.CBPeripheral) (RSSI : Z)
| Connected (peripheral : Manager.CBPeripheral)
| FailedToConnect (peripheral : Manager.CBPeripheral)
| Disconnected (peripheral : Manager.CBPeripheral) (hadError : bool).

Definition afterEvent (retrievePeripherals : list Manager.UUID → list Manager.CBPeripheral)
    (e : ManagerEvent) (st : Manager.State) : Manager.State :=
  match e with
  | UserStartsScanning => (Manager.startScanning st).1
  | UserStopsScanning => (Manager.stopScanning st).1
  | UserConnects device => (Manager.connect_to device st).1
  | UserDisconnects => (Manager.disconnect st).1
  | StateUpdated state => (Manager.centralManagerDidUpdateState retrievePeripherals state st).1
  | Discovered peripheral RSSI => Manager.didDiscover retrievePeripherals peripheral RSSI st
  | Connected peripheral => (Manager.didConnect peripheral st).1
  | FailedToConnect peripheral => Manager.didFailToConnect peripheral st
  | Disconnected peripheral hadError =>
      (Manager.didDisconnectPeripheral peripheral hadError st).1
  end.

(** No two discovered devices are of one peripheral identifier. *)
Definition distinctIdentifiers (st : Manager.State) : Prop :=
  NoDup ((λ d, Manager.identifier (Manager.peripheral d)) <$> Manager.discoveredDevices st).

(** The system retrieves peripherals under the identifiers asked for. *)
Definition retrievesAsAsked
    (retrievePeripherals : list Manager.UUID → list Manager.CBPeripheral) : Prop :=
  ∀ ids p, p ∈ retrievePeripherals ids → Manager.identifier p ∈ ids.

(** A system that knows the sample peer under its identifier and no
    other peripheral. *)
Definition knowsEsp32 (ids : list Manager.UUID) : list Manager.CBPeripheral :=
  if decide (Manager.identifier esp32 ∈ ids) then [esp32] else [].

(** A manager that has discovered the sample peer and is not connected. *)
Definition discoveredManager : Manager.State :=
  {| Manager.poweredOn := true;
     Manager.isScanning := true;
     Manager.isBluetoothEnabled := true;
     Manager.discoveredDevices := [Manager.BluetoothDevice_init esp32 (-60)];
     Manager.connectedDevice := None;
     Manager.errorMessage := None;
     Manager.hasAttemptedAutoReconnect := true;
     Manager.defaults :=
       {| Manager.LastConnectedBluetoothDeviceUUID := None;
          Manager.LastConnectedBluetoothDeviceName := None;
          Manager.BluetoothShouldAutoReconnect := None |};
     Manager.communicationService :=
       {| progressTimer := false; currentSongId := None |} |}.

(** A C string that fits a [char] array of [size] bytes with its
    terminator. *)
Definition fits (size : nat) (s : string) : Prop :=
  (String.length s < size)%nat ∧ C.c_str s = s.

(** Every array of the device's library holds no more entries than it has
    room for, and every field holds a value of its C type. *)
Definition withinArrays (l : LibraryData.t) : Prop :=
  (LibraryData.g_playlist_count l <= LibraryData.MAX_BLE_PLAYLISTS
   ∧ Forall (λ p, fits LibraryData.MAX_ID_LENGTH (LibraryData.BLEPlaylist.id p)
               ∧ fits LibraryData.MAX_NAME_LENGTH (LibraryData.BLEPlaylist.name p)
               ∧ 0 <= LibraryData.BLEPlaylist.song_count p < 2 ^ 16)
       (LibraryData.g_playlists l))
  ∧ (LibraryData.g_artist_count l <= LibraryData.MAX_BLE_ARTISTS
     ∧ Forall (λ a, fits LibraryData.MAX_ID_LENGTH (LibraryData.BLEArtist.id a)
                 ∧ fits LibraryData.MAX_NAME_LENGTH (LibraryData.BLEArtist.name a)
                 ∧ 0 <= LibraryData.BLEArtist.album_count a < 2 ^ 8
                 ∧ 0 <= LibraryData.BLEArtist.song_count a < 2 ^ 16)
         (LibraryData.g_artists l))
  ∧ (LibraryData.g_album_count l <= LibraryData.MAX_BLE_ALBUMS
     ∧ Forall (λ a, fits LibraryData.MAX_ID_LENGTH (LibraryData.BLEAlbum.id a)
                 ∧ fits LibraryData.MAX_NAME_LENGTH (LibraryData.BLEAlbum.name a)
                 ∧ fits LibraryData.MAX_NAME_LENGTH (LibraryData.BLEAlbum.artist a)
                 ∧ 0 <= LibraryData.BLEAlbum.song_count a < 2 ^ 8
                 ∧ 0 <= LibraryData.BLEAlbum.year a < 2 ^ 16)
         (LibraryData.g_albums l))
  ∧ (LibraryData.g_song_count l <= LibraryData.MAX_BLE_SONGS
     ∧ Forall (λ s, fits LibraryData.MAX_ID_LENGTH (LibraryData.BLESong.id s)
                 ∧ fits LibraryData.MAX_NAME_LENGTH (LibraryData.BLESong.title s)
                 ∧ fits LibraryData.MAX_NAME_LENGTH (LibraryData.BLESong.artist s)
                 ∧ fits LibraryData.MAX_NAME_LENGTH (LibraryData.BLESong.album s)
                 ∧ 0 <= LibraryData.BLESong.duration_sec s < 2 ^ 16
                 ∧ 0 <= LibraryData.BLESong.track_number s < 2 ^ 8)
         (LibraryData.g_songs l))
  ∧ fits 32 (LibraryData.g_song_context_type l)
  ∧ fits LibraryData.MAX_ID_LENGTH (LibraryData.g_song_context_id l).

(** The library of a device that has just started. *)
Definition emptyLibrary : LibraryData.t :=
  LibraryData.mk [] [] [] [] "" "" false 0 0 0.

(** A device that has just started: nothing shown, nothing held, no
    connection. *)
Definition freshUi : Ui.State :=
  {| Ui.g_current_screen := Ui.SCREEN_NOW_PLAYING;
     Ui.g_list_page := 0;
     Ui.g_ble_detail_name := "";
     Ui.g_ble_detail_id := "";
     Ui.g_ble_detail_type := "";
     Ui.g_using_ble_song := false;
     Ui.g_ble_song_title := "";
     Ui.g_ble_song_artist := "";
     Ui.g_ble_song_album := "";
     Ui.g_ble_song_duration := 0;
     Ui.is_playing := false;
     Ui.progress_sec := 0 |}.

Definition freshSketch : Sketch.State :=
  {| Sketch.library := emptyLibrary;
     Sketch.ui := freshUi;
     Sketch.ble := {| Bluetooth.deviceConnected := false;
                      Bluetooth.oldDeviceConnected := false |};
     Sketch.g_should_query_library := false;
     Sketch.g_connection_time := 0 |}.

(** The document in the frame of an envelope: the object [toData] writes,
    with the payload's own object under "payload". *)
Definition wireDocument (now : TimeInterval) (m : MessageType * option Payload)
  : option JSON :=
  let dict : gmap string JSON :=
    <["timestamp" := JDouble now]> (<["type" := JString (rawValue m.1)]> ∅) in
  match m.2 with
  | Some payload =>
      payloadObject ← Payload_encode payload;
      Some (JObject (<["payload" := payloadObject]> dict))
  | None => Some (JObject dict)
  end.

(** The device after it was handed, one by one and in order, the
    documents of the envelopes a handler of the app sends. *)
Definition deviceAfter (now : TimeInterval) (effects : list Effect) (s : Sketch.State)
  : option Sketch.State :=
  foldl (λ acc m, s ← acc; doc ← wireDocument now m; Sketch.on_ble_data (Some doc) s)
    (Some s) (sentMessages effects).

(** What the device keeps of a listed playlist: the id cut to 47 bytes,
    the name to 63, the count as a 16-bit number of what arrives as a
    32-bit one. *)
Definition keptPlaylist (info : PlaylistInfo.t) : LibraryData.BLEPlaylist.t :=
  LibraryData.BLEPlaylist.mk
    (C.strncpy (PlaylistInfo.id info) 47)
    (C.strncpy (PlaylistInfo.name info) 63)
    (C.uint16_t (ArduinoJson.or_int (JInt (PlaylistInfo.songCount info)) 0)).

(** The playlist entry the service lists. *)
Definition listedPlaylist (playlist : Playlist.t) : PlaylistInfo.t :=
  PlaylistInfo.mk
    (Playlist.id playlist)
    (prefix 30 (Playlist.name playlist))
    (count_of (Playlist.playables playlist)).


(** What happens to the BLE module of the device, and the calls on the
    stack it makes over a run of such events from its start. *)
Inductive BleEvent := PeerConnects | PeerDisconnects | Update.

Fixpoint bleAfter (events : list BleEvent) (b : Bluetooth.State)
  : Bluetooth.State * list Bluetooth.Call :=
  match events with
  | [] => (b, [])
  | e :: events =>
      let '(b, calls) :=
        match e with
        | PeerConnects => (Bluetooth.onConnect b, [])
        | PeerDisconnects => (Bluetooth.onDisconnect b, [])
        | Update => Bluetooth.bluetooth_update b
        end in
      let '(b, later) := bleAfter events b in
      (b, calls ++ later)
  end.

Definition isRestart (c : Bluetooth.Call) : bool :=
  match c with Bluetooth.startAdvertising => true | _ => false end.

Definition restarts (calls : list Bluetooth.Call) : nat :=
  length (List.filter isRestart calls).

#[export] Instance BleEvent_eq_dec : EqDecision BleEvent.
Proof. solve_decision. Defined.

Definition connections (events : list BleEvent) : nat :=
  length (filter (λ e, e = PeerConnects) events).

Definition disconnections (events : list BleEvent) : nat :=
  length (filter (λ e, e = PeerDisconnects) events).

(** What happens to the sketch: the peer connects or disconnects at some
    reading of the clock, or [loop] makes a pass; the calls on the stack
    over a run of such events. *)
Inductive SketchEvent :=
| Connects (millis : Z)
| Disconnects (millis : Z)
| Loops (millis millis1 millis2 millis3 : Z).

Fixpoint sketchAfter (events : list SketchEvent) (s : Sketch.State)
  : Sketch.State * list (list Bluetooth.Call) :=
  match events with
  | [] => (s, [])
  | e :: events =>
      let '(s, calls) :=
        match e with
        | Connects millis => (Sketch.onConnect millis s, [])
        | Disconnects millis => (Sketch.onDisconnect millis s, [])
        | Loops millis millis1 millis2 millis3 =>
            Sketch.loop millis millis1 millis2 millis3 s
        end in
      let '(s, later) := sketchAfter events s in
      (s, calls :: later)
  end.

(** The three library queries of one pass of [loop], each a document with
    a type and a timestamp and no payload. *)
Definition bareQuery (query_type : string) (millis : Z) : Bluetooth.Call :=
  Bluetooth.notify
    (JObject (<["timestamp" := JDouble (Sketch.seconds millis)]>
                (<["type" := JString query_type]> ∅)), 256).

Definition libraryQueries (millis1 millis2 millis3 : Z) : list Bluetooth.Call :=
  [ bareQuery "QUERY_PLAYLISTS" millis1;
    Bluetooth.delay 50;
    bareQuery "QUERY_ARTISTS" millis2;
    Bluetooth.delay 50;
    bareQuery "QUERY_ALBUMS" millis3 ].

Definition connects (events : list SketchEvent) : nat :=
  length (List.filter (λ e, match e with Connects _ => true | _ => false end) events).

(** A pass of [loop] made [millis] into the run, less than two seconds
    after the millisecond [since]. *)
Definition passWithin2s (since : Z) (e : SketchEvent) : Prop :=
  match e with
  | Loops millis _ _ _ => 0 <= millis - since < 2000
  | _ => False
  end.

(** The passes of a run in which something was notified. *)
Definition isNotify (c : Bluetooth.Call) : bool :=
  match c with Bluetooth.notify _ => true | _ => false end.

Definition notifying (passes : list (list Bluetooth.Call)) : list (list Bluetooth.Call) :=
  List.filter (existsb isNotify) passes.


(** Two seconds have gone by on the 32-bit millisecond clock since the
    recorded time of the connection. *)
Definition QUERY_DELAY_MS_elapsed (millis : Z) (s : Sketch.State) : Prop :=
  Sketch.QUERY_DELAY_MS
    <= C.unsigned_long (C.unsigned_long millis - Sketch.g_connection_time s).




(** What the device keeps of a song the service lists: the id cut to 47
    bytes; the title cut to 30 characters by the service and to 63 bytes
    by the device; the names of the artist and of the album cut to 20
    characters, or Unknown for a song that has none; the duration in whole
    seconds; the track number as an 8-bit number of what arrives as a
    32-bit one. *)
Definition keptSong (song : Song.t) : LibraryData.BLESong.t :=
  LibraryData.BLESong.mk
    (C.strncpy (Song.id song) 47)
    (C.strncpy (prefix 30 (Song.title song)) 63)
    (C.strncpy (default "Unknown" (prefix 20 <$> Song.artist song)) 63)
    (C.strncpy (default "Unknown" (prefix 20 <$> Song.album song)) 63)
    (Song.duration song)
    (C.uint8_t (ArduinoJson.or_int (JInt (Song.track song)) 0)).

(** The object of a song in a page of songs. *)
Definition songDocument (song : Song.t) : JSON :=
  JObject
    (encodeIfPresent "trackNumber" (Some (JInt (Song.track song)))
    (encode_key "duration" (JDouble (Double_init (Song.duration song)))
    (encodeIfPresent "album" (JString <$> (prefix 20 <$> Song.album song))
    (encodeIfPresent "artist" (JString <$> (prefix 20 <$> Song.artist song))
    (encode_key "title" (JString (prefix 30 (Song.title song)))
    (encode_key "id" (JString (Song.id song)) ∅)))))).

(** A duration the device can hold: whole seconds below 2^16. *)
Definition shortEnough (song : Song.t) : Prop := 0 <= Song.duration song < 2 ^ 16.

(** The three callbacks [setup] registers with the UI, run on what the UI
    invokes; [millis] is what [millis()] returns in them. *)
Definition registered (millis : Z) (b : Bluetooth.State) (called : list Ui.Callback)
  : list Bluetooth.Call :=
  concat (map (λ c,
    match c with
    | Ui.query query_type id => Sketch.on_ui_query millis query_type id b
    | Ui.play song_id context context_id song_index =>
        Sketch.on_ui_play millis song_id context context_id song_index b
    | Ui.command command => Sketch.on_ui_command millis command b
    end) called).

(** What a tap on a song of the device's list asks the app for: the song
    by the id the device holds, in the scope its list came with when it
    came with one, and the position in the list as index. *)
Definition tappedPayload (lib : LibraryData.t) (song : LibraryData.BLESong.t) (position : Z)
  : PlaySongPayload.t :=
  let scoped := (0 <? C.strlen (LibraryData.g_song_context_type lib))%nat in
  PlaySongPayload.mk
    (LibraryData.BLESong.id song)
    (if scoped then Some (LibraryData.g_song_context_type lib) else None)
    (if scoped then Some (LibraryData.g_song_context_id lib) else None)
    (Some position).

(** A device that holds the three songs of the album of the sample
    catalog, as they reach it. *)
Definition albumOnDevice : LibraryData.t :=
  LibraryData.mk [] [] []
    (keptSong <$> [demoSong "s1" "One" 1; demoSong "s2" "Two" 2; demoSong "s3" "Three" 3])
    "album" "al-1" false 0 0 0.

(** The function of the UI that opens the songs of an entry of each
    kind. *)
Definition ui_show_ble_scope (k : ScopeKind)
  : string → string → Ui.State → Ui.State * list Ui.Callback :=
  match k with
  | playlistScope => Ui.ui_show_ble_playlist_detail
  | artistScope => Ui.ui_show_ble_artist_albums
  | albumScope => Ui.ui_show_ble_album_detail
  end.
(* ===================================================================== *)
(** * Pagination *)
(* ===================================================================== *)

Section Pagination.
Context {T : Type}.
Implicit Types (items : list T) (c n : nat).

Lemma concat_windows c n : ∀ items,
  (0 < c)%nat → (length items ≤ n * c)%nat →
  concat (map (λ i, take c (drop (i * c) items)) (seq 0 n)) = items.
Proof.
  induction n as [|n IH]; intros items Hc Hlen.
  - destruct items; [done | simpl in Hlen; lia].
  - cbn [seq map concat]. rewrite <- fmap_S_seq, drop_0.
    change (map ?f (S <$> ?l)) with (f <$> (S <$> l)).
    rewrite <- list_fmap_compose.
    rewrite <- (take_drop c items) at 2. f_equal.
    rewrite <- (IH (drop c items)) at 1; [| done | rewrite length_drop; lia].
    apply (f_equal (@concat T)), list_fmap_ext. intros _ i _. simpl.
    by rewrite drop_drop.
Qed.

Lemma slice_window (perPage : Z) items (page : Z) :
  0 < perPage → 0 <= page → page * perPage <= count_of items →
  slice items (page * perPage) (Z.min (page * perPage + perPage) (count_of items))
  = Some (window perPage items page).
Proof.
  intros Hc Hp Hle. unfold slice, window, count_of in *.
  assert (Hcond : (0 <=? page * perPage)
            && (page * perPage <=? Z.min (page * perPage + perPage) (Z.of_nat (length items)))
            && (Z.min (page * perPage + perPage) (Z.of_nat (length items))
                  <=? Z.of_nat (length items)) = true).
  { rewrite !andb_true_iff, !Z.leb_le. lia. }
  rewrite Hcond. f_equal.
  destruct (Z.le_gt_cases (page * perPage + perPage) (Z.of_nat (length items))) as [Hin|Hout].
  - rewrite Z.min_l by done. f_equal. lia.
  - rewrite Z.min_r by lia.
    rewrite !take_ge; [done | | ]; rewrite length_drop; lia.
Qed.

Lemma mapM_total {A B} (f : A → option B) (g : A → B) (l : list A) :
  (∀ x, x ∈ l → f x = Some (g x)) → mapM f l = Some (g <$> l).
Proof.
  intros Hf. apply mapM_Some_2, Forall2_fmap_r, Forall_Forall2_diag.
  apply Forall_forall. auto.
Qed.

Lemma sentMessages_pages (type : MessageType) (msg : Z → option Payload)
    (gap : Z → list Effect) (pages : list Z) :
  (∀ page, sentMessages (gap page) = []) →
  sentMessages (concat ((λ page, SendMessage type (msg page) :: gap page) <$> pages))
  = (λ page, (type, msg page)) <$> pages.
Proof.
  intros Hgap. induction pages as [|page pages IH]; [done|].
  cbn [fmap list_fmap concat]. unfold sentMessages in *.
  rewrite omap_app. cbn [omap list_omap]. rewrite Hgap. simpl. by f_equal.
Qed.

Lemma imap_fmap_seq {A B} (f : nat → A → B) (g : nat → A) n : ∀ s,
  imap (λ i, f (s + i)%nat) (g <$> seq s n) = (λ i, f i (g i)) <$> seq s n.
Proof.
  induction n as [|n IH]; intros s; [done|].
  cbn [seq fmap list_fmap]. rewrite imap_cons. f_equal; [by rewrite Nat.add_0_r|].
  rewrite <- (IH (S s)). apply imap_ext. intros i x _. simpl. f_equal. lia.
Qed.

Lemma totalPages_bounds (perPage N : Z) :
  0 < perPage → 0 <= N →
  let totalPages := Z.max 1 (Z.quot (N + perPage - 1) perPage) in
  1 <= totalPages
  ∧ (N = 0 → totalPages = 1)
  ∧ (0 < N → (totalPages - 1) * perPage < N <= totalPages * perPage).
Proof.
  intros Hc HN. cbv zeta. rewrite Z.quot_div_nonneg by lia.
  pose proof (Z.div_mod (N + perPage - 1) perPage ltac:(lia)) as Hdm.
  pose proof (Z.mod_pos_bound (N + perPage - 1) perPage Hc) as Hm.
  split; [lia|]. split.
  - intros ->. assert ((0 + perPage - 1) / perPage = 0) as ->; [|lia].
    apply Z.div_small. lia.
  - intros Hpos. assert (1 <= (N + perPage - 1) / perPage) by nia.
    rewrite Z.max_r by lia. nia.
Qed.

(** The loop runs to its end and sends the windows of [items] in order. *)
Lemma sendPaginated_paginates (perPage : Z) (type : MessageType)
    (payload : list T → Z → Z → Payload) items :
  0 < perPage →
  paginates perPage type payload items (sendPaginated perPage type payload items).
Proof.
  intros Hc.
  pose proof (totalPages_bounds perPage (count_of items) Hc
                ltac:(unfold count_of; lia)) as (H1 & H0 & Hpos).
  cbv zeta in *.
  set (totalPages := Z.max 1 (Z.quot (count_of items + perPage - 1) perPage)) in *.
  set (gap := λ page : Z,
         if page <? totalPages - 1 then [Sleep delayBetweenPages] else []).
  assert (Hstart : ∀ page, page ∈ seqZ 0 (totalPages - 0) →
            page * perPage <= count_of items ∧ 0 <= page).
  { intros page [Hlo Hhi]%elem_of_seqZ.
    destruct (decide (count_of items = 0)) as [Hz|Hnz].
    - rewrite (H0 Hz) in Hhi. assert (page = 0) as -> by lia. lia.
    - assert (0 < count_of items) as Hp by (unfold count_of in *; lia).
      specialize (Hpos Hp). nia. }
  exists (concat ((λ page,
            SendMessage type (Some (payload (window perPage items page) (page + 1) totalPages))
              :: gap page) <$> seqZ 0 (totalPages - 0))),
         (window perPage items <$> seqZ 0 (totalPages - 0)).
  assert (Hcount : count_of (window perPage items <$> seqZ 0 (totalPages - 0)) = totalPages).
  { unfold count_of. rewrite length_fmap, length_seqZ. lia. }
  rewrite Hcount. split; [|split; [|split; [|split]]].
  - unfold sendPaginated, for_in. fold totalPages.
    erewrite mapM_total; [done|]. intros page Hpage. simpl.
    destruct (Hstart page Hpage) as [Hle Hp0].
    by rewrite slice_window.
  - rewrite sentMessages_pages by (intros page; unfold gap; by case_match).
    unfold seqZ. rewrite <- !list_fmap_compose.
    symmetry. etrans.
    { apply (imap_fmap_seq
        (λ i pageItems, (type, Some (payload pageItems (Z.of_nat i + 1) totalPages)))
        (λ i, window perPage items (Z.of_nat i + 0)) (Z.to_nat (totalPages - 0)) 0%nat). }
    apply list_fmap_ext. intros _ i _. simpl. do 3 f_equal. lia.
  - intros ->. rewrite H0 by done.
    change (seqZ 0 (1 - 0)) with [0]. cbn [fmap list_fmap].
    unfold window. by rewrite drop_nil, take_nil.
  - intros Hne. apply Hpos. destruct items; [done | unfold count_of; simpl; lia].
  - unfold seqZ. rewrite <- list_fmap_compose.
    rewrite <- (concat_windows (Z.to_nat perPage) (Z.to_nat (totalPages - 0)) items) at 2.
    + apply (f_equal (@concat T)), list_fmap_ext. intros _ i _. simpl.
      unfold window. do 2 f_equal. lia.
    + lia.
    + destruct (decide (count_of items = 0)) as [Hz|Hnz];
        unfold count_of in *; [lia|]. nia.
Qed.

End Pagination.

(** C1. For every item sequence, each of the four paginated senders (4
    playlists, 4 artists, 3 albums, 2 songs per page) runs to its end and
    sends exactly ceil(N / perPage) page envelopes, exactly one page with
    no items when N = 0; every page carries the same [totalPages], the
    pages are numbered from 1 upwards, and their item lists concatenated
    in that order are the original sequence. *)
Theorem paginated_responses_cover_items
    (playlists : list PlaylistInfo.t) (artists : list ArtistInfo.t)
    (albums : list AlbumInfo.t) (songs : list SongInfo.t)
    (context contextId : option string) :
  paginates 4 playlistsResponse
    (λ pageItems page totalPages,
       PPlaylistsResponse (PlaylistsResponsePayload.mk pageItems page totalPages))
    playlists (sendPaginatedPlaylists playlists)
  ∧ paginates 4 artistsResponse
      (λ pageItems page totalPages,
         PArtistsResponse (ArtistsResponsePayload.mk pageItems page totalPages))
      artists (sendPaginatedArtists artists)
  ∧ paginates 3 albumsResponse
      (λ pageItems page totalPages,
         PAlbumsResponse (AlbumsResponsePayload.mk pageItems page totalPages))
      albums (sendPaginatedAlbums albums)
  ∧ paginates 2 songsResponse
      (λ pageItems page totalPages,
         PSongsResponse
           (SongsResponsePayload.mk pageItems context contextId page totalPages))
      songs (sendPaginatedSongs songs context contextId).
Proof.
  repeat split; apply sendPaginated_paginates; done.
Qed.

(* ===================================================================== *)
(** * Scoped-songs queries *)
(* ===================================================================== *)

Section ScopedQueries.
Context `{JSONSerialization}.

Lemma handleScopedSongs_not_found k storage scopeId :
  scopeId ∉ scopeIds k storage →
  ∃ text, handleScopedSongs k storage scopeId
          = Some [SendMessage error (Some (PError (ErrorPayload.mk (notFoundCode k) text)))].
Proof.
  intros Hnot.
  destruct k; simpl in *; eexists;
    [ unfold handleQueryPlaylistSongs | unfold handleQueryArtistSongs
    | unfold handleQueryAlbumSongs ];
    (rewrite (proj2 (list_find_None _ _)); [reflexivity|]);
    apply Forall_forall; intros x Hx Heq; apply Hnot;
    rewrite <- Heq; by apply list_elem_of_fmap_2.
Qed.

Lemma handleQuery_scoped k player storage message scopeId :
  type message = scopeQuery k →
  requestedScopeId k message = Some scopeId →
  handleQuery player (Some storage) message = handleScopedSongs k storage scopeId.
Proof.
  intros Htype Hid. unfold handleQuery. rewrite Htype.
  destruct k; simpl in *;
    [ destruct (decode_as QueryPlaylistSongsPayload.decode message) as [payload|]
    | destruct (decode_as QueryArtistSongsPayload.decode message) as [payload|]
    | destruct (decode_as QueryAlbumSongsPayload.decode message) as [payload|] ];
    by simplify_eq/=.
Qed.

(** C8. A scoped-songs query (playlist, artist or album) for an id that
    the catalog does not have makes the dispatcher send exactly one
    envelope, an error whose code is the not-found code of that scope, and
    nothing else: no page, no other effect. *)
Theorem scoped_query_unknown_id_one_error
    (k : ScopeKind) (player : option PlayerFacade.t) (storage : LibraryStorage.t)
    (message : BluetoothMessage) (scopeId : string) :
  type message = scopeQuery k →
  requestedScopeId k message = Some scopeId →
  scopeId ∉ scopeIds k storage →
  ∃ text,
    handleQuery player (Some storage) message
    = Some [SendMessage error (Some (PError (ErrorPayload.mk (notFoundCode k) text)))].
Proof.
  intros Htype Hid Hnot.
  rewrite (handleQuery_scoped k player storage message scopeId Htype Hid).
  by apply handleScopedSongs_not_found.
Qed.

Lemma handleScopedSongs_found k storage scopeId :
  scopeId ∈ scopeIds k storage →
  ∃ items, handleScopedSongs k storage scopeId
           = sendPaginatedSongs items (Some (scopeName k)) (Some scopeId).
Proof.
  intros Hin.
  destruct k; cbn [scopeIds handleScopedSongs scopeName] in *;
    apply list_elem_of_fmap_1 in Hin as (x & -> & Hx);
    [ unfold handleQueryPlaylistSongs
    | unfold handleQueryArtistSongs
    | unfold handleQueryAlbumSongs ].
  - destruct (list_find_elem_of (λ p, Playlist.id p = Playlist.id x) _ x Hx eq_refl)
      as [[i y] ->]. simpl. by eexists.
  - destruct (list_find_elem_of (λ a, Artist.id a = Artist.id x) _ x Hx eq_refl)
      as [[i y] ->]. simpl. by eexists.
  - destruct (list_find_elem_of (λ a, Album.id a = Album.id x) _ x Hx eq_refl)
      as [[i y] ->]. simpl. by eexists.
Qed.

(** C9, as the code has it. Every page of a scoped-songs response carries
    the scope kind and the scope id, the pages after the first as well. *)
Theorem scoped_pages_all_carry_scope
    (k : ScopeKind) (player : option PlayerFacade.t) (storage : LibraryStorage.t)
    (message : BluetoothMessage) (scopeId : string) :
  type message = scopeQuery k →
  requestedScopeId k message = Some scopeId →
  scopeId ∈ scopeIds k storage →
  ∃ effects,
    handleQuery player (Some storage) message = Some effects
    ∧ sentMessages effects ≠ []
    ∧ Forall (songsPageWith (Some (scopeName k)) (Some scopeId)) (sentMessages effects).
Proof.
  intros Htype Hid Hin.
  rewrite (handleQuery_scoped k player storage message scopeId Htype Hid).
  destruct (handleScopedSongs_found k storage scopeId Hin) as [items ->].
  destruct (sendPaginated_paginates songsPerPage songsResponse
              (λ pageItems page totalPages,
                 PSongsResponse
                   (SongsResponsePayload.mk pageItems (Some (scopeName k)) (Some scopeId)
                      page totalPages))
              items eq_refl)
    as (effects & pages & Heff & Hsent & Hnil & Hpos & Hcat).
  exists effects. split; [done|]. rewrite Hsent. split.
  - destruct pages as [|pg pages]; [|done].
    destruct items as [|it items]; [by specialize (Hnil eq_refl)|].
    simpl in Hcat. done.
  - apply Forall_forall. intros m (i & pg & -> & _)%elem_of_lookup_imap.
    by eexists.
Qed.

End ScopedQueries.

(** The sample catalog has no playlist pl-9. *)
Lemma scoped_query_unknown_id_one_error_witness :
  ∃ text,
    handleQuery None (Some demoStorage) (playlistSongsQuery "pl-9")
    = Some [SendMessage error (Some (PError (ErrorPayload.mk "PLAYLIST_NOT_FOUND" text)))].
Proof.
  apply (scoped_query_unknown_id_one_error playlistScope None demoStorage
           (playlistSongsQuery "pl-9") "pl-9").
  - reflexivity.
  - vm_compute. reflexivity.
  - apply (bool_decide_unpack _). vm_compute. exact I.
Defined.

(** The songs of playlist pl-1 of the sample catalog. *)
Lemma scoped_pages_all_carry_scope_witness :
  ∃ effects,
    handleQuery None (Some demoStorage) (playlistSongsQuery "pl-1") = Some effects
    ∧ sentMessages effects ≠ []
    ∧ Forall (songsPageWith (Some "playlist") (Some "pl-1")) (sentMessages effects).
Proof.
  apply (scoped_pages_all_carry_scope playlistScope None demoStorage
           (playlistSongsQuery "pl-1") "pl-1").
  - reflexivity.
  - vm_compute. reflexivity.
  - apply (bool_decide_unpack _). vm_compute. exact I.
Defined.

(** C9, as stated, fails: the three songs of playlist pl-1 go out in two
    pages, and the second page carries the scope kind and id again. *)
Lemma second_page_repeats_scope :
  sentMessages <$> handleQuery None (Some demoStorage) (playlistSongsQuery "pl-1")
  = Some
      [ (songsResponse,
         Some (PSongsResponse (SongsResponsePayload.mk
           [ createSongInfo (demoSong "s1" "One" 1); createSongInfo (demoSong "s2" "Two" 2) ]
           (Some "playlist") (Some "pl-1") 1 2)));
        (songsResponse,
         Some (PSongsResponse (SongsResponsePayload.mk
           [ createSongInfo (demoSong "s3" "Three" 3) ]
           (Some "playlist") (Some "pl-1") 2 2))) ].
Proof. vm_compute. reflexivity. Qed.

(* ===================================================================== *)
(** * Listing playlists against looking one up *)
(* ===================================================================== *)

(** C10. The listing of playlists leaves system playlists out and the
    songs-of-playlist lookup takes them in: for a system playlist of the
    catalog whose id no listed playlist shares, the scoped query answers
    with song pages (and no error) although no page of the playlists
    response has an entry with that id. *)
Theorem system_playlist_served_but_not_listed
    (storage : LibraryStorage.t) (p : Playlist.t) :
  p ∈ LibraryStorage.playlists storage →
  Playlist.isSystemPlaylist p = true →
  (∀ q, q ∈ LibraryStorage.playlists storage →
        Playlist.isSystemPlaylist q = false → Playlist.id q ≠ Playlist.id p) →
  (∃ effects,
     handleQueryPlaylistSongs storage (Playlist.id p) = Some effects
     ∧ sentMessages effects ≠ []
     ∧ Forall (songsPageWith (Some "playlist") (Some (Playlist.id p)))
         (sentMessages effects))
  ∧ (∃ effects pages,
       handleQueryPlaylists storage = Some effects
       ∧ sentMessages effects =
           imap (λ i pageItems,
                   (playlistsResponse,
                    Some (PPlaylistsResponse
                            (PlaylistsResponsePayload.mk pageItems (Z.of_nat i + 1)
                               (count_of pages))))) pages
       ∧ ∀ page info, page ∈ pages → info ∈ page → PlaylistInfo.id info ≠ Playlist.id p).
Proof.
  intros Hp Hsys Hothers. split.
  - assert (Hin : Playlist.id p ∈ scopeIds playlistScope storage).
    { simpl. by apply list_elem_of_fmap_2. }
    destruct (handleScopedSongs_found playlistScope storage _ Hin) as [items Hfound].
    simpl in Hfound. rewrite Hfound.
    destruct (sendPaginated_paginates songsPerPage songsResponse
                (λ pageItems page totalPages,
                   PSongsResponse
                     (SongsResponsePayload.mk pageItems (Some "playlist")
                        (Some (Playlist.id p)) page totalPages))
                items eq_refl)
      as (effects & pages & Heff & Hsent & Hnil & Hpos & Hcat).
    exists effects. split; [done|]. rewrite Hsent. split.
    + destruct pages as [|pg pages]; [|done].
      destruct items as [|it items]; [by specialize (Hnil eq_refl)|done].
    + apply Forall_forall. intros m (i & pg & -> & _)%elem_of_lookup_imap.
      by eexists.
  - unfold handleQueryPlaylists, sendPaginatedPlaylists.
    match goal with
    | |- context [sendPaginated ?c ?t ?f ?items] =>
        destruct (sendPaginated_paginates c t f items eq_refl)
          as (effects & pages & Heff & Hsent & _ & _ & Hcat)
    end.
    exists effects, pages. split; [done|]. split; [done|].
    intros page info Hpage Hinfo Hid.
    assert (Hmem : info ∈ concat pages).
    { apply list_elem_of_In, in_concat. exists page. by rewrite <- !list_elem_of_In. }
    rewrite Hcat in Hmem.
    apply list_elem_of_In, in_map_iff in Hmem as (q & <- & Hq%list_elem_of_In).
    unfold LibraryStorage.getAllPlaylists in Hq.
    apply list_elem_of_filter in Hq as [Hns Hq].
    by apply (Hothers q Hq Hns).
Qed.

(** The system playlist sys-1 of the sample catalog. *)
Lemma system_playlist_served_but_not_listed_witness :
  (∃ effects,
     handleQueryPlaylistSongs demoStorage "sys-1" = Some effects
     ∧ sentMessages effects ≠ []
     ∧ Forall (songsPageWith (Some "playlist") (Some "sys-1")) (sentMessages effects))
  ∧ (∃ effects pages,
       handleQueryPlaylists demoStorage = Some effects
       ∧ sentMessages effects =
           imap (λ i pageItems,
                   (playlistsResponse,
                    Some (PPlaylistsResponse
                            (PlaylistsResponsePayload.mk pageItems (Z.of_nat i + 1)
                               (count_of pages))))) pages
       ∧ ∀ page info, page ∈ pages → info ∈ page → PlaylistInfo.id info ≠ "sys-1").
Proof.
  apply (system_playlist_served_but_not_listed demoStorage
           (Playlist.mk "sys-1" "Context queue"
              [AbstractPlayable.song (demoSong "s2" "Two" 2)] true)).
  - apply list_elem_of_lookup. by exists 1%nat.
  - reflexivity.
  - intros q Hq Hns.
    apply list_elem_of_lookup in Hq as [[|[|[|i]]] Hi]; simplify_eq/=; done.
Defined.

(* ===================================================================== *)
(** * The envelope codec *)
(* ===================================================================== *)

Lemma MessageType_init_rawValue (t : MessageType) : MessageType_init (rawValue t) = Some t.
Proof. destruct t; vm_compute; reflexivity. Qed.

Lemma MessageType_init_unknown (s : string) :
  (∀ t, rawValue t ≠ s) → MessageType_init s = None.
Proof.
  intros Hs. unfold MessageType_init.
  rewrite (proj2 (list_find_None _ _)); [done|].
  apply Forall_forall. intros t _. apply Hs.
Qed.


Section Codec.
Context `{JSONSerialization}.

Lemma decode_as_payloadObject {T} (decode : JSON → option T) (m : BluetoothMessage) :
  decode_as decode m = payloadObject m ≫= decode.
Proof.
  unfold decode_as, JSONDecoder_decode, payloadObject.
  by destruct (payloadData m).
Qed.

(** C4. Decoding the bytes that encoding an envelope produced gives an
    envelope with the same type, the same timestamp and the same payload
    (the same JSON document, hence the same result for every typed
    decoding of it). *)
Theorem from_toData_roundtrip (e : BluetoothMessage) (data : Data) :
  toData e = Some data →
  ∃ e', from data = Some (Some e')
        ∧ type e' = type e
        ∧ timestamp e' = timestamp e
        ∧ payloadObject e' = payloadObject e
        ∧ ∀ T (decode : JSON → option T), decode_as decode e' = decode_as decode e.
Proof.
  unfold toData. intros Hdata%jsonObject_dataWithJSONObject.
  unfold from. rewrite Hdata. cbn [mbind option_bind as_Dictionary].
  assert (Hsame : ∀ e', payloadObject e' = payloadObject e →
            ∀ T (decode : JSON → option T), decode_as decode e' = decode_as decode e).
  { intros e' He' T decode. by rewrite !decode_as_payloadObject, He'. }
  destruct (payloadData e ≫= jsonObject) as [v|] eqn:Hpayload.
  - map_lookup. cbn [mbind option_bind as_String as_Double].
    rewrite MessageType_init_rawValue. cbn [mbind option_bind].
    destruct (payloadData e) as [d|] eqn:Hd; [|done]. simpl in Hpayload.
    destruct (dataWithJSONObject_jsonObject d v Hpayload) as [d' Hd'].
    map_lookup. rewrite Hd'. eexists. split; [done|].
    assert (Hobj : payloadObject
              {| type := type e; timestamp := timestamp e; payloadData := Some d' |}
            = payloadObject e).
    { unfold payloadObject. rewrite Hd. simpl.
      rewrite Hpayload. by apply jsonObject_dataWithJSONObject. }
    split_and!; [done | done | done |]. by apply Hsame.
  - map_lookup. cbn [mbind option_bind as_String as_Double].
    rewrite MessageType_init_rawValue. cbn [mbind option_bind].
    map_lookup. eexists. split; [done|].
    assert (Hobj : payloadObject
              {| type := type e; timestamp := timestamp e; payloadData := None |}
            = payloadObject e).
    { unfold payloadObject. by rewrite Hpayload. }
    split_and!; [done | done | done |]. by apply Hsame.
Qed.

(** The payload document of a freshly built envelope is the encoding of
    the payload it was built from. *)
Lemma payloadObject_init (now : TimeInterval) (t : MessageType) (p : Payload) (d : Data) :
  JSONEncoder_encode p = Some d →
  payloadObject (BluetoothMessage_init now t (Some p)) = Payload_encode p.
Proof.
  unfold payloadObject, BluetoothMessage_init, JSONEncoder_encode. simpl.
  destruct (Payload_encode p) as [v|]; [|done]. simpl.
  intros Hd. rewrite Hd. simpl. by apply jsonObject_dataWithJSONObject.
Qed.

(** A frame whose [type] string is no raw value of [MessageType] does not
    decode. *)
Lemma from_unknown_type (data : Data) (dict : gmap string JSON) (typeString : string) :
  jsonObject data = Some (JObject dict) →
  dict !! "type" = Some (JString typeString) →
  (∀ t, rawValue t ≠ typeString) →
  from data = Some None.
Proof.
  intros Hdata Htype Hunknown. unfold from.
  rewrite Hdata. cbn [mbind option_bind as_Dictionary].
  rewrite Htype. cbn [mbind option_bind as_String].
  by rewrite MessageType_init_unknown.
Qed.

(** C3, as the code has it. An inbound frame whose type string is not in
    the vocabulary fails to decode, and the service answers it with exactly
    one error envelope, code INVALID_MESSAGE; no handler runs. *)
Theorem unknown_type_answered_with_INVALID_MESSAGE
    (player : option PlayerFacade.t) (storage : option LibraryStorage.t)
    (data : Data) (dict : gmap string JSON) (typeString : string) :
  jsonObject data = Some (JObject dict) →
  dict !! "type" = Some (JString typeString) →
  (∀ t, rawValue t ≠ typeString) →
  handleReceivedData player storage data
  = Some [SendMessage error
            (Some (PError (ErrorPayload.mk "INVALID_MESSAGE" "Could not decode message")))].
Proof.
  intros Hdata Htype Hunknown. unfold handleReceivedData.
  by rewrite (from_unknown_type data dict typeString).
Qed.

(** The frames that are dropped without an answer all decode, so their
    type is of the vocabulary. *)
Lemma silently_dropped_frame_decodes
    (player : option PlayerFacade.t) (storage : option LibraryStorage.t) (data : Data) :
  handleReceivedData player storage data = Some [] →
  ∃ message, from data = Some (Some message).
Proof.
  unfold handleReceivedData. destruct (from data) as [[message|]|]; [|done..].
  by exists message.
Qed.

(** They are of three kinds.  A type of the vocabulary that is no query
    and no command (an event, a response, an error) is dropped without an
    answer. *)
Lemma handleQuery_other_types_ignored
    (player : option PlayerFacade.t) (storage : LibraryStorage.t)
    (message : BluetoothMessage) :
  type message ∈ [songStarted; songStopped; playbackProgress; playlistsResponse;
                  artistsResponse; albumsResponse; songsResponse; error] →
  handleQuery player (Some storage) message = Some [].
Proof.
  intros Hin. unfold handleQuery.
  destruct (type message); try done;
    exfalso; revert Hin; apply (bool_decide_unpack _); vm_compute; exact I.
Qed.

(** So is a scoped query or a playSong command whose payload is missing or
    does not decode. *)
Lemma handleQuery_undecodable_payload_ignored
    (player : option PlayerFacade.t) (storage : LibraryStorage.t)
    (message : BluetoothMessage) :
  match type message with
  | queryPlaylistSongs => decode_as QueryPlaylistSongsPayload.decode message = None
  | queryArtistSongs => decode_as QueryArtistSongsPayload.decode message = None
  | queryAlbumSongs => decode_as QueryAlbumSongsPayload.decode message = None
  | playSong => decode_as PlaySongPayload.decode message = None
  | _ => False
  end →
  handleQuery player (Some storage) message = Some [].
Proof.
  unfold handleQuery. destruct (type message); try done; by intros ->.
Qed.

(** And so is a playPause, nextSong or prevSong command while no player is
    bound. *)
Lemma handleQuery_no_player_ignored (storage : LibraryStorage.t) (message : BluetoothMessage) :
  type message ∈ [playPause; nextSong; prevSong] →
  handleQuery None (Some storage) message = Some [].
Proof.
  intros Hin. unfold handleQuery.
  destruct (type message); try done;
    exfalso; revert Hin; apply (bool_decide_unpack _); vm_compute; exact I.
Qed.

End Codec.

(** The sample error envelope and its frame. *)
Lemma from_toData_roundtrip_witness :
  ∃ e', from demoFrame = Some (Some e')
        ∧ type e' = type demoEnvelope
        ∧ timestamp e' = timestamp demoEnvelope
        ∧ payloadObject e' = payloadObject demoEnvelope
        ∧ ∀ T (decode : JSON → option T),
            decode_as decode e' = decode_as decode demoEnvelope.
Proof.
  apply (from_toData_roundtrip demoEnvelope demoFrame).
  vm_compute. reflexivity.
Defined.

Lemma rawValue_not_QUERY_GENRES (t : MessageType) : rawValue t ≠ "QUERY_GENRES".
Proof. destruct t; discriminate. Defined.

(** The frame of type QUERY_GENRES. *)
Lemma unknown_type_answered_with_INVALID_MESSAGE_witness :
  handleReceivedData (H := TreeJSON) None (Some demoStorage) genresQuery
  = Some [SendMessage error
            (Some (PError (ErrorPayload.mk "INVALID_MESSAGE" "Could not decode message")))].
Proof.
  apply (unknown_type_answered_with_INVALID_MESSAGE None (Some demoStorage) genresQuery
           {[ "type" := JString "QUERY_GENRES"; "timestamp" := JDouble 1737302400.5%float ]}
           "QUERY_GENRES").
  - reflexivity.
  - vm_compute. reflexivity.
  - exact rawValue_not_QUERY_GENRES.
Defined.

(** C3, as stated, fails: the frame of type QUERY_GENRES is not ignored,
    an error envelope goes out in response. *)
Lemma unknown_type_is_not_silently_ignored :
  sentMessages <$> handleReceivedData (H := TreeJSON) None (Some demoStorage) genresQuery
  = Some [(error,
           Some (PError (ErrorPayload.mk "INVALID_MESSAGE" "Could not decode message")))]
  ∧ sentMessages <$> handleReceivedData (H := TreeJSON) None (Some demoStorage) genresQuery
    ≠ Some [].
Proof. split; [vm_compute; reflexivity | vm_compute; discriminate]. Qed.

(* ===================================================================== *)
(** * The size gate in front of the transport *)
(* ===================================================================== *)

Section Transport.
Context `{JSONSerialization}.

Lemma perform_one (send : BluetoothMessage → Link → option Link)
    (type : MessageType) (payload : option Payload) (l : Link) :
  perform send [SendMessage type payload] l
  = send (BluetoothMessage_init (clock l (clockReads l)) type payload) (snd (Date l)).
Proof. simpl. by destruct (send _ _). Qed.

Lemma sendMessage_not_ready fuel message l :
  txCharacteristic l = false → sendMessage (S fuel) message l = Some l.
Proof. intros Htx. simpl. by rewrite Htx. Qed.

Lemma sendMessage_fits fuel message l data :
  txCharacteristic l = true →
  toData message = Some data →
  count data <= maxMessageSize →
  sendMessage (S fuel) message l = Some (writeValue data l).
Proof.
  intros Htx Hdata Hfits. simpl. rewrite Htx, Hdata.
  by rewrite (proj2 (Z.ltb_ge _ _)).
Qed.

Lemma sendMessage_too_large fuel message l data :
  txCharacteristic l = true →
  toData message = Some data →
  maxMessageSize < count data →
  sendMessage (S fuel) message l
  = perform (sendMessage fuel) (sendError "MESSAGE_TOO_LARGE" "Message exceeds max size") l.
Proof.
  intros Htx Hdata Hlarge. simpl. rewrite Htx, Hdata.
  by rewrite (proj2 (Z.ltb_lt _ _)).
Qed.

(** Whatever [sendMessage] writes is the whole encoding of some envelope
    and is within the cap: nothing oversized and nothing cut short reaches
    the transport, whatever the state of the link. *)
Lemma sendMessage_writes_whole_frames_within_cap fuel : ∀ message l l',
  sendMessage fuel message l = Some l' →
  ∃ new, written l' = written l ++ new
         ∧ Forall (λ d, count d <= maxMessageSize ∧ ∃ m, toData m = Some d) new.
Proof.
  induction fuel as [|fuel IH]; intros message l l' Hsend; [done|].
  destruct (txCharacteristic l) eqn:Htx;
    [|rewrite sendMessage_not_ready in Hsend by done; simplify_eq;
      exists []; by rewrite app_nil_r].
  destruct (toData message) as [data|] eqn:Hdata;
    [|simpl in Hsend; rewrite Htx, Hdata in Hsend; simplify_eq;
      exists []; by rewrite app_nil_r].
  destruct (Z.le_gt_cases (count data) maxMessageSize) as [Hfits|Hlarge].
  - rewrite (sendMessage_fits _ _ _ data) in Hsend by done. simplify_eq.
    exists [data]. split; [done|]. apply Forall_singleton. eauto.
  - rewrite (sendMessage_too_large _ _ _ data) in Hsend by done.
    unfold sendError in Hsend. rewrite perform_one in Hsend.
    apply IH in Hsend as (new & Hnew & Hall). by exists new.
Qed.

(** C7. On a link that is ready, an envelope whose encoding is over the
    512-byte cap is stopped before the write: the transport receives the
    encoding of an error envelope with code MESSAGE_TOO_LARGE in its
    place, whole and within the cap, and not the oversized frame or any
    part of it. *)
Theorem oversized_message_replaced_by_MESSAGE_TOO_LARGE
    (fuel : nat) (l : Link) (message : BluetoothMessage) (data errorData : Data) :
  txCharacteristic l = true →
  toData message = Some data →
  maxMessageSize < count data →
  toData (BluetoothMessage_init (clock l (clockReads l)) error (Some tooLargePayload))
    = Some errorData →
  count errorData <= maxMessageSize →
  ∃ l', sendMessage (S (S fuel)) message l = Some l'
        ∧ written l' = written l ++ [errorData]
        ∧ errorData ≠ data.
Proof.
  intros Htx Hdata Hlarge Herr Hfits.
  rewrite (sendMessage_too_large _ _ _ data) by done.
  unfold sendError. rewrite perform_one.
  rewrite (sendMessage_fits _ _ _ errorData) by done.
  eexists. split; [done|]. split; [done|].
  intros ->. lia.
Qed.

(** On a ready link, when every envelope of a handler encodes within the
    cap, the transport receives the encodings, each whole, in the order
    the handler sent them. *)
Lemma transmit_ready_within_cap fuel : ∀ effects (l : Link) ds,
  txCharacteristic l = true →
  encodings (clock l) (clockReads l) effects = Some ds →
  Forall (λ d, count d <= maxMessageSize) ds →
  ∃ l', transmit (S fuel) effects l = Some l' ∧ written l' = written l ++ ds.
Proof.
  unfold transmit. induction effects as [|e effects IH]; intros l ds Htx Henc Hcap.
  - simpl in Henc. simplify_eq. exists l. by rewrite app_nil_r.
  - destruct e; cbn [perform encodings] in *; try by apply IH.
    destruct (toData _) as [d|] eqn:Hd; [|done]. cbn [mbind option_bind] in Henc.
    destruct (encodings _ _ effects) as [ds'|] eqn:Hds; [|done].
    cbn [mbind option_bind] in Henc. simplify_eq.
    apply Forall_cons in Hcap as [Hd_cap Hcap].
    unfold Date. rewrite (sendMessage_fits _ _ _ d) by done.
    cbn [mbind option_bind].
    edestruct (IH (writeValue d
                 {| txCharacteristic := txCharacteristic l; written := written l;
                    clock := clock l; clockReads := S (clockReads l) |}) ds')
      as (l' & Hrun & Hwritten); [done | done | done |].
    exists l'. split; [done|]. rewrite Hwritten. simpl. by rewrite <- app_assoc.
Qed.

End Transport.

(** The page of two songs with 300-character ids, on a ready link. *)
Lemma oversized_message_replaced_by_MESSAGE_TOO_LARGE_witness :
  ∃ l', sendMessage 2 oversizedPage readyLink = Some l'
        ∧ written l' = written readyLink ++ [tooLargeFrame]
        ∧ tooLargeFrame ≠ oversizedFrame.
Proof.
  apply (oversized_message_replaced_by_MESSAGE_TOO_LARGE 0 readyLink oversizedPage
           oversizedFrame tooLargeFrame).
  - reflexivity.
  - vm_compute. reflexivity.
  - vm_compute. reflexivity.
  - vm_compute. reflexivity.
  - vm_compute. discriminate.
Defined.

(* ===================================================================== *)
(** * The playSong command *)
(* ===================================================================== *)

Lemma scopeKind_of_None (context : string) :
  context ≠ "playlist" → context ≠ "album" → context ≠ "artist" →
  scopeKind_of context = None.
Proof.
  intros H1 H2 H3. unfold scopeKind_of.
  rewrite (proj2 (list_find_None _ _)); [done|].
  repeat constructor; simpl; congruence.
Qed.

(** The queue [handlePlaySong] has when it reaches its guard is
    [playCandidates]. *)
Lemma handlePlaySong_queue (player : PlayerFacade.t) (storage : LibraryStorage.t)
    (payload : PlaySongPayload.t) :
  let playables := playCandidates storage payload in
  if isEmpty playables then
    handlePlaySong (Some player) storage payload
    = sendError "SONG_NOT_FOUND" "Could not find song or context"
  else
    ∃ contextName,
      handlePlaySong (Some player) storage payload
      = [Play (PlayContext.mk contextName
           match fst <$> list_find
                   (λ p, AbstractPlayable.id p = PlaySongPayload.songId payload)
                   playables with
           | Some index => Z.of_nat index
           | None =>
               match PlaySongPayload.songIndex payload with
               | Some songIndex => Z.min songIndex (count_of playables - 1)
               | None => 0
               end
           end
           playables)].
Proof.
  cbv zeta. unfold handlePlaySong, playCandidates.
  match goal with
  | |- context [match ?q with pair _ _ => _ end] =>
      match q with
      | context [PlaySongPayload.context] => set (queue := q)
      end
  end.
  assert (Hqueue : queue.1 = scopeCandidates storage payload).
  { subst queue. unfold scopeCandidates.
    destruct (PlaySongPayload.context payload) as [context|]; [|done].
    destruct (PlaySongPayload.contextId payload) as [contextId|]; [|done].
    cbn [mbind option_bind].
    repeat case_decide; subst; cbn [mbind option_bind].
    - change (scopeKind_of "playlist") with (Some playlistScope).
      cbn [mbind option_bind songsIn]. by destruct (list_find _ _) as [[??]|].
    - change (scopeKind_of "album") with (Some albumScope).
      cbn [mbind option_bind songsIn]. by destruct (list_find _ _) as [[??]|].
    - change (scopeKind_of "artist") with (Some artistScope).
      cbn [mbind option_bind songsIn]. by destruct (list_find _ _) as [[??]|].
    - by rewrite scopeKind_of_None. }
  destruct queue as [playables contextName]. simpl in Hqueue. subst playables.
  destruct (isEmpty (scopeCandidates storage payload)) eqn:Hscoped.
  - unfold catalogCandidates.
    destruct (list_find _ (LibraryStorage.getAllSongs storage)) as [[i song]|];
      cbn [fmap option_fmap option_map snd isEmpty].
    + by eexists.
    + by rewrite Hscoped.
  - rewrite Hscoped. by eexists.
Qed.

Lemma handlePlaySong_no_player (storage : LibraryStorage.t) (payload : PlaySongPayload.t) :
  handlePlaySong None storage payload = sendError "NO_PLAYER" "Player not available".
Proof. reflexivity. Qed.

Lemma isEmpty_true {A} (l : list A) : isEmpty l = true ↔ l = [].
Proof. by destruct l. Qed.

(** C2, as the code has it. With a player at hand, the candidate list of a
    playSong command is the playables of its scope when the scope (kind and
    id) is there and gives any, and otherwise the one song of the full
    catalog that has the id, alone.  With no candidate the handler sends an
    error envelope with code SONG_NOT_FOUND and makes no call on the
    player.  Otherwise it makes one call, [play], with the candidate list
    and a start index: the position of the first candidate with the id;
    or, when no candidate has the id, the index the caller gave, capped at
    the last position (and so within the list for an index that is not
    negative), or 0 when the caller gave none. *)
Theorem playSong_candidates_and_start_index
    (player : PlayerFacade.t) (storage : LibraryStorage.t) (payload : PlaySongPayload.t) :
  let candidates := playCandidates storage payload in
  let songId := PlaySongPayload.songId payload in
  let effects := handlePlaySong (Some player) storage payload in
  (candidates = [] →
     effects = sendError "SONG_NOT_FOUND" "Could not find song or context"
     ∧ playerCalls effects = [])
  ∧ (candidates ≠ [] →
       ∃ contextName index,
         effects = [Play (PlayContext.mk contextName index candidates)]
         ∧ (∀ (i : nat) p,
              candidates !! i = Some p → AbstractPlayable.id p = songId →
              (∀ (j : nat) q, candidates !! j = Some q → (j < i)%nat →
                              AbstractPlayable.id q ≠ songId) →
              index = Z.of_nat i)
         ∧ ((∀ p, p ∈ candidates → AbstractPlayable.id p ≠ songId) →
              match PlaySongPayload.songIndex payload with
              | Some songIndex =>
                  0 <= songIndex →
                  index = Z.min songIndex (count_of candidates - 1)
                  ∧ 0 <= index < count_of candidates
              | None => index = 0
              end)).
Proof.
  cbv zeta. pose proof (handlePlaySong_queue player storage payload) as Hq.
  cbv zeta in Hq. split.
  - intros Hnil. rewrite Hnil in Hq. cbn [isEmpty] in Hq. by rewrite Hq.
  - intros Hne.
    destruct (isEmpty (playCandidates storage payload)) eqn:Hempty;
      [by apply isEmpty_true in Hempty|].
    destruct Hq as [contextName Hq]. eexists contextName, _. split; [exact Hq|].
    split.
    + intros i p Hi Hp Hfirst.
      assert (Hfind : list_find
                (λ p, AbstractPlayable.id p = PlaySongPayload.songId payload)
                (playCandidates storage payload) = Some (i, p)).
      { apply list_find_Some. split_and!; [done | done |]. intros j q Hj Hlt.
        by apply Hfirst with j. }
      by rewrite Hfind.
    + intros Hnone.
      rewrite (proj2 (list_find_None _ _)) by (apply Forall_forall; exact Hnone).
      cbn [fmap option_fmap option_map].
      destruct (PlaySongPayload.songIndex payload) as [songIndex|]; [|done].
      intros Hpos. split; [done|].
      assert (0 < count_of (playCandidates storage payload)).
      { unfold count_of. destruct (playCandidates storage payload); [done | simpl; lia]. }
      lia.
Qed.

(** The example of the specification: song s3 is the third song of album
    al-1, so [play] gets the whole album and start index 2. *)
Example playSong_third_song_of_album (player : PlayerFacade.t) :
  handlePlaySong (Some player) demoStorage
    (PlaySongPayload.mk "s3" (Some "album") (Some "al-1") None)
  = [Play (PlayContext.mk "Some Album" 2
       [ AbstractPlayable.song (demoSong "s1" "One" 1);
         AbstractPlayable.song (demoSong "s2" "Two" 2);
         AbstractPlayable.song (demoSong "s3" "Three" 3) ])].
Proof. vm_compute. reflexivity. Qed.

(** C2, as stated, fails twice.  A command without a scope for song s2
    does not play from the full catalog (three songs, s2 second): it plays
    the list holding s2 alone, from index 0.  And a caller-supplied index
    is capped above only: for an id the album does not have and index -5,
    [play] gets start index -5, outside the list. *)
Lemma playSong_not_full_catalog_not_clamped_below :
  handlePlaySong (Some idlePlayer) demoStorage (PlaySongPayload.mk "s2" None None None)
  = [Play (PlayContext.mk "Two" 0 [AbstractPlayable.song (demoSong "s2" "Two" 2)])]
  ∧ map AbstractPlayable.song (LibraryStorage.getAllSongs demoStorage)
    = [ AbstractPlayable.song (demoSong "s1" "One" 1);
        AbstractPlayable.song (demoSong "s2" "Two" 2);
        AbstractPlayable.song (demoSong "s3" "Three" 3) ]
  ∧ handlePlaySong (Some idlePlayer) demoStorage
      (PlaySongPayload.mk "s9" (Some "album") (Some "al-1") (Some (-5)))
    = [Play (PlayContext.mk "Some Album" (-5)
         [ AbstractPlayable.song (demoSong "s1" "One" 1);
           AbstractPlayable.song (demoSong "s2" "Two" 2);
           AbstractPlayable.song (demoSong "s3" "Three" 3) ])].
Proof. split_and!; vm_compute; reflexivity. Qed.

(* ===================================================================== *)
(** * The telemetry publisher *)
(* ===================================================================== *)

Section Telemetry.
Implicit Types (song : AbstractPlayable.t) (fs : list Firing) (p : Publisher).

Lemma run_app fs1 fs2 p :
  run (fs1 ++ fs2) p
  = let '(p1, sent1) := run fs1 p in
    let '(p2, sent2) := run fs2 p1 in
    (p2, sent1 ++ sent2).
Proof.
  revert p. induction fs1 as [|f fs1 IH]; intros p; simpl.
  - by destruct (run fs2 p).
  - destruct (deliver f p) as [p' sent]. rewrite IH.
    destruct (run fs1 p') as [p1 sent1], (run fs2 p1) as [p2 sent2].
    by rewrite app_assoc.
Qed.

(** Before anything played, polls that see no song and progress firings
    send nothing. *)
Lemma run_idle fs :
  Forall (observes None false) fs → run fs freshPublisher = (freshPublisher, []).
Proof.
  induction 1 as [|f fs Hf _ IH]; [done|]. cbn [run].
  assert (deliver f freshPublisher = (freshPublisher, [])) as ->.
  { destruct f as [player|player]; [|done].
    destruct Hf as [Hsong Hplaying]. unfold deliver, checkPlayerState.
    rewrite Hsong, Hplaying. simpl. by repeat case_decide. }
  by rewrite IH.
Qed.

(** While a song is seen paused, nothing is sent: polls see no change and
    the progress timer is not scheduled. *)
Lemma run_paused song fs :
  Forall (observes (Some song) false) fs →
  run fs (publisherAt song false) = (publisherAt song false, []).
Proof.
  induction 1 as [|f fs Hf _ IH]; [done|]. cbn [run].
  assert (deliver f (publisherAt song false) = (publisherAt song false, [])) as ->.
  { destruct f as [player|player]; [|done].
    destruct Hf as [Hsong Hplaying]. unfold deliver, checkPlayerState.
    rewrite Hsong, Hplaying. simpl. by repeat case_decide. }
  by rewrite IH.
Qed.

(** While a song is seen playing, only progress frames are sent. *)
Lemma run_playing song fs :
  Forall (observes (Some song) true) fs →
  ∃ sent, run fs (publisherAt song true) = (publisherAt song true, sent)
          ∧ Forall isProgress sent.
Proof.
  induction 1 as [|f fs Hf _ (sent & IH & Hsent)]; [by exists []|]. cbn [run].
  assert (∃ sent0, deliver f (publisherAt song true) = (publisherAt song true, sent0)
                   ∧ Forall isProgress sent0) as (sent0 & -> & Hsent0).
  { destruct f as [player|player].
    - destruct Hf as [Hsong Hplaying]. exists []. split; [|done].
      unfold deliver, checkPlayerState.
      rewrite Hsong, Hplaying. simpl. by repeat case_decide.
    - unfold deliver, progressTimerFired, sendPlaybackProgress. simpl.
      destruct (PlayerFacade.currentlyPlaying player); eexists; (split; [done|]);
        repeat constructor. by eexists. }
  rewrite IH. exists (sent0 ++ sent). split; [done|]. by apply Forall_app.
Qed.

(** The four polls that see a change. *)
Lemma poll_sees_start song player :
  PlayerFacade.currentlyPlaying player = Some song →
  PlayerFacade.isPlaying player = true →
  deliver (Poll player) freshPublisher
  = (publisherAt song true, [songStartedFrame song (playlistName_of player)]).
Proof.
  intros Hsong Hplaying. unfold deliver, checkPlayerState.
  rewrite Hsong, Hplaying. simpl. by repeat case_decide.
Qed.

Lemma poll_sees_pause song player :
  PlayerFacade.currentlyPlaying player = Some song →
  PlayerFacade.isPlaying player = false →
  deliver (Poll player) (publisherAt song true)
  = (publisherAt song false, [songStoppedFrame song]).
Proof.
  intros Hsong Hplaying. unfold deliver, checkPlayerState.
  rewrite Hsong, Hplaying. simpl. by repeat case_decide.
Qed.

Lemma poll_sees_resume song player :
  PlayerFacade.currentlyPlaying player = Some song →
  PlayerFacade.isPlaying player = true →
  deliver (Poll player) (publisherAt song false)
  = (publisherAt song true, [songStartedFrame song (playlistName_of player)]).
Proof.
  intros Hsong Hplaying. unfold deliver, checkPlayerState.
  rewrite Hsong, Hplaying. simpl. by repeat case_decide.
Qed.

Lemma poll_sees_change song next player :
  AbstractPlayable.id song ≠ AbstractPlayable.id next →
  PlayerFacade.currentlyPlaying player = Some next →
  PlayerFacade.isPlaying player = true →
  deliver (Poll player) (publisherAt song true)
  = (publisherAt next true,
     [songStoppedFrame song; songStartedFrame next (playlistName_of player)]).
Proof.
  intros Hne Hsong Hplaying. unfold deliver, checkPlayerState.
  rewrite Hsong, Hplaying. simpl. repeat case_decide; by simplify_eq.
Qed.

(** The four intervals, each from the state the one before leaves. *)
Lemma run_interval_started song fs :
  interval song true fs →
  ∃ playlistName progress,
    run fs freshPublisher
    = (publisherAt song true, songStartedFrame song playlistName :: progress)
    ∧ Forall isProgress progress.
Proof.
  intros [(player & rest & ->) Hall]. apply Forall_cons in Hall as [[Hsong Hplaying] Hrest].
  cbn [run]. rewrite (poll_sees_start song) by done.
  destruct (run_playing song rest Hrest) as (progress & -> & Hprogress).
  by eexists _, progress.
Qed.

Lemma run_interval_paused song fs :
  interval song false fs →
  run fs (publisherAt song true) = (publisherAt song false, [songStoppedFrame song]).
Proof.
  intros [(player & rest & ->) Hall]. apply Forall_cons in Hall as [[Hsong Hplaying] Hrest].
  cbn [run]. rewrite (poll_sees_pause song) by done.
  by rewrite (run_paused song rest Hrest).
Qed.

Lemma run_interval_resumed song fs :
  interval song true fs →
  ∃ playlistName progress,
    run fs (publisherAt song false)
    = (publisherAt song true, songStartedFrame song playlistName :: progress)
    ∧ Forall isProgress progress.
Proof.
  intros [(player & rest & ->) Hall]. apply Forall_cons in Hall as [[Hsong Hplaying] Hrest].
  cbn [run]. rewrite (poll_sees_resume song) by done.
  destruct (run_playing song rest Hrest) as (progress & -> & Hprogress).
  by eexists _, progress.
Qed.

Lemma run_interval_changed song next fs :
  AbstractPlayable.id song ≠ AbstractPlayable.id next →
  interval next true fs →
  ∃ playlistName progress,
    run fs (publisherAt song true)
    = (publisherAt next true,
       songStoppedFrame song :: songStartedFrame next playlistName :: progress)
    ∧ Forall isProgress progress.
Proof.
  intros Hne [(player & rest & ->) Hall].
  apply Forall_cons in Hall as [[Hsong Hplaying] Hrest].
  cbn [run]. rewrite (poll_sees_change song next) by done.
  destruct (run_playing next rest Hrest) as (progress & -> & Hprogress).
  by eexists _, progress.
Qed.

(** C5. For the observed sequence start A, pause, resume, start B (each
    an interval opened by the poll that sees it, with any number of later
    polls and progress-timer firings in it), the publisher sends
    songStarted(A), songStopped(A), songStarted(A), songStopped(A),
    songStarted(B) in that order; the only other frames are
    playbackProgress frames, and those follow a songStarted: the firings
    of the paused interval send songStopped(A) and nothing else. *)
Theorem telemetry_of_start_pause_resume_change
    (A B : AbstractPlayable.t) (idle started paused resumed changed : list Firing) :
  AbstractPlayable.id A ≠ AbstractPlayable.id B →
  Forall (observes None false) idle →
  interval A true started →
  interval A false paused →
  interval A true resumed →
  interval B true changed →
  ∃ name1 name3 name5 progress1 progress3 progress5,
    (run (idle ++ started ++ paused ++ resumed ++ changed) freshPublisher).2
    = songStartedFrame A name1 :: progress1
      ++ songStoppedFrame A
      :: songStartedFrame A name3 :: progress3
      ++ songStoppedFrame A
      :: songStartedFrame B name5 :: progress5
    ∧ Forall isProgress progress1
    ∧ Forall isProgress progress3
    ∧ Forall isProgress progress5
    ∧ run (idle ++ started) freshPublisher
      = (publisherAt A true, songStartedFrame A name1 :: progress1)
    ∧ run paused (publisherAt A true) = (publisherAt A false, [songStoppedFrame A]).
Proof.
  intros Hne Hidle Hstarted Hpaused Hresumed Hchanged.
  destruct (run_interval_started A started Hstarted) as (name1 & progress1 & H1 & Hp1).
  pose proof (run_interval_paused A paused Hpaused) as H2.
  destruct (run_interval_resumed A resumed Hresumed) as (name3 & progress3 & H3 & Hp3).
  destruct (run_interval_changed A B changed Hne Hchanged)
    as (name5 & progress5 & H5 & Hp5).
  exists name1, name3, name5, progress1, progress3, progress5.
  rewrite (run_app idle started), (run_idle idle Hidle), H1. cbv beta iota.
  rewrite (run_app idle), (run_idle idle Hidle). cbv beta iota.
  rewrite run_app, H1. cbv beta iota.
  rewrite run_app, H2. cbv beta iota.
  rewrite run_app, H3, H5. cbv beta iota. cbn [snd].
  split_and!; done.
Qed.

End Telemetry.

Lemma fourFirings_interval (song : AbstractPlayable.t) (playing : bool) :
  interval song playing (fourFirings song playing).
Proof. split; [by eexists _, _ | by repeat constructor]. Defined.

(** Songs s1 and s2 through the four intervals. *)
Lemma telemetry_of_start_pause_resume_change_witness :
  ∃ name1 name3 name5 progress1 progress3 progress5,
    (run ([Progress idlePlayer; Poll idlePlayer]
          ++ fourFirings songA true ++ fourFirings songA false
          ++ fourFirings songA true ++ fourFirings songB true) freshPublisher).2
    = songStartedFrame songA name1 :: progress1
      ++ songStoppedFrame songA
      :: songStartedFrame songA name3 :: progress3
      ++ songStoppedFrame songA
      :: songStartedFrame songB name5 :: progress5
    ∧ Forall isProgress progress1
    ∧ Forall isProgress progress3
    ∧ Forall isProgress progress5
    ∧ run ([Progress idlePlayer; Poll idlePlayer] ++ fourFirings songA true) freshPublisher
      = (publisherAt songA true, songStartedFrame songA name1 :: progress1)
    ∧ run (fourFirings songA false) (publisherAt songA true)
      = (publisherAt songA false, [songStoppedFrame songA]).
Proof.
  apply (telemetry_of_start_pause_resume_change songA songB
           [Progress idlePlayer; Poll idlePlayer]
           (fourFirings songA true) (fourFirings songA false)
           (fourFirings songA true) (fourFirings songB true)).
  - discriminate.
  - by repeat constructor.
  - apply fourFirings_interval.
  - apply fourFirings_interval.
  - apply fourFirings_interval.
  - apply fourFirings_interval.
Defined.

(* ===================================================================== *)
(** * Reconnection *)
(* ===================================================================== *)

Import Manager.

Section Reconnection.
Implicit Types (st : Manager.State) (device : BluetoothDevice).

Lemma didDisconnectPeripheral_defaults peripheral hadError st :
  defaults (didDisconnectPeripheral peripheral hadError st).1 = defaults st.
Proof.
  unfold didDisconnectPeripheral.
  destruct (findDevice _ st) as [[i device]|]; [|done].
  unfold shouldAutoReconnect. simpl. by destruct (_ && _).
Qed.

Lemma didDisconnectPeripheral_no_autoReconnect peripheral hadError st :
  shouldAutoReconnect st = false →
  (didDisconnectPeripheral peripheral hadError st).2 = [].
Proof.
  intros Hoff. unfold didDisconnectPeripheral.
  destruct (findDevice _ st) as [[i device]|]; [|done].
  unfold shouldAutoReconnect in *. simpl. rewrite Hoff.
  by rewrite andb_false_r.
Qed.

Lemma afterDisconnects_no_autoReconnect losses : ∀ st,
  shouldAutoReconnect st = false → (afterDisconnects losses st).2 = [].
Proof.
  induction losses as [|[peripheral hadError] losses IH]; intros st Hoff; [done|].
  cbn [afterDisconnects].
  pose proof (didDisconnectPeripheral_no_autoReconnect peripheral hadError st Hoff) as Hnone.
  pose proof (didDisconnectPeripheral_defaults peripheral hadError st) as Hsame.
  destruct (didDisconnectPeripheral peripheral hadError st) as [st1 spawned].
  simpl in Hnone, Hsame. subst spawned.
  specialize (IH st1). unfold shouldAutoReconnect in *. rewrite Hsame in IH.
  specialize (IH Hoff). destruct (afterDisconnects losses st1) as [st2 later].
  by simpl in *.
Qed.

(** C6, as the code has it. (1) When the link to a peer in the list of
    discovered devices is lost with an error while autoReconnect is set
    and that peer is the persisted one, the manager spawns exactly one
    task, for that peer, with a delay of 2 seconds; the persisted identity
    stays; once the delay is over the task makes exactly one connection
    attempt, to that peer, if Bluetooth is powered on by then, and none if
    it is not.  (2) A disconnect asked for by the user clears the persisted
    identity and autoReconnect and then cancels the connection; whatever
    disconnect notifications follow, with or without an error, no
    reconnection is spawned. *)
Theorem reconnect_once_after_link_loss_never_after_user_disconnect
    (st : Manager.State) (peripheral : CBPeripheral) (i : nat) (device : BluetoothDevice)
    (st_user : Manager.State) (connected : BluetoothDevice) :
  shouldAutoReconnect st = true →
  findDevice (identifier peripheral) st = Some (i, device) →
  getLastConnectedDeviceUUID st = Some (identifier peripheral) →
  connectedDevice st_user = Some connected →
  (let '(st', spawned) := didDisconnectPeripheral peripheral true st in
   spawned = [reconnectAfter 2 (Manager.peripheral device)]
   ∧ identifier (Manager.peripheral device) = identifier peripheral
   ∧ getLastConnectedDeviceUUID st' = Some (identifier (Manager.peripheral device))
   ∧ ∀ later : Manager.State,
       reconnectTask (Manager.peripheral device) later
       = if poweredOn later then [connect (Manager.peripheral device)] else [])
  ∧ (let '(st', commands) := disconnect st_user in
     commands = [cancelPeripheralConnection (Manager.peripheral connected)]
     ∧ shouldAutoReconnect st' = false
     ∧ getLastConnectedDeviceUUID st' = None
     ∧ ∀ losses, (afterDisconnects losses st').2 = []).
Proof.
  intros Hauto Hfind Hsaved Hconnected. split.
  - pose proof (didDisconnectPeripheral_defaults peripheral true st) as Hsame.
    unfold didDisconnectPeripheral in *. rewrite Hfind in *.
    assert (Hflag : shouldAutoReconnect
              {| poweredOn := poweredOn st; isScanning := isScanning st;
                 isBluetoothEnabled := isBluetoothEnabled st;
                 discoveredDevices :=
                   <[i := set_isConnected false device]> (discoveredDevices st);
                 connectedDevice :=
                   if decide (id <$> connectedDevice st
                              = Some (id (set_isConnected false device)))
                   then None else connectedDevice st;
                 errorMessage := errorMessage st;
                 hasAttemptedAutoReconnect := hasAttemptedAutoReconnect st;
                 defaults := defaults st;
                 communicationService :=
                   Service.didDisconnectFromPeripheral (communicationService st) |}
              = true) by done.
    rewrite Hflag in *. cbn [andb] in *.
    assert (Hid : identifier (Manager.peripheral device) = identifier peripheral).
    { by apply list_find_Some in Hfind as (_ & ? & _). }
    split_and!; [done | done | | done].
    unfold getLastConnectedDeviceUUID in *. simpl. by rewrite Hid.
  - unfold disconnect. rewrite Hconnected. split_and!; [done | done | done |].
    intros losses. by apply afterDisconnects_no_autoReconnect.
Qed.

End Reconnection.

(** The manager connected to the sample peer. *)
Lemma reconnect_once_after_link_loss_never_after_user_disconnect_witness :
  (let '(st', spawned) := didDisconnectPeripheral esp32 true connectedManager in
   spawned = [reconnectAfter 2 esp32]
   ∧ identifier esp32 = identifier esp32
   ∧ getLastConnectedDeviceUUID st' = Some (identifier esp32)
   ∧ ∀ later : Manager.State,
       reconnectTask esp32 later = if poweredOn later then [connect esp32] else [])
  ∧ (let '(st', commands) := disconnect connectedManager in
     commands = [cancelPeripheralConnection esp32]
     ∧ shouldAutoReconnect st' = false
     ∧ getLastConnectedDeviceUUID st' = None
     ∧ ∀ losses, (afterDisconnects losses st').2 = []).
Proof.
  apply (reconnect_once_after_link_loss_never_after_user_disconnect
           connectedManager esp32 0
           (set_isConnected true (BluetoothDevice_init esp32 (-60)))
           connectedManager
           (set_isConnected true (BluetoothDevice_init esp32 (-60)))).
  - reflexivity.
  - vm_compute. reflexivity.
  - reflexivity.
  - reflexivity.
Defined.

(** C6, as stated, fails: the link to the persisted peer is lost with an
    error while autoReconnect is set, Bluetooth goes off before the two
    seconds are over, and the spawned task makes no connection attempt.
    And when a new scan has emptied the list of discovered devices before
    the link is lost, no task is spawned at all. *)
Lemma link_loss_without_reconnection_attempt :
  shouldAutoReconnect connectedManager = true
  ∧ getLastConnectedDeviceUUID connectedManager = Some (identifier esp32)
  ∧ (didDisconnectPeripheral esp32 true connectedManager).2 = [reconnectAfter 2 esp32]
  ∧ reconnectTask esp32
      (didUpdateState false (didDisconnectPeripheral esp32 true connectedManager).1)
    = []
  ∧ shouldAutoReconnect (startScanning connectedManager).1 = true
  ∧ (didDisconnectPeripheral esp32 true (startScanning connectedManager).1).2 = [].
Proof. split_and!; vm_compute; reflexivity. Qed.

(* ===================================================================== *)
(** * Worked examples *)
(* ===================================================================== *)

(** Seven playlists at four per page: two envelopes, four items then
    three, both stamped [totalPages = 2], with the delay between them. *)
Example seven_playlists_two_pages :
  let pl (n : Z) := PlaylistInfo.mk "p" "Playlist" n in
  sendPaginatedPlaylists [pl 1; pl 2; pl 3; pl 4; pl 5; pl 6; pl 7]
  = Some
      [ SendMessage playlistsResponse
          (Some (PPlaylistsResponse
                   (PlaylistsResponsePayload.mk [pl 1; pl 2; pl 3; pl 4] 1 2)));
        Sleep 50000000;
        SendMessage playlistsResponse
          (Some (PPlaylistsResponse (PlaylistsResponsePayload.mk [pl 5; pl 6; pl 7] 2 2))) ].
Proof. vm_compute. reflexivity. Qed.

(** No playlists: one envelope with an empty page. *)
Example no_playlists_one_empty_page :
  sendPaginatedPlaylists []
  = Some [ SendMessage playlistsResponse
             (Some (PPlaylistsResponse (PlaylistsResponsePayload.mk [] 1 1))) ].
Proof. vm_compute. reflexivity. Qed.

(** A playSong frame from the bytes to the call on the player. *)
Example play_song_frame_end_to_end :
  handleReceivedData (Some idlePlayer) (Some demoStorage) playFrame
  = Some [Play (PlayContext.mk "Some Album" 2
            [ AbstractPlayable.song (demoSong "s1" "One" 1);
              AbstractPlayable.song (demoSong "s2" "Two" 2);
              AbstractPlayable.song (demoSong "s3" "Three" 3) ])].
Proof. vm_compute. reflexivity. Qed.

(** On a link that is not ready nothing a handler sends is written. *)
Lemma transmit_not_ready `{JSONSerialization} (fuel : nat) (effects : list Effect) (l : Link) :
  txCharacteristic l = false →
  ∃ l', transmit (S fuel) effects l = Some l' ∧ written l' = written l.
Proof.
  unfold transmit. revert l. induction effects as [|e effects IH]; intros l Hoff.
  - by exists l.
  - destruct e; cbn [perform]; try by apply IH.
    destruct (Date l) as [now l1] eqn:HDate.
    assert (txCharacteristic l1 = false ∧ written l1 = written l) as [Hoff1 Hsame].
    { unfold Date in HDate. by simplify_eq. }
    rewrite sendMessage_not_ready by done. cbn [mbind option_bind].
    destruct (IH l1 Hoff1) as (l' & Hrun & Hwritten).
    exists l'. by rewrite Hrun, Hwritten.
Qed.

(* ===================================================================== *)
(** * Further properties of the telemetry publisher *)
(* ===================================================================== *)

Section TelemetryInvariants.
Implicit Types (song : AbstractPlayable.t) (fs : list Firing) (p : Publisher).

(** X1. A poll that finds the player as the poll before it did sends
    nothing and leaves the publisher as it is, whatever state the
    publisher was in before the first of the two. *)
Theorem second_poll_of_same_state_is_silent (player : PlayerFacade.t) p :
  deliver (Poll player) (deliver (Poll player) p).1 = ((deliver (Poll player) p).1, []).
Proof.
  destruct p as [[last lastId] [timer cur]], player as [playing [song|] ctx el du];
    unfold deliver, checkPlayerState; simpl;
    repeat (case_decide || case_match || simplify_eq/= ); try done.
Qed.

Lemma deliver_inStep f p : inStep p → inStep (deliver f p).1.
Proof.
  destruct f as [player|player]; [|done].
  destruct p as [[last lastId] [timer cur]], player as [playing [song|] ctx el du];
    unfold inStep, deliver, checkPlayerState, sendSongStopped, sendSongStarted,
      startProgressTimer, stopProgressTimer; simpl; intros [-> ->];
    repeat (case_decide || case_match || simplify_eq/= ); try done.
Qed.

Lemma run_inStep fs : ∀ p, inStep p → inStep (run fs p).1.
Proof.
  induction fs as [|f fs IH]; intros p Hp; [done|]. cbn [run].
  pose proof (deliver_inStep f p Hp) as Hp'.
  destruct (deliver f p) as [p' sent]. specialize (IH p' Hp').
  by destruct (run fs p').
Qed.

(** X2. After any run of firings from the start, the two halves of the
    publisher agree, and a firing of the progress timer sends a frame
    exactly when the last poll saw a song playing and the player still
    has a song; the frame names the song of that last poll. *)
Theorem progress_frames_follow_the_last_poll fs (player : PlayerFacade.t) :
  let p := (run fs freshPublisher).1 in
  inStep p
  ∧ (deliver (Progress player) p).2
    = match PlayerFacade.currentlyPlaying player,
            (if lastPlayingState (observer p) then lastSongId (observer p) else None) with
      | Some _, Some songId =>
          [SendMessage playbackProgress
             (Some (PPlaybackProgress (PlaybackProgressPayload.mk
                songId (PlayerFacade.elapsedTime player) (PlayerFacade.duration player)
                (PlayerFacade.isPlaying player))))]
      | _, _ => []
      end.
Proof.
  intros p. assert (inStep p) as Hp by (apply run_inStep; done).
  split; [done|]. destruct Hp as [Hcur Htimer].
  unfold deliver, progressTimerFired, sendPlaybackProgress. cbn [snd].
  rewrite Htimer, <- Hcur.
  destruct (currentSongId (service p)), (PlayerFacade.currentlyPlaying player); done.
Qed.

Lemma transitions_progress (sent : list Effect) :
  Forall isProgress sent → transitions sent = [].
Proof.
  induction 1 as [|e sent [q ->] _ IH]; [done|]. unfold transitions in *. simpl. done.
Qed.

Lemma poll_sees_change_while_paused song next player :
  AbstractPlayable.id song ≠ AbstractPlayable.id next →
  PlayerFacade.currentlyPlaying player = Some next →
  PlayerFacade.isPlaying player = true →
  deliver (Poll player) (publisherAt song false)
  = (publisherAt next true,
     [songStoppedFrame song; songStartedFrame next (playlistName_of player)]).
Proof.
  intros Hne Hsong Hplaying. unfold deliver, checkPlayerState.
  rewrite Hsong, Hplaying. simpl. repeat case_decide; by simplify_eq.
Qed.

(** X3. When the song changes while the old one is paused, songStopped is
    sent for the old song a second time: over start A, pause, start B the
    frames other than progress frames are songStarted(A), songStopped(A),
    songStopped(A), songStarted(B). *)
Theorem change_while_paused_repeats_songStopped
    (A B : AbstractPlayable.t) (started paused changed : list Firing) :
  AbstractPlayable.id A ≠ AbstractPlayable.id B →
  interval A true started →
  interval A false paused →
  interval B true changed →
  ∃ name1 name2,
    transitions (run (started ++ paused ++ changed) freshPublisher).2
    = [ songStartedFrame A name1; songStoppedFrame A;
        songStoppedFrame A; songStartedFrame B name2 ].
Proof.
  intros Hne Hstarted Hpaused [(player & rest & ->) Hall].
  apply Forall_cons in Hall as [[Hsong Hplaying] Hrest].
  destruct (run_interval_started A started Hstarted) as (name1 & progress1 & H1 & Hp1).
  pose proof (run_interval_paused A paused Hpaused) as H2.
  destruct (run_playing B rest Hrest) as (progress2 & H3 & Hp2).
  exists name1, (playlistName_of player).
  rewrite run_app, H1. cbv beta iota. rewrite run_app, H2. cbv beta iota.
  cbn [run]. rewrite (poll_sees_change_while_paused A B) by done.
  rewrite H3. cbn [snd]. unfold transitions.
  cbn [omap list_omap app songStartedFrame songStoppedFrame].
  rewrite omap_app. fold (transitions progress1). rewrite (transitions_progress progress1 Hp1).
  cbn [omap list_omap app]. fold (transitions progress2).
  by rewrite (transitions_progress progress2 Hp2).
Qed.

(** X4. After a link loss the service forgets the current song and the
    observer does not: while the player goes on playing the same song,
    neither the polls nor the progress timer send anything, so a peer that
    reconnects hears nothing of the song until the player's state
    changes. *)
Theorem telemetry_silent_after_link_loss song fs :
  Forall (observes (Some song) true) fs →
  run fs (afterLinkLoss (publisherAt song true))
  = (afterLinkLoss (publisherAt song true), []).
Proof.
  induction 1 as [|f fs Hf _ IH]; [done|]. cbn [run].
  assert (deliver f (afterLinkLoss (publisherAt song true))
          = (afterLinkLoss (publisherAt song true), [])) as ->.
  { destruct f as [player|player]; [|done].
    destruct Hf as [Hsong Hplaying]. unfold deliver, checkPlayerState.
    rewrite Hsong, Hplaying. simpl. by repeat case_decide. }
  by rewrite IH.
Qed.

End TelemetryInvariants.

(** Songs s1 and s2: s1 starts, is paused, and s2 starts. *)
Lemma change_while_paused_repeats_songStopped_witness :
  ∃ name1 name2,
    transitions (run (fourFirings songA true ++ fourFirings songA false
                      ++ fourFirings songB true) freshPublisher).2
    = [ songStartedFrame songA name1; songStoppedFrame songA;
        songStoppedFrame songA; songStartedFrame songB name2 ].
Proof.
  apply (change_while_paused_repeats_songStopped songA songB
           (fourFirings songA true) (fourFirings songA false) (fourFirings songB true)).
  - discriminate.
  - apply fourFirings_interval.
  - apply fourFirings_interval.
  - apply fourFirings_interval.
Defined.

(** Song s1 keeps playing across the loss of the link. *)
Lemma telemetry_silent_after_link_loss_witness :
  run (fourFirings songA true) (afterLinkLoss (publisherAt songA true))
  = (afterLinkLoss (publisherAt songA true), []).
Proof.
  apply (telemetry_silent_after_link_loss songA (fourFirings songA true)).
  by repeat constructor.
Defined.

(* ===================================================================== *)
(** * Further properties of the query handlers *)
(* ===================================================================== *)

Section Pages.
Context {T : Type}.
Implicit Types (items : list T).

(** What the loop of a paginated sender does, effect by effect. *)
Lemma sendPaginated_effects (perPage : Z) (type : MessageType)
    (payload : list T → Z → Z → Payload) items :
  0 < perPage →
  let totalPages := Z.max 1 (Z.quot (count_of items + perPage - 1) perPage) in
  1 <= totalPages
  ∧ sendPaginated perPage type payload items
    = Some (concat ((λ page,
        SendMessage type (Some (payload (window perPage items page) (page + 1) totalPages))
          :: (if page <? totalPages - 1 then [Sleep delayBetweenPages] else []))
        <$> seqZ 0 (totalPages - 0))).
Proof.
  intros Hc.
  pose proof (totalPages_bounds perPage (count_of items) Hc
                ltac:(unfold count_of; lia)) as (H1 & H0 & Hpos).
  cbv zeta in *.
  set (totalPages := Z.max 1 (Z.quot (count_of items + perPage - 1) perPage)) in *.
  split; [done|].
  unfold sendPaginated, for_in. fold totalPages.
  erewrite mapM_total; [done|]. intros page [Hlo Hhi]%elem_of_seqZ. simpl.
  rewrite slice_window; [done | done | lia |].
  destruct (decide (count_of items = 0)) as [Hz|Hnz].
  - rewrite (H0 Hz) in Hhi. assert (page = 0) as -> by lia. lia.
  - assert (0 < count_of items) as Hp by (unfold count_of in *; lia).
    specialize (Hpos Hp). nia.
Qed.

Lemma concat_gaps {A} (f : Z → A) (s : A) (n : Z) (k : nat) : ∀ a,
  n - a = Z.of_nat (S k) →
  concat ((λ page, f page :: (if page <? n - 1 then [s] else [])) <$> seqZ a (n - a))
  = separated s (f <$> seqZ a (n - a)).
Proof.
  induction k as [|k IH]; intros a Hk.
  - rewrite (seqZ_cons a (n - a)) by lia.
    replace (Z.pred (n - a)) with 0 by lia. change (seqZ (Z.succ a) 0) with (@nil Z).
    simpl. destruct (Z.ltb_spec a (n - 1)); [lia|]. done.
  - rewrite (seqZ_cons a (n - a)) by lia. cbn [fmap list_fmap concat].
    replace (Z.pred (n - a)) with (n - Z.succ a) by lia.
    rewrite (IH (Z.succ a)) by lia.
    destruct (Z.ltb_spec a (n - 1)); [|lia].
    rewrite (seqZ_cons (Z.succ a) (n - Z.succ a)) by lia. done.
Qed.

Lemma sentMessages_separated (d : Z) (frames : list Effect) :
  sentMessages (separated (Sleep d) frames) = sentMessages frames.
Proof.
  unfold sentMessages.
  induction frames as [|e frames IH]; [done|]. cbn [separated].
  destruct frames as [|e' frames]; [done|].
  change (e :: Sleep d :: ?l) with ([e; Sleep d] ++ l).
  change (e :: e' :: frames) with ([e] ++ e' :: frames).
  rewrite !omap_app, IH. by destruct e.
Qed.

Lemma sendPaginated_paced (perPage : Z) (type : MessageType)
    (payload : list T → Z → Z → Payload) items :
  0 < perPage → pacedBySleeps (sendPaginated perPage type payload items).
Proof.
  intros Hc. destruct (sendPaginated_effects perPage type payload items Hc) as [H1 ->].
  set (totalPages := Z.max 1 (Z.quot (count_of items + perPage - 1) perPage)) in *.
  eexists. split; [done|].
  rewrite (concat_gaps _ _ totalPages (Z.to_nat (totalPages - 1)) 0) by lia.
  rewrite sentMessages_separated. f_equal.
  unfold sentMessages.
  induction (seqZ 0 (totalPages - 0)) as [|page pages IH]; [done|].
  cbn [fmap list_fmap omap list_omap]. cbn [fmap list_fmap] in IH. by rewrite <- IH.
Qed.

(** The items of every page are items of the list. *)
Lemma paginates_Forall (perPage : Z) (type : MessageType)
    (payload : list T → Z → Z → Payload) items result
    (P : MessageType * option Payload → Prop) :
  paginates perPage type payload items result →
  (∀ pageItems page totalPages,
     pageItems ⊆ items → P (type, Some (payload pageItems page totalPages))) →
  ∃ effects, result = Some effects ∧ Forall P (sentMessages effects).
Proof.
  intros (effects & pages & -> & Hsent & _ & _ & <-) HP.
  exists effects. split; [done|]. rewrite Hsent.
  apply Forall_forall. intros m (i & pg & -> & Hpg)%elem_of_lookup_imap.
  apply HP. intros x Hx. apply list_elem_of_In, in_concat.
  exists pg. split; apply list_elem_of_In; [by eapply list_elem_of_lookup_2 | done].
Qed.

End Pages.

(** X5. Each of the four paginated senders does nothing but send its
    pages with one sleep of 50 ms between each two consecutive pages:
    none before the first page and none after the last. *)
Theorem pages_are_paced_by_one_sleep
    (playlists : list PlaylistInfo.t) (artists : list ArtistInfo.t)
    (albums : list AlbumInfo.t) (songs : list SongInfo.t)
    (context contextId : option string) :
  pacedBySleeps (sendPaginatedPlaylists playlists)
  ∧ pacedBySleeps (sendPaginatedArtists artists)
  ∧ pacedBySleeps (sendPaginatedAlbums albums)
  ∧ pacedBySleeps (sendPaginatedSongs songs context contextId).
Proof.
  repeat split; apply sendPaginated_paced; done.
Qed.

Lemma length_prefix (n : nat) (s : string) : (String.length (prefix n s) ≤ n)%nat.
Proof.
  unfold prefix. revert s. induction n as [|n IH]; intros [|a s]; simpl; try lia.
  specialize (IH s). lia.
Qed.

Lemma songs_withinCaps (songs : list Song.t) (context contextId : option string) :
  ∃ effects,
    sendPaginatedSongs (map createSongInfo songs) context contextId = Some effects
    ∧ Forall withinCaps (sentMessages effects).
Proof.
  eapply paginates_Forall; [by apply sendPaginated_paginates|].
  intros pageItems page totalPages Hsub. unfold withinCaps. simpl.
  apply Forall_forall. intros info Hinfo.
  apply Hsub, list_elem_of_fmap_1 in Hinfo as (song & -> & _). simpl.
  split_and!.
  - apply length_prefix.
  - intros a (a' & _ & ->)%fmap_Some. apply length_prefix.
  - intros a (a' & _ & ->)%fmap_Some. apply length_prefix.
Qed.

Section Answers.
Context `{JSONSerialization}.

(** X6. With a library bound, the dispatcher runs to its end on every
    message (no page range ever leaves its array), and every page it sends
    keeps the caps of the service: playlist and artist names and song
    titles at most 30 characters, album names at most 25, the artist and
    album of a song and the artist of an album at most 20. *)
Theorem every_query_is_answered_within_caps
    (player : option PlayerFacade.t) (storage : LibraryStorage.t)
    (message : BluetoothMessage) :
  ∃ effects,
    handleQuery player (Some storage) message = Some effects
    ∧ Forall withinCaps (sentMessages effects).
Proof.
  unfold handleQuery.
  destruct (type message); try (by eexists; split; [done|constructor]).
  - (* queryPlaylists *)
    eapply paginates_Forall; [by apply sendPaginated_paginates|].
    intros pageItems page totalPages Hsub. unfold withinCaps. simpl.
    apply Forall_forall. intros info Hinfo.
    apply Hsub, list_elem_of_fmap_1 in Hinfo as (x & -> & _). apply length_prefix.
  - (* queryArtists *)
    eapply paginates_Forall; [by apply sendPaginated_paginates|].
    intros pageItems page totalPages Hsub. unfold withinCaps. simpl.
    apply Forall_forall. intros info Hinfo.
    apply Hsub, list_elem_of_fmap_1 in Hinfo as (x & -> & _). apply length_prefix.
  - (* queryAlbums *)
    eapply paginates_Forall; [by apply sendPaginated_paginates|].
    intros pageItems page totalPages Hsub. unfold withinCaps. simpl.
    apply Forall_forall. intros info Hinfo.
    apply Hsub, list_elem_of_fmap_1 in Hinfo as (x & -> & _). simpl. split.
    + apply length_prefix.
    + intros a (a' & _ & ->)%fmap_Some. apply length_prefix.
  - (* querySongs *)
    apply songs_withinCaps.
  - (* queryPlaylistSongs *)
    destruct (decode_as _ message) as [payload|]; [|by eexists; split; [done|constructor]].
    unfold handleQueryPlaylistSongs. destruct (snd <$> list_find _ _) as [playlist|].
    + apply songs_withinCaps.
    + eexists. split; [done|]. by repeat constructor.
  - (* queryArtistSongs *)
    destruct (decode_as _ message) as [payload|]; [|by eexists; split; [done|constructor]].
    unfold handleQueryArtistSongs. destruct (snd <$> list_find _ _) as [artist|].
    + apply songs_withinCaps.
    + eexists. split; [done|]. by repeat constructor.
  - (* queryAlbumSongs *)
    destruct (decode_as _ message) as [payload|]; [|by eexists; split; [done|constructor]].
    unfold handleQueryAlbumSongs. destruct (snd <$> list_find _ _) as [album|].
    + apply songs_withinCaps.
    + eexists. split; [done|]. by repeat constructor.
  - (* playSong *)
    destruct (decode_as _ message) as [payload|]; [|by eexists; split; [done|constructor]].
    eexists. split; [done|]. destruct player as [player|].
    + pose proof (handlePlaySong_queue player storage payload) as Hq. cbv zeta in Hq.
      destruct (isEmpty (playCandidates storage payload)).
      * rewrite Hq. by repeat constructor.
      * destruct Hq as [contextName ->]. constructor.
    + rewrite handlePlaySong_no_player. by repeat constructor.
  - (* playPause *) eexists. split; [done|]. by destruct player.
  - (* nextSong *) eexists. split; [done|]. by destruct player.
  - (* prevSong *) eexists. split; [done|]. by destruct player.
Qed.

(** X7. The pages of a scoped-songs response are, in order, the songs of
    the scope; for a playlist these are its playables that are songs, so
    an episode or any other playable of the playlist is in none of the
    pages. *)
Theorem scoped_pages_are_the_songs_of_the_scope
    (k : ScopeKind) (storage : LibraryStorage.t) (scopeId : string)
    (playables : list AbstractPlayable.t) :
  songsIn k scopeId storage = Some playables →
  paginates 2 songsResponse
    (λ pageItems page totalPages,
       PSongsResponse
         (SongsResponsePayload.mk pageItems (Some (scopeName k)) (Some scopeId)
            page totalPages))
    (createSongInfo <$> omap AbstractPlayable.asSong playables)
    (handleScopedSongs k storage scopeId).
Proof.
  intros Hin.
  assert (∀ songs : list Song.t,
            omap AbstractPlayable.asSong (map AbstractPlayable.song songs) = songs) as Hsongs.
  { induction songs as [|s songs IH]; [done|]. simpl. f_equal. apply IH. }
  destruct k; cbn [songsIn handleScopedSongs scopeName] in *;
    [ unfold handleQueryPlaylistSongs
    | unfold handleQueryArtistSongs
    | unfold handleQueryAlbumSongs ];
    destruct (list_find _ _) as [[i x]|]; simplify_eq/=; rewrite ?Hsongs;
    by apply sendPaginated_paginates.
Qed.

End Answers.

(** A playlist with an episode between two songs. *)
Lemma scoped_pages_are_the_songs_of_the_scope_witness :
  paginates 2 songsResponse
    (λ pageItems page totalPages,
       PSongsResponse
         (SongsResponsePayload.mk pageItems (Some "playlist") (Some "pl-mix")
            page totalPages))
    (createSongInfo <$> [demoSong "s1" "One" 1; demoSong "s2" "Two" 2])
    (handleScopedSongs playlistScope mixedStorage "pl-mix").
Proof.
  apply (scoped_pages_are_the_songs_of_the_scope playlistScope mixedStorage "pl-mix"
           [ AbstractPlayable.song (demoSong "s1" "One" 1);
             AbstractPlayable.other "ep-1" "Episode" "Some Podcast" 1800;
             AbstractPlayable.song (demoSong "s2" "Two" 2) ]).
  reflexivity.
Defined.

(* ===================================================================== *)
(** * Further properties of the envelope and the dispatcher *)
(* ===================================================================== *)

Lemma playerCalls_separated_frames (d : Z) (frames : list Effect) :
  Forall (λ e, ∃ t p, e = SendMessage t p) frames →
  playerCalls (separated (Sleep d) frames) = [].
Proof.
  induction 1 as [|e l (t & p & ->) Hl IH]; [done|].
  cbn [separated]. destruct l as [|e' l]; [done|]. exact IH.
Qed.

Lemma pacedBySleeps_no_player_call (result : option (list Effect)) (effects : list Effect) :
  pacedBySleeps result → result = Some effects → playerCalls effects = [].
Proof.
  intros (effects' & -> & Heff) [= <-]. rewrite Heff.
  apply playerCalls_separated_frames, Forall_fmap, Forall_true.
  intros [t p]. by eexists _, _.
Qed.


Section Envelope.
Context `{JSONSerialization}.

(** X9. A frame that is a JSON object but has no timestamp, or one that
    does not cast to a [Double], is not decoded: the service answers it
    with one error envelope INVALID_MESSAGE, whatever its type and
    payload. *)
Theorem frame_without_timestamp_is_invalid
    (player : option PlayerFacade.t) (storage : option LibraryStorage.t)
    (data : Data) (dict : gmap string JSON) :
  jsonObject data = Some (JObject dict) →
  dict !! "timestamp" ≫= as_Double = None →
  handleReceivedData player storage data
  = Some [SendMessage error
            (Some (PError (ErrorPayload.mk "INVALID_MESSAGE" "Could not decode message")))].
Proof.
  intros Hdata Hts. unfold handleReceivedData, from. rewrite Hdata.
  cbn [mbind option_bind as_Dictionary].
  destruct (dict !! "type" ≫= as_String) as [typeString|]; [|done].
  cbn [mbind option_bind].
  destruct (MessageType_init typeString) as [t|]; [|done].
  cbn [mbind option_bind].
  destruct (dict !! "timestamp") as [v|]; [|done].
  cbn [mbind option_bind] in *. by rewrite Hts.
Qed.

(** X10. What [toData] writes is a JSON object with the raw value of the
    type under "type", the timestamp under "timestamp" and, when the
    message has a payload, the payload's own JSON object under "payload";
    it has no other key, and no "payload" key when there is no payload. *)
Theorem toData_writes_type_timestamp_payload (m : BluetoothMessage) (data : Data) :
  toData m = Some data →
  ∃ dict,
    jsonObject data = Some (JObject dict)
    ∧ dict !! "type" = Some (JString (rawValue (type m)))
    ∧ dict !! "timestamp" = Some (JDouble (timestamp m))
    ∧ dict !! "payload" = payloadObject m
    ∧ ∀ k, is_Some (dict !! k) → k ∈ ["type"; "timestamp"; "payload"].
Proof.
  unfold toData, payloadObject. intros Hdata.
  apply jsonObject_dataWithJSONObject in Hdata. eexists. split; [exact Hdata|].
  destruct (payloadData m ≫= jsonObject) as [payloadObject|];
    (split_and!; [by map_lookup | by map_lookup | by map_lookup |]);
    intros k [v Hk];
    repeat (apply lookup_insert_Some in Hk as [[<- _]|[_ Hk]]; [set_solver|]);
    by rewrite lookup_empty in Hk.
Qed.

(** X11. One message drives the player at most once, and only a
    playSong, playPause, nextSong or prevSong message with both the player
    and the library bound does; a message that drives the player sends no
    envelope, so a command that was carried out is not acknowledged. *)
Theorem player_is_driven_only_by_the_four_commands
    (player : option PlayerFacade.t) (storage : option LibraryStorage.t)
    (message : BluetoothMessage) (effects : list Effect) :
  handleQuery player storage message = Some effects →
  playerCalls effects = []
  ∨ ∃ call,
      playerCalls effects = [call]
      ∧ sentMessages effects = []
      ∧ is_Some player ∧ is_Some storage
      ∧ type message = match call with
                       | Play _ => playSong
                       | TogglePlayPause => playPause
                       | PlayNext => nextSong
                       | _ => prevSong
                       end.
Proof.
  pose proof pacedBySleeps_no_player_call as Hpaged.
  unfold handleQuery. destruct storage as [storage|]; [|intros [= <-]; by left].
  destruct (type message) eqn:Htype; try (intros [= <-]; by left).
  - intros Heq. left. eapply Hpaged; [|exact Heq]. by apply sendPaginated_paced.
  - intros Heq. left. eapply Hpaged; [|exact Heq]. by apply sendPaginated_paced.
  - intros Heq. left. eapply Hpaged; [|exact Heq]. by apply sendPaginated_paced.
  - intros Heq. left. eapply Hpaged; [|exact Heq]. by apply sendPaginated_paced.
  - destruct (decode_as _ message) as [payload|]; [|intros [= <-]; by left].
    unfold handleQueryPlaylistSongs. destruct (snd <$> list_find _ _) as [playlist|].
    + intros Heq. left. eapply Hpaged; [|exact Heq]. by apply sendPaginated_paced.
    + intros [= <-]. by left.
  - destruct (decode_as _ message) as [payload|]; [|intros [= <-]; by left].
    unfold handleQueryArtistSongs. destruct (snd <$> list_find _ _) as [artist|].
    + intros Heq. left. eapply Hpaged; [|exact Heq]. by apply sendPaginated_paced.
    + intros [= <-]. by left.
  - destruct (decode_as _ message) as [payload|]; [|intros [= <-]; by left].
    unfold handleQueryAlbumSongs. destruct (snd <$> list_find _ _) as [album|].
    + intros Heq. left. eapply Hpaged; [|exact Heq]. by apply sendPaginated_paced.
    + intros [= <-]. by left.
  - destruct (decode_as _ message) as [payload|]; [|intros [= <-]; by left].
    intros [= <-]. destruct player as [player|].
    + pose proof (handlePlaySong_queue player storage payload) as Hq. cbv zeta in Hq.
      destruct (isEmpty (playCandidates storage payload)).
      * rewrite Hq. by left.
      * destruct Hq as [contextName ->]. right. eexists. by split_and!.
    + rewrite handlePlaySong_no_player. by left.
  - intros [= <-]. destruct player; [right|by left]. eexists. by split_and!.
  - intros [= <-]. destruct player; [right|by left]. eexists. by split_and!.
  - intros [= <-]. destruct player; [right|by left]. eexists. by split_and!.
Qed.


End Envelope.

(** A playPause frame without a timestamp. *)
Lemma frame_without_timestamp_is_invalid_witness :
  handleReceivedData (H := TreeJSON) (Some idlePlayer) (Some demoStorage)
    (JObject {[ "type" := JString "PLAY_PAUSE" ]})
  = Some [SendMessage error
            (Some (PError (ErrorPayload.mk "INVALID_MESSAGE" "Could not decode message")))].
Proof.
  apply (frame_without_timestamp_is_invalid (H := TreeJSON) (Some idlePlayer)
           (Some demoStorage) (JObject {[ "type" := JString "PLAY_PAUSE" ]})
           {[ "type" := JString "PLAY_PAUSE" ]}).
  - reflexivity.
  - reflexivity.
Defined.


(** The error envelope of the sample data and its frame. *)
Lemma toData_writes_type_timestamp_payload_witness :
  ∃ dict,
    jsonObject demoFrame = Some (JObject dict)
    ∧ dict !! "type" = Some (JString (rawValue (type demoEnvelope)))
    ∧ dict !! "timestamp" = Some (JDouble (timestamp demoEnvelope))
    ∧ dict !! "payload" = payloadObject demoEnvelope
    ∧ ∀ k, is_Some (dict !! k) → k ∈ ["type"; "timestamp"; "payload"].
Proof.
  apply (toData_writes_type_timestamp_payload (H := TreeJSON) demoEnvelope demoFrame).
  vm_compute. reflexivity.
Defined.

(** A playPause message with the player and the library bound. *)
Lemma player_is_driven_only_by_the_four_commands_witness :
  playerCalls [TogglePlayPause] = []
  ∨ ∃ call,
      playerCalls [TogglePlayPause] = [call]
      ∧ sentMessages [TogglePlayPause] = []
      ∧ is_Some (Some idlePlayer) ∧ is_Some (Some demoStorage)
      ∧ playPause = match call with
                    | Play _ => playSong
                    | TogglePlayPause => playPause
                    | PlayNext => nextSong
                    | _ => prevSong
                    end.
Proof.
  apply (player_is_driven_only_by_the_four_commands (H := TreeJSON)
           (Some idlePlayer) (Some demoStorage)
           {| type := playPause; timestamp := 12.25%float; payloadData := None |}
           [TogglePlayPause]).
  reflexivity.
Defined.

(* ===================================================================== *)
(** * Further properties of the transport *)
(* ===================================================================== *)

Section TransportSafety.
Context `{JSONSerialization}.

Lemma sendMessage_one_frame fuel : ∀ message l l',
  sendMessage fuel message l = Some l' →
  ∃ new, written l' = written l ++ new
         ∧ Forall (λ d, count d <= maxMessageSize ∧ ∃ m, toData m = Some d) new
         ∧ (length new ≤ 1)%nat
         ∧ (txCharacteristic l = false → new = [])
         ∧ txCharacteristic l' = txCharacteristic l.
Proof.
  induction fuel as [|fuel IH]; intros message l l' Hsend; [done|].
  destruct (txCharacteristic l) eqn:Htx;
    [|rewrite sendMessage_not_ready in Hsend by done; simplify_eq;
      exists []; rewrite app_nil_r; split_and!; done || (simpl; lia)].
  destruct (toData message) as [data|] eqn:Hdata;
    [|simpl in Hsend; rewrite Htx, Hdata in Hsend; simplify_eq;
      exists []; rewrite app_nil_r; split_and!; done || (simpl; lia)].
  destruct (Z.le_gt_cases (count data) maxMessageSize) as [Hfits|Hlarge].
  - rewrite (sendMessage_fits _ _ _ data) in Hsend by done. simplify_eq.
    exists [data]. split_and!; try done. apply Forall_singleton. eauto.
  - rewrite (sendMessage_too_large _ _ _ data) in Hsend by done.
    unfold sendError in Hsend. rewrite perform_one in Hsend.
    apply IH in Hsend as (new & Hnew & Hall & Hlen & _ & Htx').
    exists new. split_and!; try done. by rewrite Htx' in *.
Qed.

Lemma sendMessage_total message l :
  (∀ now d, toData (BluetoothMessage_init now error (Some tooLargePayload)) = Some d →
            count d <= maxMessageSize) →
  ∃ l', sendMessage 2 message l = Some l'.
Proof.
  intros Hfit.
  destruct (txCharacteristic l) eqn:Htx;
    [|rewrite sendMessage_not_ready by done; by eexists].
  destruct (toData message) as [data|] eqn:Hdata;
    [|simpl; rewrite Htx, Hdata; by eexists].
  destruct (Z.le_gt_cases (count data) maxMessageSize) as [Hfits|Hlarge].
  - rewrite (sendMessage_fits _ _ _ data) by done. by eexists.
  - rewrite (sendMessage_too_large _ _ _ data) by done.
    unfold sendError. rewrite perform_one.
    destruct (toData (BluetoothMessage_init (clock l (clockReads l)) error
                (Some tooLargePayload))) as [errorData|] eqn:Herr.
    + rewrite (sendMessage_fits _ _ _ errorData); [by eexists | done | done |].
      by eapply Hfit.
    + simpl. rewrite Htx. unfold tooLargePayload in Herr. rewrite Herr. by eexists.
Qed.

(** X12. Provided the MESSAGE_TOO_LARGE envelope itself encodes within the
    cap, sending what a handler hands over always runs to its end; every
    frame written is the whole encoding of an envelope and has at most 512
    bytes, at most one frame is written per envelope, and none while the
    TX characteristic is not set. *)
Theorem transmit_runs_to_its_end_within_cap (effects : list Effect) (l : Link) :
  (∀ now d, toData (BluetoothMessage_init now error (Some tooLargePayload)) = Some d →
            count d <= maxMessageSize) →
  ∃ l' new,
    transmit 2 effects l = Some l'
    ∧ written l' = written l ++ new
    ∧ Forall (λ d, count d <= maxMessageSize ∧ ∃ m, toData m = Some d) new
    ∧ (length new ≤ length (sentMessages effects))%nat
    ∧ (txCharacteristic l = false → new = []).
Proof.
  intros Hfit. unfold transmit. revert l.
  induction effects as [|e effects IH]; intros l.
  - exists l, []. rewrite app_nil_r. by split_and!.
  - destruct e as [t payload| | | | |]; cbn [perform]; try apply IH.
    destruct (Date l) as [now l1] eqn:HDate.
    assert (txCharacteristic l1 = txCharacteristic l ∧ written l1 = written l)
      as [Htx1 Hw1].
    { unfold Date in HDate. by simplify_eq. }
    destruct (sendMessage_total (BluetoothMessage_init now t payload) l1 Hfit)
      as [l2 Hsend].
    rewrite Hsend. cbn [mbind option_bind].
    apply sendMessage_one_frame in Hsend as (new1 & Hnew1 & Hall1 & Hlen1 & Hoff1 & Htx2).
    destruct (IH l2) as (l' & new & Hrun & Hnew & Hall & Hlen & Hoff).
    exists l', (new1 ++ new). split_and!.
    + done.
    + by rewrite Hnew, Hnew1, Hw1, app_assoc.
    + by apply Forall_app.
    + rewrite length_app.
      change (sentMessages (SendMessage t payload :: effects))
        with ((t, payload) :: sentMessages effects).
      simpl. lia.
    + intros Htx. rewrite Hoff1, Hoff by congruence. done.
Qed.

End TransportSafety.

(** Two pages on a ready link, the first over the cap. *)
Lemma transmit_runs_to_its_end_within_cap_witness :
  ∃ l' new,
    transmit 2
      [ SendMessage songsResponse
          (Some (PSongsResponse (SongsResponsePayload.mk
             [ createSongInfo (demoSong (repeated 300 "a") "One" 1);
               createSongInfo (demoSong (repeated 300 "b") "Two" 2) ]
             None None 1 2)));
        Sleep delayBetweenPages;
        SendMessage songsResponse
          (Some (PSongsResponse (SongsResponsePayload.mk
             [ createSongInfo (demoSong "s3" "Three" 3) ] None None 2 2))) ]
      readyLink = Some l'
    ∧ written l' = written readyLink ++ new
    ∧ Forall (λ d, count d <= maxMessageSize ∧ ∃ m, toData m = Some d) new
    ∧ (length new ≤ 2)%nat
    ∧ (txCharacteristic readyLink = false → new = []).
Proof.
  apply (transmit_runs_to_its_end_within_cap (H := TreeJSON)
    [ SendMessage songsResponse
        (Some (PSongsResponse (SongsResponsePayload.mk
           [ createSongInfo (demoSong (repeated 300 "a") "One" 1);
             createSongInfo (demoSong (repeated 300 "b") "Two" 2) ]
           None None 1 2)));
      Sleep delayBetweenPages;
      SendMessage songsResponse
        (Some (PSongsResponse (SongsResponsePayload.mk
           [ createSongInfo (demoSong "s3" "Three" 3) ] None None 2 2))) ]
    readyLink).
  intros now d. vm_compute. intros [= <-]. vm_compute. discriminate.
Defined.

(* ===================================================================== *)
(** * Further properties of the manager *)
(* ===================================================================== *)

Section StartUp.
Variable retrievePeripherals : list UUID → list CBPeripheral.
Implicit Types (st : Manager.State) (states : list CBManagerState.t).

Lemma attemptAutoReconnect_cases st :
  let '(st', called) := attemptAutoReconnect retrievePeripherals st in
  hasAttemptedAutoReconnect st' = true
  ∧ defaults st' = defaults st
  ∧ (called = []
     ∨ ∃ uuid peripheral,
         hasAttemptedAutoReconnect st = false
         ∧ shouldAutoReconnect st = true
         ∧ getLastConnectedDeviceUUID st = Some uuid
         ∧ poweredOn st = true
         ∧ head (retrievePeripherals [uuid]) = Some peripheral
         ∧ called = [connect peripheral]).
Proof.
  unfold attemptAutoReconnect.
  destruct (hasAttemptedAutoReconnect st) eqn:Hdone; [by auto|].
  unfold shouldAutoReconnect, getLastConnectedDeviceUUID. cbn [defaults].
  destruct (default false (BluetoothShouldAutoReconnect (defaults st))) eqn:Hauto;
    [|by auto].
  destruct (LastConnectedBluetoothDeviceUUID (defaults st)) as [uuid|] eqn:Huuid;
    [|by auto].
  cbn [poweredOn]. destruct (poweredOn st) eqn:Hon;
    [|cbn; split_and!; [done | done | by left]].
  destruct (head _) as [peripheral|] eqn:Hhead;
    [|cbn; split_and!; [done | done | by left]].
  cbn. split_and!; [done | done |]. right. by eexists _, _.
Qed.

Lemma centralManagerDidUpdateState_cases state st :
  let '(st', called) := centralManagerDidUpdateState retrievePeripherals state st in
  defaults st' = defaults st
  ∧ (hasAttemptedAutoReconnect st = true → hasAttemptedAutoReconnect st' = true)
  ∧ (called = []
     ∨ ∃ uuid peripheral,
         state = CBManagerState.poweredOn
         ∧ hasAttemptedAutoReconnect st = false
         ∧ hasAttemptedAutoReconnect st' = true
         ∧ shouldAutoReconnect st = true
         ∧ getLastConnectedDeviceUUID st = Some uuid
         ∧ head (retrievePeripherals [uuid]) = Some peripheral
         ∧ called = [connect peripheral]).
Proof.
  unfold centralManagerDidUpdateState.
  destruct state; try (split_and!; by auto).
  match goal with
  | |- context [attemptAutoReconnect _ ?s] =>
      pose proof (attemptAutoReconnect_cases s) as Hcases;
      destruct (attemptAutoReconnect retrievePeripherals s) as [st' called]
  end.
  destruct Hcases as (Hdone & Hdefaults & Hcalled).
  split_and!; [done | done |].
  destruct Hcalled as [->|(uuid & peripheral & ? & ? & ? & ? & ? & ->)]; [by left|].
  right. by eexists uuid, peripheral.
Qed.

Lemma afterStateUpdates_attempted states : ∀ st,
  hasAttemptedAutoReconnect st = true →
  (afterStateUpdates retrievePeripherals states st).2 = [].
Proof.
  induction states as [|state states IH]; intros st Hdone; [done|].
  cbn [afterStateUpdates].
  pose proof (centralManagerDidUpdateState_cases state st) as Hcases.
  destruct (centralManagerDidUpdateState retrievePeripherals state st) as [st' called].
  destruct Hcases as (_ & Hkeep & Hcalled).
  specialize (IH st' (Hkeep Hdone)).
  destruct (afterStateUpdates retrievePeripherals states st') as [st'' later].
  simpl in *. subst later.
  destruct Hcalled as [->|(? & ? & _ & ? & _)]; [done | congruence].
Qed.

Lemma afterStateUpdates_cases states : ∀ st,
  (afterStateUpdates retrievePeripherals states st).2 = []
  ∨ ∃ uuid peripheral,
      CBManagerState.poweredOn ∈ states
      ∧ hasAttemptedAutoReconnect st = false
      ∧ shouldAutoReconnect st = true
      ∧ getLastConnectedDeviceUUID st = Some uuid
      ∧ head (retrievePeripherals [uuid]) = Some peripheral
      ∧ (afterStateUpdates retrievePeripherals states st).2 = [connect peripheral].
Proof.
  induction states as [|state states IH]; intros st; [by left|].
  cbn [afterStateUpdates].
  pose proof (centralManagerDidUpdateState_cases state st) as Hcases.
  destruct (centralManagerDidUpdateState retrievePeripherals state st)
    as [st' called] eqn:Hstep.
  destruct Hcases as (Hdefaults & Hkeep & Hcalled).
  destruct Hcalled as [->|(uuid & peripheral & -> & Hnot & Hdone' & Hauto & Huuid & Hhead & ->)].
  - specialize (IH st').
    destruct (afterStateUpdates retrievePeripherals states st') as [st'' later].
    simpl in *. destruct IH as [->|(uuid & peripheral & Hin & Hnot & Hauto & Huuid & Hhead & ->)];
      [by left|].
    right. exists uuid, peripheral. split_and!; try done.
    + by right.
    + destruct (hasAttemptedAutoReconnect st) eqn:E; [|done].
      rewrite Hkeep in Hnot by done. done.
    + unfold shouldAutoReconnect in *. by rewrite <- Hdefaults.
    + unfold getLastConnectedDeviceUUID in *. by rewrite <- Hdefaults.
  - pose proof (afterStateUpdates_attempted states st' Hdone') as Hlater.
    destruct (afterStateUpdates retrievePeripherals states st') as [st'' later].
    simpl in *. subst later.
    right. exists uuid, peripheral. split_and!; try done. by left.
Qed.

(** X13. Over any run of Bluetooth state changes the manager makes at
    most one call on the central manager: a connection attempt, made only
    when the run has a powered-on state, no attempt was made before,
    autoReconnect is set and a device identity is persisted; it goes to
    the peripheral the system retrieves for the persisted identity. *)
Theorem start_up_reconnection_at_most_once states st :
  (afterStateUpdates retrievePeripherals states st).2 = []
  ∨ ∃ uuid peripheral,
      CBManagerState.poweredOn ∈ states
      ∧ hasAttemptedAutoReconnect st = false
      ∧ shouldAutoReconnect st = true
      ∧ getLastConnectedDeviceUUID st = Some uuid
      ∧ head (retrievePeripherals [uuid]) = Some peripheral
      ∧ (afterStateUpdates retrievePeripherals states st).2 = [connect peripheral].
Proof. apply afterStateUpdates_cases. Qed.

(** X14. After the user disconnected from a connected device, a new
    launch of the app makes no connection attempt, whatever Bluetooth
    state changes it sees and whatever peripherals the system knows. *)
Theorem no_start_up_reconnection_after_user_disconnect
    st (device : BluetoothDevice) states :
  connectedDevice st = Some device →
  (afterStateUpdates retrievePeripherals states
     (initialState (defaults (disconnect st).1))).2 = [].
Proof.
  intros Hconnected. unfold disconnect. rewrite Hconnected. cbn [fst].
  destruct (afterStateUpdates_cases states
              (initialState (defaults (clearConnectedDevice st))))
    as [Hnone|(uuid & peripheral & _ & _ & Hauto & _)]; [done|].
  done.
Qed.

(** X15. After a connection to a discovered device, a new launch of the
    app connects, at the first powered-on state, to the peripheral the
    system retrieves for that device's identifier, and lists it as the one
    discovered device; nothing was scanned for. *)
Theorem start_up_reconnection_after_connection
    st (peripheral retrieved : CBPeripheral) (i : nat) (device : BluetoothDevice) :
  findDevice (identifier peripheral) st = Some (i, device) →
  head (retrievePeripherals [Manager.id device]) = Some retrieved →
  let launched := initialState (defaults (didConnect peripheral st).1) in
  let '(st', called) :=
    centralManagerDidUpdateState retrievePeripherals CBManagerState.poweredOn launched in
  called = [connect retrieved]
  ∧ discoveredDevices st' = [BluetoothDevice_init retrieved 0]
  ∧ isScanning st' = false.
Proof.
  intros Hfind Hhead. unfold didConnect. rewrite Hfind. cbn.
  unfold attemptAutoReconnect. cbn. rewrite Hhead. done.
Qed.

End StartUp.

(** The manager connected to the sample peer; the user disconnects and the
    app is launched again. *)
Lemma no_start_up_reconnection_after_user_disconnect_witness :
  (afterStateUpdates knowsEsp32 [CBManagerState.poweredOff; CBManagerState.poweredOn]
     (initialState (defaults (disconnect connectedManager).1))).2 = [].
Proof.
  apply (no_start_up_reconnection_after_user_disconnect knowsEsp32 connectedManager
           (set_isConnected true (BluetoothDevice_init esp32 (-60)))
           [CBManagerState.poweredOff; CBManagerState.poweredOn]).
  reflexivity.
Defined.

(** The manager connects to the sample peer and the app is launched
    again. *)
Lemma start_up_reconnection_after_connection_witness :
  let launched := initialState (defaults (didConnect esp32 discoveredManager).1) in
  let '(st', called) :=
    centralManagerDidUpdateState knowsEsp32 CBManagerState.poweredOn launched in
  called = [connect esp32]
  ∧ discoveredDevices st' = [BluetoothDevice_init esp32 0]
  ∧ isScanning st' = false.
Proof.
  apply (start_up_reconnection_after_connection knowsEsp32 discoveredManager esp32 esp32
           0%nat (BluetoothDevice_init esp32 (-60))).
  - reflexivity.
  - reflexivity.
Defined.

Section Discovery.
Variable retrievePeripherals : list UUID → list CBPeripheral.
Implicit Types (st : Manager.State).

Lemma distinctIdentifiers_update st (i : nat) (device device' : BluetoothDevice) :
  findDevice (identifier (Manager.peripheral device')) st = Some (i, device) →
  Manager.peripheral device' = Manager.peripheral device →
  distinctIdentifiers st →
  distinctIdentifiers (with_discoveredDevices (<[i := device']> (discoveredDevices st)) st).
Proof.
  intros Hfind Hsame Hdistinct. unfold distinctIdentifiers in *. cbn [discoveredDevices with_discoveredDevices].
  apply list_find_Some in Hfind as (Hi & _ & _).
  rewrite list_fmap_insert, list_insert_id; [done|].
  by rewrite list_lookup_fmap, Hi, Hsame.
Qed.

Lemma afterEvent_distinct (e : ManagerEvent) st :
  retrievesAsAsked retrievePeripherals →
  hasAttemptedAutoReconnect st = true →
  distinctIdentifiers st →
  hasAttemptedAutoReconnect (afterEvent retrievePeripherals e st) = true
  ∧ distinctIdentifiers (afterEvent retrievePeripherals e st).
Proof.
  intros retrieved_as_asked Hdone Hdistinct. destruct e as [| |device| |state|peripheral RSSI|peripheral|peripheral|peripheral hadError]; cbn [afterEvent].
  - unfold startScanning. destruct (poweredOn st); split; try done. constructor.
  - unfold stopScanning. by destruct (isScanning st).
  - unfold connect_to, stopScanning. by destruct (isScanning st).
  - unfold disconnect. by destruct (connectedDevice st).
  - unfold centralManagerDidUpdateState, attemptAutoReconnect.
    destruct state; cbn; rewrite ?Hdone; done.
  - unfold didDiscover.
    destruct (findDevice (identifier peripheral) st) as [[i existing]|] eqn:Hfind.
    + split; [done|].
      apply (distinctIdentifiers_update st i existing (updateRSSI RSSI existing)); try done.
      pose proof Hfind as (_ & Hid & _)%list_find_Some.
      cbn [Manager.peripheral updateRSSI]. by rewrite Hid.
    + destruct (head _) as [retrieved|] eqn:Hhead; [|done].
      split; [done|]. unfold distinctIdentifiers in *.
      cbn [discoveredDevices with_discoveredDevices].
      rewrite fmap_app. apply NoDup_app. split_and!; [done | | by apply NoDup_singleton].
      intros x Hx ->%list_elem_of_singleton. cbn [Manager.peripheral BluetoothDevice_init] in Hx.
      assert (identifier retrieved = identifier peripheral) as Hid.
      { apply head_Some_elem_of, retrieved_as_asked in Hhead.
        by apply list_elem_of_singleton in Hhead. }
      apply list_elem_of_fmap_1 in Hx as (d & Hd & Hin).
      apply list_find_None in Hfind. rewrite Forall_forall in Hfind.
      apply (Hfind d Hin). congruence.
  - unfold didConnect.
    destruct (findDevice (identifier peripheral) st) as [[i device]|] eqn:Hfind; [|done].
    split; [done|].
    apply (distinctIdentifiers_update st i device (set_isConnected true device)); try done.
    pose proof Hfind as (_ & Hid & _)%list_find_Some.
    cbn [Manager.peripheral set_isConnected]. by rewrite Hid.
  - done.
  - unfold didDisconnectPeripheral.
    destruct (findDevice (identifier peripheral) st) as [[i device]|] eqn:Hfind; [|done].
    assert (distinctIdentifiers
              (with_discoveredDevices
                 (<[i := set_isConnected false device]> (discoveredDevices st)) st)) as Hd.
    { apply (distinctIdentifiers_update st i device (set_isConnected false device));
        try done.
      pose proof Hfind as (_ & Hid & _)%list_find_Some.
      cbn [Manager.peripheral set_isConnected]. by rewrite Hid. }
    by destruct (hadError && _).
Qed.

(** X16. Once the start-up reconnection attempt is over, no request of
    the user and no callback of the central manager makes the list of
    discovered devices hold two devices of one peripheral identifier: a
    peripheral seen again has its entry updated in place, and a new scan
    starts from an empty list. *)
Theorem discovered_devices_keep_distinct_identifiers (events : list ManagerEvent) st :
  retrievesAsAsked retrievePeripherals →
  hasAttemptedAutoReconnect st = true →
  distinctIdentifiers st →
  distinctIdentifiers (foldl (λ st e, afterEvent retrievePeripherals e st) st events).
Proof.
  intros Hasked. revert st.
  induction events as [|e events IH]; intros st Hdone Hdistinct; [done|].
  cbn [foldl].
  destruct (afterEvent_distinct e st Hasked Hdone Hdistinct) as [Hdone' Hdistinct'].
  by apply IH.
Qed.

End Discovery.

Lemma knowsEsp32_as_asked : retrievesAsAsked knowsEsp32.
Proof.
  intros ids p. unfold knowsEsp32. case_decide as Hin; [|by intros ?%elem_of_nil].
  by intros ->%list_elem_of_singleton.
Defined.

(** The sample peer is seen again, lost, connected again, and then seen
    in a new scan. *)
Lemma discovered_devices_keep_distinct_identifiers_witness :
  distinctIdentifiers
    (foldl (λ st e, afterEvent knowsEsp32 e st) connectedManager
       [ Discovered esp32 (-50); Disconnected esp32 true; Connected esp32;
         UserStartsScanning; Discovered esp32 (-40) ]).
Proof.
  apply (discovered_devices_keep_distinct_identifiers knowsEsp32
           [ Discovered esp32 (-50); Disconnected esp32 true; Connected esp32;
             UserStartsScanning; Discovered esp32 (-40) ]
           connectedManager).
  - apply knowsEsp32_as_asked.
  - reflexivity.
  - unfold distinctIdentifiers. cbn. apply NoDup_singleton.
Defined.

(** X17. After the link to the connected device is lost with an error,
    there is no connected device any more, so a disconnect asked for by
    the user during the two seconds before the reconnection does nothing:
    the persisted identity and autoReconnect stay, and the task that was
    spawned still connects. *)
Theorem disconnect_during_backoff_does_not_cancel_reconnection
    (st : Manager.State) (peripheral : CBPeripheral) (i : nat)
    (device connected : BluetoothDevice) :
  findDevice (identifier peripheral) st = Some (i, device) →
  connectedDevice st = Some connected →
  Manager.id connected = Manager.id device →
  shouldAutoReconnect st = true →
  poweredOn st = true →
  let '(st', spawned) := didDisconnectPeripheral peripheral true st in
  spawned = [reconnectAfter 2 (Manager.peripheral device)]
  ∧ disconnect st' = (st', [])
  ∧ shouldAutoReconnect (disconnect st').1 = true
  ∧ getLastConnectedDeviceUUID (disconnect st').1 = getLastConnectedDeviceUUID st
  ∧ reconnectTask (Manager.peripheral device) (disconnect st').1
    = [connect (Manager.peripheral device)].
Proof.
  intros Hfind Hconnected Hid Hauto Hon.
  unfold didDisconnectPeripheral. rewrite Hfind.
  unfold shouldAutoReconnect in *. cbn [defaults]. rewrite Hauto. cbn [andb].
  unfold disconnect, reconnectTask. cbn [connectedDevice].
  rewrite Hconnected. cbn [fmap option_fmap option_map set_isConnected Manager.id].
  rewrite Hid. rewrite decide_True by done. cbn. rewrite Hon. done.
Qed.

(** The manager connected to the sample peer loses the link. *)
Lemma disconnect_during_backoff_does_not_cancel_reconnection_witness :
  let '(st', spawned) := didDisconnectPeripheral esp32 true connectedManager in
  spawned = [reconnectAfter 2 esp32]
  ∧ disconnect st' = (st', [])
  ∧ shouldAutoReconnect (disconnect st').1 = true
  ∧ getLastConnectedDeviceUUID (disconnect st').1
    = getLastConnectedDeviceUUID connectedManager
  ∧ reconnectTask esp32 (disconnect st').1 = [connect esp32].
Proof.
  apply (disconnect_during_backoff_does_not_cancel_reconnection connectedManager esp32
           0%nat (set_isConnected true (BluetoothDevice_init esp32 (-60)))
           (set_isConnected true (BluetoothDevice_init esp32 (-60)))).
  - reflexivity.
  - reflexivity.
  - reflexivity.
  - reflexivity.
  - reflexivity.
Defined.

(* ===================================================================== *)
(** * The device: strings and the library store *)
(* ===================================================================== *)

Section CStrings.
Implicit Types (s : string) (n : nat).

Lemma prefix_cons n a s : prefix (S n) (String a s) = String a (prefix n s).
Proof. done. Qed.

Lemma prefix_nil n : prefix n "" = "".
Proof. by destruct n. Qed.

Lemma prefix_0 s : prefix 0 s = "".
Proof. by destruct s. Qed.

Lemma prefix_all n s : (String.length s ≤ n)%nat → prefix n s = s.
Proof.
  revert s. induction n as [|n IH]; intros [|a s] Hlen; simpl in *; try done; try lia.
  rewrite prefix_cons, IH; [done|lia].
Qed.

Lemma prefix_app n s : ∃ rest, s = prefix n s +:+ rest.
Proof.
  revert s. induction n as [|n IH]; intros s.
  - exists s. by rewrite prefix_0.
  - destruct s as [|a s]; [by exists ""|].
    destruct (IH s) as [rest Hrest]. exists rest.
    rewrite prefix_cons.
    change (String a (prefix n s) +:+ rest) with (String a (prefix n s +:+ rest)).
    by rewrite <- Hrest.
Qed.

Lemma c_str_cons a s :
  C.c_str (String a s) = String a s → a ≠ Ascii.zero ∧ C.c_str s = s.
Proof.
  simpl. destruct (Ascii.eqb a Ascii.zero) eqn:E; [done|].
  intros [= Hs]. split; [|done]. intros ->. by rewrite Ascii.eqb_refl in E.
Qed.

Lemma c_str_idemp s : C.c_str (C.c_str s) = C.c_str s.
Proof.
  induction s as [|a s IH]; [done|]. simpl.
  destruct (Ascii.eqb a Ascii.zero) eqn:E; [done|]. simpl. by rewrite E, IH.
Qed.

Lemma c_str_prefix n s : C.c_str s = s → C.c_str (prefix n s) = prefix n s.
Proof.
  revert s. induction n as [|n IH]; intros s Hs; [by rewrite prefix_0|].
  destruct s as [|a s]; [done|]. apply c_str_cons in Hs as [Ha Hs].
  rewrite prefix_cons. simpl.
  destruct (Ascii.eqb a Ascii.zero) eqn:E; [by apply Ascii.eqb_eq in E|].
  by rewrite IH.
Qed.

Lemma strncpy_fits n s : fits (S n) (C.strncpy s n).
Proof.
  unfold fits, C.strncpy. split.
  - pose proof (length_prefix n (C.c_str s)). lia.
  - apply c_str_prefix, c_str_idemp.
Qed.

Lemma safe_strcpy_fits (src : option string) n :
  fits (S n) (LibraryData.safe_strcpy src (S n)).
Proof.
  unfold LibraryData.safe_strcpy. destruct src as [s|].
  - replace (S n - 1)%nat with n by lia. apply strncpy_fits.
  - split; [simpl; lia | done].
Qed.

End CStrings.

(** X18. [safe_strcpy] into an array of at least one byte leaves a C
    string that fits the array with its terminator and is the source cut
    at the first NUL or at the array's size less one, whichever comes
    first: the whole source when that is short enough, and the empty
    string for a null pointer. *)
Theorem safe_strcpy_fits_and_is_a_prefix (src : option string) (dest_size : nat) :
  (0 < dest_size)%nat →
  let dest := LibraryData.safe_strcpy src dest_size in
  fits dest_size dest
  ∧ (src = None → dest = "")
  ∧ ∀ s, src = Some s →
      (∃ rest, C.c_str s = dest +:+ rest)
      ∧ ((C.strlen s < dest_size)%nat → dest = C.c_str s)
      ∧ ((dest_size ≤ C.strlen s)%nat → String.length dest = (dest_size - 1)%nat).
Proof.
  intros Hsize. destruct dest_size as [|n]; [lia|]. cbv zeta.
  split; [apply safe_strcpy_fits|]. split; [by intros ->|].
  intros s ->. unfold LibraryData.safe_strcpy, C.strncpy, C.strlen.
  replace (S n - 1)%nat with n by lia. split_and!.
  - apply prefix_app.
  - intros Hlen. apply prefix_all. lia.
  - generalize (C.c_str s). clear. intros s. revert s.
    induction n as [|n IH]; intros s Hlen; [by rewrite prefix_0|].
    destruct s as [|a s]; [simpl in Hlen; lia|].
    rewrite prefix_cons. simpl in *. rewrite IH; [done|lia].
Qed.

(** A 50-byte id into the 48 bytes of an id field. *)
Lemma safe_strcpy_fits_and_is_a_prefix_witness :
  let dest := LibraryData.safe_strcpy (Some (repeated 50 "a")) 48 in
  fits 48 dest
  ∧ (Some (repeated 50 "a") = None → dest = "")
  ∧ ∀ s, Some (repeated 50 "a") = Some s →
      (∃ rest, C.c_str s = dest +:+ rest)
      ∧ ((C.strlen s < 48)%nat → dest = C.c_str s)
      ∧ ((48 ≤ C.strlen s)%nat → String.length dest = (48 - 1)%nat).
Proof.
  apply (safe_strcpy_fits_and_is_a_prefix (Some (repeated 50 "a")) 48). lia.
Defined.

Section Capacity.
Import LibraryData.
Implicit Types (l : LibraryData.t).




Lemma uint8_t_range (z : Z) : 0 <= C.uint8_t z < 2 ^ 8.
Proof. apply Z.mod_pos_bound. lia. Qed.





















End Capacity.



(* ===================================================================== *)
(** * From the app's pages to the device's library *)
(* ===================================================================== *)

Section PlaylistsToDevice.
Import LibraryData.
Implicit Types (l : LibraryData.t) (s : Sketch.State).

Lemma take_take_app {A} (n : nat) (xs ys : list A) :
  take n (take n xs ++ ys) = take n (xs ++ ys).
Proof.
  destruct (decide (length xs ≤ n)%nat) as [Hle|Hgt].
  - by rewrite (take_ge xs) by done.
  - rewrite !take_app_le; [by rewrite take_take, Nat.min_id | lia |].
    rewrite length_take. lia.
Qed.

(** What a page does to the playlists held, item by item as ArduinoJson
    reads them. *)
Lemma handle_playlists_response_playlists (payload : JSON) l :
  (length (g_playlists l) ≤ 50)%nat →
  g_playlists (Sketch.handle_playlists_response payload l)
  = take 50
      ((if ArduinoJson.or_int (ArduinoJson.member payload "page") 1 =? 1
        then [] else g_playlists l)
       ++ ((λ pl, BLEPlaylist.mk
              (C.strncpy (ArduinoJson.or_str (ArduinoJson.member pl "id") "") 47)
              (C.strncpy (ArduinoJson.or_str (ArduinoJson.member pl "name") "Unknown") 63)
              (C.uint16_t (ArduinoJson.or_int (ArduinoJson.member pl "songCount") 0)))
           <$> ArduinoJson.as_array (ArduinoJson.member payload "playlists"))).
Proof.
  intros Hlen. unfold Sketch.handle_playlists_response.
  set (start := if _ =? 1 then library_clear_playlists l else l).
  assert (g_playlists start
          = if ArduinoJson.or_int (ArduinoJson.member payload "page") 1 =? 1
            then [] else g_playlists l) as <-.
  { subst start. by destruct (_ =? 1). }
  assert (length (g_playlists start) ≤ 50)%nat as Hstart.
  { subst start. destruct (_ =? 1); [simpl; lia | done]. }
  clearbody start. revert start Hstart.
  induction (ArduinoJson.as_array (ArduinoJson.member payload "playlists"))
    as [|pl pls IH]; intros start Hstart.
  - simpl. rewrite app_nil_r, take_ge; [done|lia].
  - cbn [foldl fmap list_fmap]. rewrite IH.
    + unfold library_add_playlist, g_playlist_count, MAX_BLE_PLAYLISTS, count_of.
      destruct (Z.leb_spec 50 (Z.of_nat (length (g_playlists start)))) as [Hfull|Hroom].
      * cbn [snd]. rewrite !take_app_le by lia. done.
      * cbn [snd g_playlists]. by rewrite <- app_assoc.
    + unfold library_add_playlist, g_playlist_count, MAX_BLE_PLAYLISTS, count_of.
      destruct (Z.leb_spec 50 (Z.of_nat (length (g_playlists start)))) as [Hfull|Hroom];
        cbn [snd g_playlists]; [done|]. rewrite length_app. simpl. lia.
Qed.

Lemma handle_playlists_response_others (payload : JSON) l :
  let l' := Sketch.handle_playlists_response payload l in
  g_artists l' = g_artists l ∧ g_albums l' = g_albums l ∧ g_songs l' = g_songs l
  ∧ g_song_context_type l' = g_song_context_type l
  ∧ g_song_context_id l' = g_song_context_id l.
Proof.
  cbv zeta. unfold Sketch.handle_playlists_response.
  set (start := if _ =? 1 then library_clear_playlists l else l).
  assert (g_artists start = g_artists l ∧ g_albums start = g_albums l
          ∧ g_songs start = g_songs l
          ∧ g_song_context_type start = g_song_context_type l
          ∧ g_song_context_id start = g_song_context_id l) as Hstart.
  { subst start. by destruct (_ =? 1). }
  clearbody start. revert start Hstart.
  induction (ArduinoJson.as_array (ArduinoJson.member payload "playlists"))
    as [|pl pls IH]; intros start Hstart; [done|].
  cbn [foldl]. apply IH. unfold library_add_playlist.
  by destruct (_ <=? _).
Qed.

(** The document of a page of playlists. *)
Lemma PlaylistsResponsePayload_encode (infos : list PlaylistInfo.t) (page totalPages : Z) :
  PlaylistsResponsePayload.encode (PlaylistsResponsePayload.mk infos page totalPages)
  = Some (JObject
      (<["totalPages" := JInt totalPages]>
      (<["page" := JInt page]>
      (<["playlists" := JArray ((λ info, JObject
           (<["songCount" := JInt (PlaylistInfo.songCount info)]>
           (<["name" := JString (PlaylistInfo.name info)]>
           (<["id" := JString (PlaylistInfo.id info)]> ∅)))) <$> infos)]> ∅)))).
Proof.
  unfold PlaylistsResponsePayload.encode. cbn [PlaylistsResponsePayload.playlists].
  erewrite mapM_total; [done|]. done.
Qed.

(** The device takes a page of playlists the app sends. *)
Lemma on_ble_data_playlists_page (now : TimeInterval) (infos : list PlaylistInfo.t)
    (page totalPages : Z) s :
  - 2 ^ 31 <= page <= 2 ^ 31 - 1 →
  (length (g_playlists (Sketch.library s)) ≤ 50)%nat →
  ∃ doc l',
    wireDocument now
      (playlistsResponse,
       Some (PPlaylistsResponse (PlaylistsResponsePayload.mk infos page totalPages)))
    = Some doc
    ∧ Sketch.on_ble_data (Some doc) s = Some (Sketch.with_library l' s)
    ∧ g_playlists l'
      = take 50 ((if page =? 1 then [] else g_playlists (Sketch.library s))
                 ++ (keptPlaylist <$> infos))
    ∧ g_artists l' = g_artists (Sketch.library s)
    ∧ g_albums l' = g_albums (Sketch.library s)
    ∧ g_songs l' = g_songs (Sketch.library s)
    ∧ g_song_context_type l' = g_song_context_type (Sketch.library s)
    ∧ g_song_context_id l' = g_song_context_id (Sketch.library s).
Proof.
  intros Hpage Hlen. unfold wireDocument. cbn [fst snd Payload_encode].
  rewrite PlaylistsResponsePayload_encode. cbn [mbind option_bind].
  set (encoded := λ info : PlaylistInfo.t, JObject
         (<["songCount" := JInt (PlaylistInfo.songCount info)]>
         (<["name" := JString (PlaylistInfo.name info)]>
         (<["id" := JString (PlaylistInfo.id info)]> ∅)))).
  set (payload := <["totalPages" := JInt totalPages]>
         (<["page" := JInt page]> (<["playlists" := JArray (encoded <$> infos)]> ∅))).
  exists (JObject (<["payload" := JObject payload]>
            (<["timestamp" := JDouble now]>
               (<["type" := JString (rawValue playlistsResponse)]> ∅)))),
         (Sketch.handle_playlists_response (JObject payload) (Sketch.library s)).
  split; [done|]. split.
  { unfold Sketch.on_ble_data, ArduinoJson.member. map_lookup.
    cbn [default from_option Datatypes.id ArduinoJson.or_str rawValue].
    change (C.strcmp_is_0 "PLAYLISTS_RESPONSE" "SONG_STARTED") with false.
    change (C.strcmp_is_0 "PLAYLISTS_RESPONSE" "SONG_STOPPED") with false.
    change (C.strcmp_is_0 "PLAYLISTS_RESPONSE" "PLAYBACK_PROGRESS") with false.
    change (C.strcmp_is_0 "PLAYLISTS_RESPONSE" "PLAYLISTS_RESPONSE") with true.
    done. }
  pose proof (handle_playlists_response_others (JObject payload) (Sketch.library s))
    as Hothers.
  cbv zeta in Hothers. split; [|exact Hothers].
  rewrite (handle_playlists_response_playlists (JObject payload) (Sketch.library s) Hlen).
  assert (ArduinoJson.member (JObject payload) "page" = JInt page) as ->.
  { subst payload. unfold ArduinoJson.member. by map_lookup. }
  assert (ArduinoJson.member (JObject payload) "playlists" = JArray (encoded <$> infos))
    as ->.
  { subst payload. unfold ArduinoJson.member. by map_lookup. }
  cbn [ArduinoJson.or_int ArduinoJson.as_array].
  assert ((- 2 ^ 31 <=? page) && (page <=? 2 ^ 31 - 1) = true) as ->.
  { apply andb_true_iff. split; apply Z.leb_le; lia. }
  do 2 f_equal. rewrite <- list_fmap_compose. apply list_fmap_ext.
  intros _ info _. subst encoded. unfold keptPlaylist, ArduinoJson.member.
  cbn [compose]. by map_lookup.
Qed.

Lemma later_playlists_pages (now : TimeInterval) (totalPages : Z) :
  ∀ (pages : list (list PlaylistInfo.t)) (k : nat) s,
  (1 ≤ k)%nat →
  Z.of_nat k + Z.of_nat (length pages) <= 2 ^ 31 - 1 →
  (length (g_playlists (Sketch.library s)) ≤ 50)%nat →
  ∃ l',
    foldl (λ acc m, s ← acc; doc ← wireDocument now m; Sketch.on_ble_data (Some doc) s)
      (Some s)
      (imap (λ i pageItems,
               (playlistsResponse,
                Some (PPlaylistsResponse
                        (PlaylistsResponsePayload.mk pageItems
                           (Z.of_nat (k + i) + 1) totalPages)))) pages)
    = Some (Sketch.with_library l' s)
    ∧ g_playlists l'
      = take 50 (g_playlists (Sketch.library s) ++ (keptPlaylist <$> concat pages))
    ∧ g_artists l' = g_artists (Sketch.library s)
    ∧ g_albums l' = g_albums (Sketch.library s)
    ∧ g_songs l' = g_songs (Sketch.library s)
    ∧ g_song_context_type l' = g_song_context_type (Sketch.library s)
    ∧ g_song_context_id l' = g_song_context_id (Sketch.library s).
Proof.
  induction pages as [|pg pages IH]; intros k s Hk Hbound Hlen.
  - exists (Sketch.library s). destruct s as [l u b q t]. cbn.
    rewrite app_nil_r, take_ge by done. done.
  - rewrite imap_cons. cbn [foldl mbind option_bind].
    destruct (on_ble_data_playlists_page now pg (Z.of_nat (k + 0) + 1) totalPages s)
      as (doc & l1 & Hdoc & Hdata & Hpl1 & Har1 & Hal1 & Hso1 & Hct1 & Hci1);
      [simpl in Hbound; lia | done |].
    rewrite Hdoc. cbn [mbind option_bind]. rewrite Hdata.
    destruct (Z.eqb_spec (Z.of_nat (k + 0) + 1) 1) as [Heq|_]; [lia|].
    destruct (IH (S k) (Sketch.with_library l1 s))
      as (l' & Hfold & Hpl & Har & Hal & Hso & Hct & Hci).
    + lia.
    + simpl in Hbound. lia.
    + cbn [Sketch.library Sketch.with_library]. rewrite Hpl1, length_take. lia.
    + exists l'. split.
      * transitivity (Some (Sketch.with_library l' (Sketch.with_library l1 s))); [|done].
        rewrite <- Hfold. f_equal. apply imap_ext. intros i x _. cbn [compose].
        do 4 f_equal. lia.
      * cbn [Sketch.library Sketch.with_library] in *.
        rewrite Hpl, Hpl1, Har, Hal, Hso, Hct, Hci. split_and!; try done.
        cbn [concat]. by rewrite take_take_app, fmap_app, app_assoc.
Qed.

(** X20. The device ends up with the playlists the app lists.  When the
    device is handed the pages that answer a playlists query, in order,
    its list of playlists becomes the first 50 of the catalog's playlists
    that are no system playlists, in catalog order, each with its id cut
    to 47 bytes and its name cut to 30 characters by the app and to 63
    bytes by the device; whatever the device held before is gone, and its
    artists, albums and songs are as they were.  (Text is taken to be one
    byte per character.) *)
Theorem listed_playlists_reach_the_device
    (storage : LibraryStorage.t) (now : TimeInterval) s :
  count_of (LibraryStorage.getAllPlaylists false storage) < 2 ^ 31 →
  (length (g_playlists (Sketch.library s)) ≤ 50)%nat →
  ∃ effects l',
    handleQueryPlaylists storage = Some effects
    ∧ deviceAfter now effects s = Some (Sketch.with_library l' s)
    ∧ g_playlists l'
      = take 50 ((λ playlist, keptPlaylist (listedPlaylist playlist))
                   <$> LibraryStorage.getAllPlaylists false storage)
    ∧ g_artists l' = g_artists (Sketch.library s)
    ∧ g_albums l' = g_albums (Sketch.library s)
    ∧ g_songs l' = g_songs (Sketch.library s).
Proof.
  intros Hcount Hlen. unfold handleQueryPlaylists, sendPaginatedPlaylists.
  fold listedPlaylist.
  change (map ?f ?xs) with (f <$> xs).
  set (infos := listedPlaylist <$> LibraryStorage.getAllPlaylists false storage).
  assert (count_of infos < 2 ^ 31) as Hinfos.
  { subst infos. unfold count_of in *. by rewrite length_fmap. }
  destruct (sendPaginated_paginates playlistsPerPage playlistsResponse
              (λ pageItems page totalPages,
                 PPlaylistsResponse (PlaylistsResponsePayload.mk pageItems page totalPages))
              infos eq_refl)
    as (effects & pages & -> & Hsent & Hnil & Hpos & Hcat).
  assert (1 <= count_of pages <= 2 ^ 31 - 1) as Hpages.
  { destruct (decide (infos = [])) as [Hempty|Hne].
    - rewrite (Hnil Hempty). unfold count_of. simpl. lia.
    - specialize (Hpos Hne). unfold playlistsPerPage in Hpos.
      assert (0 < count_of infos) by (destruct infos; [done | unfold count_of; simpl; lia]).
      lia. }
  exists effects. unfold deviceAfter. rewrite Hsent. clear Hsent.
  destruct pages as [|pg pages]; [unfold count_of in Hpages; simpl in Hpages; lia|].
  rewrite imap_cons. cbn [foldl mbind option_bind].
  destruct (on_ble_data_playlists_page now pg (Z.of_nat 0 + 1) (count_of (pg :: pages)) s)
    as (doc & l1 & Hdoc & Hdata & Hpl1 & Har1 & Hal1 & Hso1 & Hct1 & Hci1); [lia | done |].
  rewrite Hdoc. cbn [mbind option_bind]. rewrite Hdata.
  change (Z.of_nat 0 + 1 =? 1) with true in Hpl1.
  destruct (later_playlists_pages now (count_of (pg :: pages)) pages 1
              (Sketch.with_library l1 s))
    as (l' & Hfold & Hpl & Har & Hal & Hso & Hct & Hci).
  - done.
  - unfold count_of in Hpages. simpl in Hpages. lia.
  - cbn [Sketch.library Sketch.with_library]. rewrite Hpl1, length_take. lia.
  - exists l'. split; [done|]. split.
    + transitivity (Some (Sketch.with_library l' (Sketch.with_library l1 s))); [|done].
      by rewrite <- Hfold.
    + cbn [Sketch.library Sketch.with_library] in *.
      rewrite Hpl, Hpl1, Har, Hal, Hso, Har1, Hal1, Hso1. split_and!; try done.
      rewrite take_take_app. cbn [app]. rewrite <- fmap_app.
      change (pg ++ concat pages) with (concat (pg :: pages)). rewrite Hcat.
      subst infos. by rewrite <- list_fmap_compose.
Qed.

End PlaylistsToDevice.

(** The playlists of the sample catalog reach a device that has just
    started. *)
Lemma listed_playlists_reach_the_device_witness :
  ∃ effects l',
    handleQueryPlaylists demoStorage = Some effects
    ∧ deviceAfter 1737302400.5%float effects freshSketch
      = Some (Sketch.with_library l' freshSketch)
    ∧ LibraryData.g_playlists l'
      = take 50 ((λ playlist, keptPlaylist (listedPlaylist playlist))
                   <$> LibraryStorage.getAllPlaylists false demoStorage)
    ∧ LibraryData.g_artists l' = LibraryData.g_artists (Sketch.library freshSketch)
    ∧ LibraryData.g_albums l' = LibraryData.g_albums (Sketch.library freshSketch)
    ∧ LibraryData.g_songs l' = LibraryData.g_songs (Sketch.library freshSketch).
Proof.
  apply (listed_playlists_reach_the_device demoStorage 1737302400.5%float freshSketch).
  - vm_compute. reflexivity.
  - simpl. lia.
Defined.

(* ===================================================================== *)
(** * The device: paging, advertising, the first queries *)
(* ===================================================================== *)




Section Advertising.

Lemma bleAfter_counts (events : list BleEvent) : ∀ (b : Bluetooth.State),
  let connected := Bluetooth.deviceConnected b in
  let old := Bluetooth.oldDeviceConnected b in
  (restarts (bleAfter events b).2
     ≤ connections events + (if old || connected then 1 else 0))%nat
  ∧ (restarts (bleAfter events b).2
       ≤ disconnections events + (if old && negb connected then 1 else 0))%nat.
Proof.
  induction events as [|e events IH]; intros b; cbv zeta.
  - cbn. lia.
  - cbn [bleAfter]. destruct b as [connected old].
    cbn [Bluetooth.deviceConnected Bluetooth.oldDeviceConnected].
    destruct e;
      [ change (connections (PeerConnects :: events)) with (S (connections events));
        change (disconnections (PeerConnects :: events)) with (disconnections events)
      | change (connections (PeerDisconnects :: events)) with (connections events);
        change (disconnections (PeerDisconnects :: events))
          with (S (disconnections events))
      | change (connections (Update :: events)) with (connections events);
        change (disconnections (Update :: events)) with (disconnections events) ];
      destruct old, connected;
      match goal with
      | |- context [bleAfter events ?b1] =>
          let H := fresh in
          pose proof (IH b1) as H; cbv zeta in H;
          destruct (bleAfter events b1) as [b' later]
      | |- context [let '(_, _) := ?step in _] =>
          let b1 := eval cbn in (fst step) in
          let H := fresh in
          pose proof (IH b1) as H; cbv zeta in H; cbn;
          destruct (bleAfter events b1) as [b' later]
      end;
      unfold restarts in *; cbn in *; lia.
Qed.

(** X22. From its start the BLE module restarts advertising at most once
    for each disconnection of the peer and never more often than the peer
    has connected, however the connections, disconnections and calls of
    [bluetooth_update] interleave. *)
Theorem advertising_restarts_at_most_once_per_disconnection (events : list BleEvent) :
  let calls := (bleAfter events (Sketch.ble freshSketch)).2 in
  (restarts calls ≤ disconnections events)%nat
  ∧ (restarts calls ≤ connections events)%nat.
Proof.
  cbv zeta.
  pose proof (bleAfter_counts events (Sketch.ble freshSketch)) as Hcounts.
  cbv zeta in Hcounts.
  change (Bluetooth.oldDeviceConnected (Sketch.ble freshSketch)) with false in Hcounts.
  change (Bluetooth.deviceConnected (Sketch.ble freshSketch)) with false in Hcounts.
  cbn [orb andb negb] in Hcounts. lia.
Qed.

End Advertising.

Section FirstQueries.
Implicit Types (s : Sketch.State) (events : list SketchEvent).

Lemma loop_cases (millis millis1 millis2 millis3 : Z) s :
  let '(s', calls) := Sketch.loop millis millis1 millis2 millis3 s in
  Sketch.g_connection_time s' = Sketch.g_connection_time s
  ∧ Bluetooth.deviceConnected (Sketch.ble s') = Bluetooth.deviceConnected (Sketch.ble s)
  ∧ ((existsb isNotify calls = false
      ∧ Sketch.g_should_query_library s' = Sketch.g_should_query_library s)
     ∨ (calls = libraryQueries millis1 millis2 millis3 ++ [Bluetooth.delay 10]
        ∧ Sketch.g_should_query_library s = true
        ∧ Sketch.g_should_query_library s' = false
        ∧ Bluetooth.deviceConnected (Sketch.ble s) = true
        ∧ QUERY_DELAY_MS_elapsed millis s)).
Proof.
  unfold Sketch.loop, Bluetooth.bluetooth_update, QUERY_DELAY_MS_elapsed.
  destruct s as [l u [connected old] should t]. cbn.
  destruct connected, old, should; cbn; try (split_and!; try done; by left).
  - destruct (Z.leb_spec Sketch.QUERY_DELAY_MS (C.unsigned_long (C.unsigned_long millis - t)));
      cbn; split_and!; try done; [by right | by left].
  - destruct (Z.leb_spec Sketch.QUERY_DELAY_MS (C.unsigned_long (C.unsigned_long millis - t)));
      cbn; split_and!; try done; [by right | by left].
Qed.

Lemma sketchAfter_counts events : ∀ s,
  (length (notifying (sketchAfter events s).2)
     ≤ connects events + (if Sketch.g_should_query_library s then 1 else 0))%nat
  ∧ Forall (λ calls, ∃ millis1 millis2 millis3,
              calls = libraryQueries millis1 millis2 millis3 ++ [Bluetooth.delay 10])
      (notifying (sketchAfter events s).2).
Proof.
  induction events as [|e events IH]; intros s; [cbn; split; [lia | constructor]|].
  cbn [sketchAfter]. destruct e as [millis|millis|millis millis1 millis2 millis3].
  - specialize (IH (Sketch.onConnect millis s)).
    destruct (sketchAfter events _) as [s' later]. cbn in *.
    destruct IH as [IH1 IH2]. split; [|done]. unfold connects in *.
    destruct (Sketch.g_should_query_library s); lia.
  - specialize (IH (Sketch.onDisconnect millis s)).
    destruct (sketchAfter events _) as [s' later]. cbn in *.
    destruct IH as [IH1 IH2]. split; [|done]. unfold connects in *.
    destruct (Sketch.g_should_query_library s); lia.
  - pose proof (loop_cases millis millis1 millis2 millis3 s) as Hloop.
    destruct (Sketch.loop millis millis1 millis2 millis3 s) as [s1 calls].
    specialize (IH s1). destruct (sketchAfter events s1) as [s' later].
    cbn [snd] in *. change (connects (Loops millis millis1 millis2 millis3 :: events))
      with (connects events).
    destruct IH as [IH1 IH2]. unfold notifying in *. cbn [List.filter].
    destruct Hloop as (_ & _ & [[Hquiet Hsame]|(-> & Hshould & Hdone & _ & _)]).
    + rewrite Hquiet, <- Hsame. done.
    + change (existsb isNotify (libraryQueries millis1 millis2 millis3 ++ [Bluetooth.delay 10]))
        with true.
      rewrite Hshould, Hdone in *. cbn [length]. split; [lia|].
      constructor; [by eexists _, _, _ | done].
Qed.

(** X23. The device asks for the library at most once for each time the
    peer connects: over any run of connections, disconnections and passes
    of [loop] from the start, the passes in which anything is sent are no
    more than the connections, and what such a pass sends is the three
    queries for playlists, artists and albums, in that order and 50 ms
    apart, each a document with a type and a timestamp and no payload. *)
Theorem library_is_queried_at_most_once_per_connection events :
  let passes := (sketchAfter events freshSketch).2 in
  (length (notifying passes) ≤ connects events)%nat
  ∧ Forall (λ calls, ∃ millis1 millis2 millis3,
              calls = libraryQueries millis1 millis2 millis3 ++ [Bluetooth.delay 10])
      (notifying passes).
Proof.
  cbv zeta. destruct (sketchAfter_counts events freshSketch) as [Hcount Hshape].
  split; [|done]. cbn in Hcount. lia.
Qed.

(** X24. In the two seconds after the peer connects, no pass of [loop]
    sends anything, whatever happened before the connection. *)
Theorem nothing_is_asked_in_the_first_two_seconds
    (before quiet : list SketchEvent) (since : Z) :
  Forall (passWithin2s since) quiet →
  let connected := (sketchAfter (before ++ [Connects since]) freshSketch).1 in
  notifying (sketchAfter quiet connected).2 = [].
Proof.
  intros Hquiet. cbv zeta.
  assert (∀ s, Sketch.g_connection_time s = C.unsigned_long since →
               notifying (sketchAfter quiet s).2 = []) as Hrun.
  { induction Hquiet as [|e quiet He _ IH]; intros s Htime; [done|].
    destruct e as [|?|millis millis1 millis2 millis3]; try done.
    cbn [sketchAfter passWithin2s] in *.
    pose proof (loop_cases millis millis1 millis2 millis3 s) as Hloop.
    destruct (Sketch.loop millis millis1 millis2 millis3 s) as [s1 calls].
    destruct Hloop as (Htime1 & _ & [[Hnone _]|(_ & _ & _ & _ & Helapsed)]).
    - specialize (IH s1 ltac:(congruence)).
      destruct (sketchAfter quiet s1) as [s' later]. cbn [snd] in *.
      unfold notifying in *. cbn [List.filter]. by rewrite Hnone.
    - exfalso. unfold QUERY_DELAY_MS_elapsed, Sketch.QUERY_DELAY_MS, C.unsigned_long in *.
      rewrite Htime in Helapsed.
      rewrite <- Zminus_mod in Helapsed. rewrite Z.mod_small in Helapsed; lia. }
  apply Hrun. clear Hrun Hquiet.
  generalize freshSketch. induction before as [|e before IH]; intros s.
  - done.
  - cbn [app sketchAfter].
    destruct e as [millis|millis|millis millis1 millis2 millis3];
      [ specialize (IH (Sketch.onConnect millis s))
      | specialize (IH (Sketch.onDisconnect millis s))
      | destruct (Sketch.loop millis millis1 millis2 millis3 s) as [s1 calls];
        specialize (IH s1) ];
      by destruct (sketchAfter (before ++ [Connects since]) _).
Qed.

End FirstQueries.

(** The peer connects one second in; [loop] passes half a second and 1.9
    seconds later. *)
Lemma nothing_is_asked_in_the_first_two_seconds_witness :
  let connected := (sketchAfter ([] ++ [Connects 1000]) freshSketch).1 in
  notifying (sketchAfter [Loops 1500 1500 1550 1600; Loops 2900 2900 2950 3000] connected).2
  = [].
Proof.
  apply (nothing_is_asked_in_the_first_two_seconds []
           [Loops 1500 1500 1550 1600; Loops 2900 2900 2950 3000] 1000).
  repeat constructor; simpl; lia.
Defined.

(** X25. The device acts on seven of the app's message types only: the
    three events and the four responses.  A document of any other type,
    an error envelope among them, leaves the device exactly as it was, so
    the answer NOT_FOUND to a songs query changes nothing on the device. *)
Theorem device_drops_errors_and_unknown_types
    (now : TimeInterval) (t : MessageType) (payload : option Payload) (doc : JSON)
    (s : Sketch.State) :
  t ∉ [ songStarted; songStopped; playbackProgress;
        playlistsResponse; artistsResponse; albumsResponse; songsResponse ] →
  wireDocument now (t, payload) = Some doc →
  Sketch.on_ble_data (Some doc) s = Some s.
Proof.
  intros Ht Hdoc. unfold wireDocument in Hdoc. cbn [fst snd] in Hdoc.
  assert (∃ dict, doc = JObject dict
                  ∧ dict !! "type" = Some (JString (rawValue t))) as (dict & -> & Htype).
  { destruct payload as [payload|].
    - destruct (Payload_encode payload) as [payloadObject|]; [|done].
      cbn [mbind option_bind] in Hdoc. simplify_eq. eexists. split; [done|]. by map_lookup.
    - simplify_eq. eexists. split; [done|]. by map_lookup. }
  assert (ArduinoJson.or_str (ArduinoJson.member (JObject dict) "type") "" = rawValue t)
    as Hty by (unfold ArduinoJson.member; by rewrite Htype).
  unfold Sketch.on_ble_data. rewrite !Hty. clear Hdoc Htype Hty.
  destruct t; try reflexivity; exfalso; apply Ht, list_elem_of_In; simpl; intuition.
Qed.

(** The error that answers a query for a playlist the catalog does not
    have. *)
Lemma device_drops_errors_and_unknown_types_witness :
  Sketch.on_ble_data
    (Some (JObject
       (<["payload" := JObject
            (<["message" := JString "Playlist with ID pl-9 not found"]>
            (<["code" := JString "PLAYLIST_NOT_FOUND"]> ∅))]>
       (<["timestamp" := JDouble 1737302400.5%float]>
       (<["type" := JString "ERROR"]> ∅)))))
    freshSketch
  = Some freshSketch.
Proof.
  apply (device_drops_errors_and_unknown_types 1737302400.5%float error
           (Some (PError (ErrorPayload.mk "PLAYLIST_NOT_FOUND"
                            "Playlist with ID pl-9 not found")))).
  - intros Hin. repeat (apply elem_of_cons in Hin as [Hin|Hin]; [discriminate|]).
    by apply elem_of_nil in Hin.
  - reflexivity.
Defined.


(* ===================================================================== *)
(** * From the app's pages of songs to the device, and back by a tap *)
(* ===================================================================== *)

(** A finite double is finite. *)
Lemma is_finite_S754_finite (x : float) (s : bool) (m : positive) (e : Z) :
  Prim2SF x = S754_finite s m e → PrimFloat.is_finite x = true.
Proof.
  intros Hx. unfold PrimFloat.is_finite, PrimFloat.is_nan, PrimFloat.is_infinity.
  rewrite !FloatAxioms.eqb_spec, FloatAxioms.abs_spec, Hx.
  change (Prim2SF infinity) with (S754_infinity false).
  unfold SFeqb, SFabs, SFcompare. rewrite Z.compare_refl, Pos.compare_cont_refl.
  by destruct s.
Qed.

(** The number of binary digits of a positive number. *)
Lemma digits2_pos_size (p : positive) : digits2_pos p = Pos.size p.
Proof. induction p as [p IH|p IH|]; simpl; by rewrite ?IH. Qed.

Lemma size_upto_16 (p : positive) :
  Z.pos p < 2 ^ 16 → (Pos.size p <= 16)%positive.
Proof.
  intros Hp. pose proof (Pos.size_le p) as Hle.
  apply Pos2Z.pos_le_pos in Hle. rewrite Pos2Z.inj_pow in Hle.
  destruct (Pos.leb_spec (Pos.size p) 16) as [|Hgt]; [done|]. exfalso.
  assert (2 ^ 17 <= 2 ^ Z.pos (Pos.size p)) as Hpow.
  { apply Z.pow_le_mono_r; lia. }
  lia.
Qed.

(** [Double(_: Int)] of a small positive number, by the specification of
    the primitive conversion. *)
Lemma Prim2SF_Double_init (p : positive) :
  Z.pos p < 2 ^ 16 →
  Prim2SF (Double_init (Z.pos p)) = binary_normalize prec emax (Z.pos p) 0 false.
Proof.
  intros Hp. unfold Double_init.
  change (Z.pos p =? Int_min) with false. change (Z.pos p <? 0) with false. cbv iota.
  rewrite of_uint63_spec, Uint63.of_Z_spec.
  rewrite Z.mod_small; [done|]. change Uint63.wB with (2 ^ 63). lia.
Qed.

Lemma digits2_pos_shift_pos (k p : positive) :
  digits2_pos (shift_pos k p) = (digits2_pos p + k)%positive.
Proof.
  unfold shift_pos. induction k as [|k IH] using Pos.peano_ind.
  - simpl. lia.
  - rewrite Pos.iter_succ. simpl. rewrite IH. lia.
Qed.

Lemma Zpos_shift_pos (k p : positive) : Z.pos (shift_pos k p) = Z.pos p * 2 ^ Z.pos k.
Proof.
  unfold shift_pos. induction k as [|k IH] using Pos.peano_ind.
  - simpl. lia.
  - rewrite Pos.iter_succ, Pos2Z.inj_succ, Z.pow_succ_r by lia.
    rewrite Pos2Z.inj_xO, IH. lia.
Qed.

(** A mantissa of 53 digits with an exponent in range is a binary64
    number as it stands. *)
Lemma binary_round_aux_exact (m : positive) (e : Z) :
  digits2_pos m = 53%positive → -1074 <= e ∧ e <= 971 →
  binary_round_aux prec emax false (Z.pos m) e loc_Exact = S754_finite false m e.
Proof.
  intros Hm He. unfold binary_round_aux, shr_fexp.
  cbn [Zdigits2 shr_record_of_loc]. rewrite Hm.
  assert (fexp prec emax (53 + e) - e = 0) as ->.
  { unfold fexp, emin, prec, emax. lia. }
  cbn [shr shr_m loc_of_shr_record round_nearest_even Zdigits2 shr_record_of_loc].
  rewrite Hm.
  assert (fexp prec emax (53 + e) - e = 0) as ->.
  { unfold fexp, emin, prec, emax. lia. }
  cbn [shr shr_m].
  assert ((e <=? emax - prec) = true) as ->; [|done].
  apply Z.leb_le. unfold emax, prec. lia.
Qed.

(** The double of a whole number below 2^16. *)
Lemma Prim2SF_Double_init_small (p : positive) :
  Z.pos p < 2 ^ 16 →
  Prim2SF (Double_init (Z.pos p))
  = S754_finite false (shift_pos (53 - Pos.size p) p) (Z.pos (Pos.size p) - 53).
Proof.
  intros Hp. rewrite Prim2SF_Double_init by done.
  pose proof (size_upto_16 p Hp) as Hsize.
  unfold binary_normalize, binary_round. rewrite digits2_pos_size.
  assert (fexp prec emax (Z.pos (Pos.size p) + 0) = Z.pos (Pos.size p) - 53) as ->.
  { unfold fexp, emin, prec, emax. lia. }
  unfold shl_align.
  assert (Z.pos (Pos.size p) - 53 - 0 = Z.neg (53 - Pos.size p)) as -> by lia.
  apply binary_round_aux_exact.
  - rewrite digits2_pos_shift_pos, digits2_pos_size. lia.
  - lia.
Qed.

(** The whole seconds below 2^16 pass through the app's [Double] and the
    device's [float] and [uint16_t] unchanged. *)
Lemma whole_seconds (z : Z) :
  0 <= z < 2 ^ 16 →
  PrimFloat.is_finite (Double_init z) = true
  ∧ C.uint16_of_float (Double_init z) = Some z.
Proof.
  intros Hz. destruct z as [|p|p]; [by vm_compute | | lia].
  pose proof (Prim2SF_Double_init_small p ltac:(lia)) as Hsf.
  split; [by eapply is_finite_S754_finite|].
  unfold C.uint16_of_float. rewrite Hsf.
  pose proof (size_upto_16 p ltac:(lia)) as Hsize.
  pose proof (Pos.size_gt p) as Hgt. pose proof (Pos.size_le p) as Hle.
  apply Pos2Z.pos_lt_pos in Hgt. apply Pos2Z.pos_le_pos in Hle.
  rewrite Pos2Z.inj_pow in Hgt, Hle.
  assert (Z.pos p~0 = 2 * Z.pos p) as Hdouble by lia. rewrite Hdouble in Hle. clear Hdouble.
  set (d := Z.pos (Pos.size p)) in *.
  assert (1 <= d <= 16) as Hd by (subst d; lia).
  rewrite Zpos_shift_pos.
  assert (Z.pos (53 - Pos.size p) = 53 - d) as -> by (subst d; lia).
  set (x := Z.pos p) in *.
  assert (2 ^ d = 2 * 2 ^ (d - 1)) as Hpow.
  { rewrite <- Z.pow_succ_r by lia. f_equal. lia. }
  assert (0 < 2 ^ (d - 1)) as Hpos by (apply Z.pow_pos_nonneg; lia).
  assert (2 ^ (53 - d) = 2 ^ (24 - d) * 2 ^ 29) as Hsplit.
  { rewrite <- Z.pow_add_r by lia. f_equal. lia. }
  assert (0 < 2 ^ (24 - d)) as Hpos' by (apply Z.pow_pos_nonneg; lia).
  unfold C.binary32_round.
  assert (Z.log2 (x * 2 ^ (53 - d)) = 52) as ->.
  { apply Z.log2_unique; [lia|].
    assert (2 ^ 52 = 2 ^ (d - 1) * 2 ^ (53 - d)) as ->.
    { rewrite <- Z.pow_add_r by lia. f_equal. lia. }
    change (Z.succ 52) with 53.
    assert (2 ^ 53 = 2 ^ d * 2 ^ (53 - d)) as ->.
    { rewrite <- Z.pow_add_r by lia. f_equal. lia. }
    assert (0 < 2 ^ (53 - d)) by (apply Z.pow_pos_nonneg; lia).
    split; [apply Z.mul_le_mono_nonneg_r | apply Z.mul_lt_mono_pos_r]; lia. }
  change (52 + 1 - 24) with 29. change (29 <=? 0) with false. cbv iota.
  rewrite Hsplit, Z.mul_assoc, Z.div_mul, Z.mod_mul by lia.
  change (29 - 1) with 28.
  change (2 ^ 28 <? 0) with false. change (0 =? 2 ^ 28) with false.
  cbn [orb andb].
  assert ((0 <=? d - 53 + 29) = false) as -> by (apply Z.leb_gt; lia).
  assert (- (d - 53 + 29) = 24 - d) as -> by lia.
  rewrite Z.div_mul by lia.
  assert ((x <? 2 ^ 16) = true) as -> by (apply Z.ltb_lt; subst x; lia).
  done.
Qed.

Lemma concat_fmap_inv {A B : Type} (f : A → B) (pages : list (list B)) :
  ∀ xs : list A,
  concat pages = fmap (M := list) f xs →
  ∃ xss : list (list A),
    pages = fmap (M := list) (fmap (M := list) f) xss ∧ concat xss = xs.
Proof.
  induction pages as [|pg pages IH]; intros xs Hcat.
  - exists []. split; [done|]. simpl in Hcat. symmetry in Hcat.
    by apply fmap_nil_inv in Hcat.
  - simpl in Hcat. symmetry in Hcat.
    apply fmap_app_inv in Hcat as (l1 & l2 & -> & Hrest & ->).
    destruct (IH l2 Hrest) as (xss & -> & <-).
    by exists (l1 :: xss).
Qed.

Section SongsToDevice.
Import LibraryData.
Implicit Types (s : Sketch.State) (songs : list Song.t) (song : Song.t).

(** The members of a song's object, as ArduinoJson reads them. *)
Lemma songDocument_members song :
  ArduinoJson.member (songDocument song) "id" = JString (Song.id song)
  ∧ ArduinoJson.member (songDocument song) "title" = JString (prefix 30 (Song.title song))
  ∧ ArduinoJson.or_str (ArduinoJson.member (songDocument song) "artist") "Unknown"
    = default "Unknown" (prefix 20 <$> Song.artist song)
  ∧ ArduinoJson.or_str (ArduinoJson.member (songDocument song) "album") "Unknown"
    = default "Unknown" (prefix 20 <$> Song.album song)
  ∧ ArduinoJson.member (songDocument song) "duration"
    = JDouble (Double_init (Song.duration song))
  ∧ ArduinoJson.member (songDocument song) "trackNumber" = JInt (Song.track song).
Proof.
  unfold songDocument, ArduinoJson.member, encodeIfPresent, encode_key.
  destruct (Song.artist song), (Song.album song);
    cbn [fmap option_fmap option_map]; map_lookup; done.
Qed.

Lemma add_song_of_songDocument song (lib : LibraryData.t) :
  shortEnough song →
  Sketch.add_song_of lib (songDocument song)
  = Some (if MAX_BLE_SONGS <=? g_song_count lib then lib
          else mk (g_playlists lib) (g_artists lib) (g_albums lib)
                 (g_songs lib ++ [keptSong song])
                 (g_song_context_type lib) (g_song_context_id lib) (g_has_ble_data lib)
                 (g_last_playlist_index lib) (g_last_artist_index lib)
                 (g_last_album_index lib)).
Proof.
  intros Hshort. destruct (whole_seconds _ Hshort) as [_ Hsec].
  destruct (songDocument_members song) as (Hid & Htitle & Hartist & Halbum & Hdur & Htrack).
  unfold Sketch.add_song_of. rewrite Hid, Htitle, Hartist, Halbum, Hdur, Htrack.
  cbn [ArduinoJson.or_str ArduinoJson.or_0f_as_uint16]. rewrite Hsec.
  cbn [mbind option_bind]. unfold library_add_song.
  by destruct (_ <=? _).
Qed.

(** What the songs of a page do to the songs held. *)
Lemma add_songs_kept songs : ∀ lib : LibraryData.t,
  Forall shortEnough songs →
  (length (g_songs lib) ≤ 200)%nat →
  ∃ lib',
    foldl (λ acc x, acc ≫= λ acc, Sketch.add_song_of acc x) (Some lib)
      (songDocument <$> songs) = Some lib'
    ∧ g_songs lib' = take 200 (g_songs lib ++ (keptSong <$> songs))
    ∧ g_playlists lib' = g_playlists lib
    ∧ g_artists lib' = g_artists lib
    ∧ g_albums lib' = g_albums lib
    ∧ g_song_context_type lib' = g_song_context_type lib
    ∧ g_song_context_id lib' = g_song_context_id lib.
Proof.
  induction songs as [|song songs IH]; intros lib Hshort Hlen.
  - exists lib. cbn. by rewrite app_nil_r, take_ge.
  - apply Forall_cons in Hshort as [Hsong Hshort].
    cbn [fmap list_fmap foldl mbind option_bind].
    rewrite (add_song_of_songDocument song lib Hsong).
    unfold MAX_BLE_SONGS, g_song_count, count_of.
    destruct (Z.leb_spec 200 (Z.of_nat (length (g_songs lib)))) as [Hfull|Hroom].
    + destruct (IH lib Hshort Hlen) as (lib' & Hfold & Hsongs & Hrest).
      exists lib'. split; [done|]. split; [|done].
      rewrite Hsongs. rewrite !take_app_le by lia. done.
    + destruct (IH (mk (g_playlists lib) (g_artists lib) (g_albums lib)
                      (g_songs lib ++ [keptSong song])
                      (g_song_context_type lib) (g_song_context_id lib)
                      (g_has_ble_data lib) (g_last_playlist_index lib)
                      (g_last_artist_index lib) (g_last_album_index lib)) Hshort)
        as (lib' & Hfold & Hsongs & Hrest).
      { cbn [g_songs]. rewrite length_app. simpl. lia. }
      exists lib'. split; [done|]. split; [|done].
      rewrite Hsongs. cbn [g_songs]. by rewrite <- app_assoc.
Qed.

(** The document of a page of songs. *)
Lemma SongsResponsePayload_encode songs (context contextId : option string)
    (page totalPages : Z) :
  Forall shortEnough songs →
  SongsResponsePayload.encode
    (SongsResponsePayload.mk (createSongInfo <$> songs) context contextId page totalPages)
  = Some (JObject
      (<["totalPages" := JInt totalPages]>
      (<["page" := JInt page]>
      (encodeIfPresent "contextId" (JString <$> contextId)
      (encodeIfPresent "context" (JString <$> context)
      (<["songs" := JArray (songDocument <$> songs)]> ∅)))))).
Proof.
  intros Hshort. unfold SongsResponsePayload.encode. cbn [SongsResponsePayload.songs].
  assert (mapM SongInfo.encode (createSongInfo <$> songs) = Some (songDocument <$> songs))
    as ->; [|done].
  induction Hshort as [|song songs Hsong Hshort IH]; [done|].
  cbn [fmap list_fmap mapM]. change (list_fmap _ _ ?f ?xs) with (f <$> xs). rewrite IH.
  unfold SongInfo.encode, createSongInfo, encodeDouble.
  cbn [SongInfo.duration SongInfo.trackNumber SongInfo.album SongInfo.artist
       SongInfo.title SongInfo.id].
  destruct (whole_seconds _ Hsong) as [-> _]. done.
Qed.

(** The device takes a page of songs the app sends. *)
Lemma on_ble_data_songs_page (now : TimeInterval) songs (context contextId : option string)
    (page totalPages : Z) s :
  - 2 ^ 31 <= page <= 2 ^ 31 - 1 →
  - 2 ^ 31 <= totalPages <= 2 ^ 31 - 1 →
  Forall shortEnough songs →
  (page ≠ 1 → (length (g_songs (Sketch.library s)) ≤ 200)%nat) →
  ∃ doc lib',
    wireDocument now
      (songsResponse,
       Some (PSongsResponse
               (SongsResponsePayload.mk (createSongInfo <$> songs) context contextId
                  page totalPages)))
    = Some doc
    ∧ Sketch.on_ble_data (Some doc) s
      = Some (Sketch.with_ui
                (if page =? totalPages then Ui.ui_show_ble_songs (Sketch.ui s)
                 else Sketch.ui s)
                (Sketch.with_library lib' s))
    ∧ g_songs lib'
      = take 200 ((if page =? 1 then [] else g_songs (Sketch.library s))
                  ++ (keptSong <$> songs))
    ∧ g_song_context_type lib'
      = (if page =? 1 then C.strncpy (default "" context) 31
         else g_song_context_type (Sketch.library s))
    ∧ g_song_context_id lib'
      = (if page =? 1 then C.strncpy (default "" contextId) 47
         else g_song_context_id (Sketch.library s))
    ∧ g_playlists lib' = g_playlists (Sketch.library s)
    ∧ g_artists lib' = g_artists (Sketch.library s)
    ∧ g_albums lib' = g_albums (Sketch.library s).
Proof.
  intros Hpage Htotal Hshort Hlen. unfold wireDocument. cbn [fst snd Payload_encode].
  rewrite SongsResponsePayload_encode by done. cbn [mbind option_bind].
  set (payload := <["totalPages" := JInt totalPages]>
         (<["page" := JInt page]>
         (encodeIfPresent "contextId" (JString <$> contextId)
         (encodeIfPresent "context" (JString <$> context)
         (<["songs" := JArray (songDocument <$> songs)]> ∅))))).
  assert (ArduinoJson.or_int (ArduinoJson.member (JObject payload) "page") 1 = page
          ∧ ArduinoJson.or_int (ArduinoJson.member (JObject payload) "totalPages") 1
            = totalPages
          ∧ ArduinoJson.as_array (ArduinoJson.member (JObject payload) "songs")
            = songDocument <$> songs
          ∧ ArduinoJson.or_str (ArduinoJson.member (JObject payload) "context") ""
            = default "" context
          ∧ ArduinoJson.or_str (ArduinoJson.member (JObject payload) "contextId") ""
            = default "" contextId)
    as (Hp & Ht & Hs & Hc & Hci).
  { assert ((- 2 ^ 31 <=? page) && (page <=? 2 ^ 31 - 1) = true) as Hp.
    { apply andb_true_iff. split; apply Z.leb_le; lia. }
    assert ((- 2 ^ 31 <=? totalPages) && (totalPages <=? 2 ^ 31 - 1) = true) as Ht.
    { apply andb_true_iff. split; apply Z.leb_le; lia. }
    subst payload. unfold ArduinoJson.member, encodeIfPresent.
    destruct context, contextId; cbn [fmap option_fmap option_map]; map_lookup;
      cbn [default from_option Datatypes.id ArduinoJson.or_int ArduinoJson.or_str
           ArduinoJson.as_array];
      by rewrite Hp, Ht. }
  set (start :=
         if page =? 1
         then library_set_song_context (Some (default "" context))
                (Some (default "" contextId)) (library_clear_songs (Sketch.library s))
         else Sketch.library s).
  destruct (add_songs_kept songs start Hshort)
    as (lib' & Hfold & Hsongs & Hpl & Har & Hal & Hct & Hcid).
  { subst start. destruct (Z.eqb_spec page 1); [simpl; lia | by apply Hlen]. }
  exists (JObject (<["payload" := JObject payload]>
            (<["timestamp" := JDouble now]>
               (<["type" := JString (rawValue songsResponse)]> ∅)))), lib'.
  split; [done|]. split.
  { set (doc := JObject (<["payload" := JObject payload]> _)).
    assert (ArduinoJson.member doc "type" = JString "SONGS_RESPONSE") as Htype.
    { subst doc. unfold ArduinoJson.member. by map_lookup. }
    assert (ArduinoJson.member doc "payload" = JObject payload) as Hpayload.
    { subst doc. unfold ArduinoJson.member. by map_lookup. }
    unfold Sketch.on_ble_data. rewrite !Htype, !Hpayload.
    cbn [ArduinoJson.or_str].
    change (C.strcmp_is_0 "SONGS_RESPONSE" "SONG_STARTED") with false.
    change (C.strcmp_is_0 "SONGS_RESPONSE" "SONG_STOPPED") with false.
    change (C.strcmp_is_0 "SONGS_RESPONSE" "PLAYBACK_PROGRESS") with false.
    change (C.strcmp_is_0 "SONGS_RESPONSE" "PLAYLISTS_RESPONSE") with false.
    change (C.strcmp_is_0 "SONGS_RESPONSE" "ARTISTS_RESPONSE") with false.
    change (C.strcmp_is_0 "SONGS_RESPONSE" "ALBUMS_RESPONSE") with false.
    change (C.strcmp_is_0 "SONGS_RESPONSE" "SONGS_RESPONSE") with true.
    cbv iota. unfold Sketch.handle_songs_response.
    rewrite Hp, Ht, Hs, Hc, Hci. fold start. rewrite Hfold. done. }
  rewrite Hsongs, Hpl, Har, Hal, Hct, Hcid. subst start.
  by destruct (page =? 1).
Qed.

Lemma later_songs_pages (now : TimeInterval) (context contextId : option string) (n : Z) :
  ∀ (pages : list (list Song.t)) (k : nat) s,
  (1 ≤ k)%nat →
  Z.of_nat k + Z.of_nat (length pages) = n →
  n <= 2 ^ 31 - 1 →
  Forall (Forall shortEnough) pages →
  (length (g_songs (Sketch.library s)) ≤ 200)%nat →
  ∃ lib',
    foldl (λ acc m, s ← acc; doc ← wireDocument now m; Sketch.on_ble_data (Some doc) s)
      (Some s)
      (imap (λ i pageSongs,
               (songsResponse,
                Some (PSongsResponse
                        (SongsResponsePayload.mk (createSongInfo <$> pageSongs)
                           context contextId (Z.of_nat (k + i) + 1) n)))) pages)
    = Some (Sketch.with_ui
              (match pages with
               | [] => Sketch.ui s
               | _ => Ui.ui_show_ble_songs (Sketch.ui s)
               end)
              (Sketch.with_library lib' s))
    ∧ g_songs lib' = take 200 (g_songs (Sketch.library s) ++ (keptSong <$> concat pages))
    ∧ g_song_context_type lib' = g_song_context_type (Sketch.library s)
    ∧ g_song_context_id lib' = g_song_context_id (Sketch.library s)
    ∧ g_playlists lib' = g_playlists (Sketch.library s)
    ∧ g_artists lib' = g_artists (Sketch.library s)
    ∧ g_albums lib' = g_albums (Sketch.library s).
Proof.
  induction pages as [|pg pages IH]; intros k s Hk Hn Hbound Hshort Hlen.
  - exists (Sketch.library s). destruct s as [lib u b q t]. cbn.
    rewrite app_nil_r, take_ge by done. done.
  - apply Forall_cons in Hshort as [Hpg Hshort].
    rewrite imap_cons. cbn [foldl mbind option_bind].
    destruct (on_ble_data_songs_page now pg context contextId (Z.of_nat (k + 0) + 1) n s)
      as (doc & lib1 & Hdoc & Hdata & Hso1 & Hct1 & Hci1 & Hpl1 & Har1 & Hal1);
      [simpl in Hn; lia | simpl in Hn; lia | done | done |].
    rewrite Hdoc. cbn [mbind option_bind]. rewrite Hdata.
    destruct (Z.eqb_spec (Z.of_nat (k + 0) + 1) 1) as [Heq|_]; [lia|].
    set (s1 := Sketch.with_ui _ (Sketch.with_library lib1 s)).
    destruct (IH (S k) s1) as (lib' & Hfold & Hso & Hct & Hci & Hpl & Har & Hal).
    + lia.
    + simpl in Hn. lia.
    + done.
    + done.
    + subst s1. cbn [Sketch.library Sketch.with_library Sketch.with_ui].
      rewrite Hso1, length_take. lia.
    + exists lib'. split.
      * transitivity
          (Some (Sketch.with_ui
                   (match pages with
                    | [] => Sketch.ui s1
                    | _ => Ui.ui_show_ble_songs (Sketch.ui s1)
                    end)
                   (Sketch.with_library lib' s1))).
        -- rewrite <- Hfold. f_equal. apply imap_ext. intros i x _. cbn [compose].
           do 4 f_equal. lia.
        -- subst s1. cbn [Sketch.ui Sketch.with_ui Sketch.with_library].
           destruct pages as [|pg' pages].
           ++ simpl in Hn.
              destruct (Z.eqb_spec (Z.of_nat (k + 0) + 1) n) as [_|Hne]; [done|lia].
           ++ simpl in Hn.
              destruct (Z.eqb_spec (Z.of_nat (k + 0) + 1) n) as [Heq|_]; [lia|done].
      * subst s1. cbn [Sketch.library Sketch.with_library Sketch.with_ui] in *.
        rewrite Hso, Hso1, Hct, Hct1, Hci, Hci1, Hpl, Hpl1, Har, Har1, Hal, Hal1.
        split_and!; try done.
        cbn [concat]. by rewrite take_take_app, fmap_app, app_assoc.
Qed.

Lemma handleScopedSongs_songsIn (k : ScopeKind) (storage : LibraryStorage.t)
    (scopeId : string) (playables : list AbstractPlayable.t) :
  songsIn k scopeId storage = Some playables →
  handleScopedSongs k storage scopeId
  = sendPaginatedSongs (createSongInfo <$> omap AbstractPlayable.asSong playables)
      (Some (scopeName k)) (Some scopeId).
Proof.
  intros Hin.
  assert (∀ songs : list Song.t,
            omap AbstractPlayable.asSong (map AbstractPlayable.song songs) = songs) as Hsongs.
  { induction songs as [|x songs IH]; [done|]. simpl. f_equal. apply IH. }
  destruct k; cbn [songsIn handleScopedSongs scopeName] in *;
    [ unfold handleQueryPlaylistSongs
    | unfold handleQueryArtistSongs
    | unfold handleQueryAlbumSongs ];
    destruct (list_find _ _) as [[i x]|]; simplify_eq/=; by rewrite ?Hsongs.
Qed.

Lemma length_omap_le {A B} (f : A → option B) (xs : list A) :
  (length (omap f xs) ≤ length xs)%nat.
Proof.
  induction xs as [|x xs IH]; csimpl; [done|]. destruct (f x); simpl; lia.
Qed.

(** X27. The device ends up with the songs of the scope it asked for.
    When the device is handed, in order, the pages that answer a query for
    the songs of a playlist, an artist or an album the catalog has, its
    list of songs becomes the first 200 songs of the scope, in order, each
    as [keptSong] has it; the scope kind and the scope id cut to 47 bytes
    are its song context; whatever songs and context it held before are
    gone; its playlists, artists and albums are as they were; and the
    songs screen is shown, once the last page is in.  The durations are
    whole seconds below 2^16.  (Text is taken to be one byte per
    character.) *)
Theorem scoped_songs_reach_the_device
    (k : ScopeKind) (storage : LibraryStorage.t) (scopeId : string)
    (playables : list AbstractPlayable.t) (now : TimeInterval) s :
  songsIn k scopeId storage = Some playables →
  count_of playables < 2 ^ 31 →
  Forall shortEnough (omap AbstractPlayable.asSong playables) →
  ∃ effects lib',
    handleScopedSongs k storage scopeId = Some effects
    ∧ deviceAfter now effects s
      = Some (Sketch.with_ui (Ui.ui_show_ble_songs (Sketch.ui s))
                (Sketch.with_library lib' s))
    ∧ g_songs lib' = take 200 (keptSong <$> omap AbstractPlayable.asSong playables)
    ∧ g_song_context_type lib' = scopeName k
    ∧ g_song_context_id lib' = C.strncpy scopeId 47
    ∧ g_playlists lib' = g_playlists (Sketch.library s)
    ∧ g_artists lib' = g_artists (Sketch.library s)
    ∧ g_albums lib' = g_albums (Sketch.library s).
Proof.
  intros Hin Hcount Hshort. rewrite (handleScopedSongs_songsIn k storage scopeId playables Hin).
  unfold sendPaginatedSongs.
  assert (count_of (omap AbstractPlayable.asSong playables) < 2 ^ 31) as Hsongs.
  { pose proof (length_omap_le AbstractPlayable.asSong playables). unfold count_of in *. lia. }
  set (songs := omap AbstractPlayable.asSong playables) in *.
  destruct (sendPaginated_paginates songsPerPage songsResponse
              (λ pageItems page totalPages,
                 PSongsResponse
                   (SongsResponsePayload.mk pageItems (Some (scopeName k)) (Some scopeId)
                      page totalPages))
              (createSongInfo <$> songs) eq_refl)
    as (effects & pages & -> & Hsent & Hnil & Hpos & Hcat).
  destruct (concat_fmap_inv createSongInfo pages songs Hcat) as (songPages & -> & Hcat').
  assert (count_of (fmap (M := list) (fmap (M := list) createSongInfo) songPages)
          = count_of songPages) as Hsame.
  { unfold count_of. by rewrite length_fmap. }
  rewrite Hsame in *.
  assert (1 <= count_of songPages <= 2 ^ 31 - 1) as Hpages.
  { destruct (decide (songs = [])) as [Hempty|Hne].
    - assert (songPages = [[]]) as ->.
      { rewrite Hempty in Hnil. specialize (Hnil eq_refl).
        destruct songPages as [|[|x pg] [|pg' rest]]; by simplify_eq/=. }
      unfold count_of. simpl. lia.
    - assert (createSongInfo <$> songs ≠ []) as Hne' by by destruct songs.
      specialize (Hpos Hne'). unfold songsPerPage in Hpos.
      assert (count_of (createSongInfo <$> songs) = count_of songs) as Hlen.
      { unfold count_of. by rewrite length_fmap. }
      assert (0 < count_of songs) by (destruct songs; [done | unfold count_of; simpl; lia]).
      lia. }
  assert (Forall (Forall shortEnough) songPages) as Hshorts.
  { apply Forall_concat. by rewrite Hcat'. }
  exists effects. unfold deviceAfter. rewrite Hsent, imap_fmap. clear Hsent.
  destruct songPages as [|pg songPages]; [unfold count_of in Hpages; simpl in Hpages; lia|].
  apply Forall_cons in Hshorts as [Hpg Hshorts].
  rewrite imap_cons. cbn [foldl mbind option_bind compose].
  set (n := count_of (pg :: songPages)) in *.
  destruct (on_ble_data_songs_page now pg (Some (scopeName k)) (Some scopeId)
              (Z.of_nat 0 + 1) n s)
    as (doc & lib1 & Hdoc & Hdata & Hso1 & Hct1 & Hci1 & Hpl1 & Har1 & Hal1);
    [lia | lia | done | done |].
  rewrite Hdoc. cbn [mbind option_bind]. rewrite Hdata.
  change (Z.of_nat 0 + 1 =? 1) with true in *.
  set (s1 := Sketch.with_ui _ (Sketch.with_library lib1 s)).
  destruct (later_songs_pages now (Some (scopeName k)) (Some scopeId) n songPages 1 s1)
    as (lib' & Hfold & Hso & Hct & Hci & Hpl & Har & Hal).
  - done.
  - subst n. unfold count_of. simpl. lia.
  - lia.
  - done.
  - subst s1. cbn [Sketch.library Sketch.with_library Sketch.with_ui].
    rewrite Hso1, length_take. lia.
  - exists lib'. split; [done|]. split.
    + transitivity
        (Some (Sketch.with_ui
                 (match songPages with
                  | [] => Sketch.ui s1
                  | _ => Ui.ui_show_ble_songs (Sketch.ui s1)
                  end)
                 (Sketch.with_library lib' s1))).
      * by rewrite <- Hfold.
      * subst s1. cbn [Sketch.ui Sketch.with_ui Sketch.with_library].
        destruct songPages as [|pg' songPages].
        -- change (Z.of_nat 0 + 1 =? n) with true. done.
        -- destruct (Z.eqb_spec (Z.of_nat 0 + 1) n) as [Heq|_]; [|done].
           subst n. unfold count_of in Heq. simpl in Heq. lia.
    + subst s1. cbn [Sketch.library Sketch.with_library Sketch.with_ui] in *.
      rewrite Hso, Hso1, Hct, Hct1, Hci, Hci1, Hpl, Hpl1, Har, Har1, Hal, Hal1.
      split_and!; try done.
      * rewrite take_take_app. cbn [app]. rewrite <- fmap_app.
        change (pg ++ concat songPages) with (concat (pg :: songPages)).
        by rewrite Hcat'.
      * by destruct k.
Qed.

End SongsToDevice.

(** The songs of the album of the sample catalog reach a device that has
    just started. *)
Lemma scoped_songs_reach_the_device_witness :
  ∃ effects lib',
    handleScopedSongs albumScope demoStorage "al-1" = Some effects
    ∧ deviceAfter 1737302400.5%float effects freshSketch
      = Some (Sketch.with_ui (Ui.ui_show_ble_songs (Sketch.ui freshSketch))
                (Sketch.with_library lib' freshSketch))
    ∧ LibraryData.g_songs lib'
      = take 200 (keptSong <$> [demoSong "s1" "One" 1; demoSong "s2" "Two" 2;
                                demoSong "s3" "Three" 3])
    ∧ LibraryData.g_song_context_type lib' = "album"
    ∧ LibraryData.g_song_context_id lib' = C.strncpy "al-1" 47
    ∧ LibraryData.g_playlists lib' = LibraryData.g_playlists (Sketch.library freshSketch)
    ∧ LibraryData.g_artists lib' = LibraryData.g_artists (Sketch.library freshSketch)
    ∧ LibraryData.g_albums lib' = LibraryData.g_albums (Sketch.library freshSketch).
Proof.
  apply (scoped_songs_reach_the_device albumScope demoStorage "al-1"
           [ AbstractPlayable.song (demoSong "s1" "One" 1);
             AbstractPlayable.song (demoSong "s2" "Two" 2);
             AbstractPlayable.song (demoSong "s3" "Three" 3) ]
           1737302400.5%float freshSketch).
  - reflexivity.
  - vm_compute. reflexivity.
  - repeat constructor; vm_compute; congruence.
Defined.

Section TapToPlay.
Context `{JSONSerialization}.

(** X28. A tap on a song reaches the player's handler.  On a connected
    device whose library is within its arrays, a tap on a row of the songs
    list that holds a song sends one document, and when the frame arrives
    as that document (and the platform writes its payload back) the
    service handles a playSong command for the id the device holds, in the
    scope the list came with (none when the device holds no scope kind),
    with the position of the row in the list as index. *)
Theorem tapped_song_is_asked_for
    (millis index : Z) (lib : LibraryData.t) (u : Ui.State) (b : Bluetooth.State)
    (song : LibraryData.BLESong.t)
    (player : option PlayerFacade.t) (storage : LibraryStorage.t) :
  let position := C.uint8_t (Ui.g_list_page u * Ui.ITEMS_PER_PAGE + index) in
  withinArrays lib →
  Bluetooth.deviceConnected b = true →
  LibraryData.library_get_song position lib = Some song →
  ∃ doc,
    registered millis b (Ui.on_ble_song_click index lib u).2 = [Bluetooth.notify (doc, 256)]
    ∧ ∀ data,
        jsonObject data = Some doc →
        is_Some (dataWithJSONObject (ArduinoJson.member doc "payload")) →
        handleReceivedData player (Some storage) data
        = Some (handlePlaySong player storage (tappedPayload lib song position)).
Proof.
  intros position Hwithin Hconn Hsong.
  destruct Hwithin as (_ & _ & _ & [_ Hsongs] & [_ Hctx] & [_ Hcid]).
  assert (C.c_str (LibraryData.BLESong.id song) = LibraryData.BLESong.id song) as Hid.
  { unfold LibraryData.library_get_song in Hsong.
    destruct (_ <=? _); [done|].
    apply list_elem_of_lookup_2 in Hsong.
    by destruct (proj1 (Forall_forall _ _) Hsongs song Hsong) as ([_ ?] & _). }
  assert (0 <= position < 2 ^ 8) as Hpos by apply uint8_t_range.
  assert ((Int_min <=? position) && (position <=? Int_max) = true) as Hint.
  { apply andb_true_iff. unfold Int_min, Int_max. split; apply Z.leb_le; lia. }
  unfold Ui.on_ble_song_click, registered, tappedPayload. fold position. rewrite Hsong.
  unfold LibraryData.library_get_song_context_type, LibraryData.library_get_song_context_id.
  destruct (0 <? C.strlen (LibraryData.g_song_context_type lib))%nat eqn:Hscoped;
    cbn [snd map concat app]; unfold Sketch.on_ui_play, Bluetooth.bluetooth_send;
    rewrite ?Hscoped, Hconn; cbn [from_option]; rewrite ?Hid, ?Hctx, ?Hcid;
    (eexists; split; [reflexivity|]);
    intros data Hdata [written Hwrite];
    unfold ArduinoJson.member in Hwrite; revert Hwrite; map_lookup;
    cbn [default from_option Datatypes.id]; intros Hwrite;
    pose proof (jsonObject_dataWithJSONObject _ _ Hwrite) as Hread;
    unfold handleReceivedData, from; rewrite Hdata;
    cbn [mbind option_bind as_Dictionary]; map_lookup;
    cbn [mbind option_bind as_String as_Double];
    change (MessageType_init "PLAY_SONG") with (Some playSong);
    cbn [mbind option_bind]; map_lookup; rewrite Hwrite;
    unfold handleQuery; cbn [type];
    unfold decode_as, JSONDecoder_decode; cbn [payloadData mbind option_bind];
    rewrite Hread; cbn [mbind option_bind];
    unfold PlaySongPayload.decode, decode_key, decodeIfPresent;
    cbn [as_Dictionary mbind option_bind]; map_lookup;
    cbn [mbind option_bind as_String as_Int fmap option_fmap option_map];
    rewrite Hint; reflexivity.
Qed.

End TapToPlay.

Lemma albumOnDevice_within : withinArrays albumOnDevice.
Proof.
  unfold withinArrays, fits. split_and!; try (by constructor); try (vm_compute; done).
  - repeat constructor; try (vm_compute; done).
  - simpl. lia.
  - unfold LibraryData.MAX_ID_LENGTH. simpl. lia.
Defined.

(** A tap on the third row of the first page of the album's songs. *)
Lemma tapped_song_is_asked_for_witness :
  ∃ doc,
    registered 12250
      {| Bluetooth.deviceConnected := true; Bluetooth.oldDeviceConnected := true |}
      (Ui.on_ble_song_click 2 albumOnDevice freshUi).2
    = [Bluetooth.notify (doc, 256)]
    ∧ ∀ data,
        jsonObject (JSONSerialization := TreeJSON) data = Some doc →
        is_Some (dataWithJSONObject (ArduinoJson.member doc "payload")) →
        handleReceivedData (Some idlePlayer) (Some demoStorage) data
        = Some (handlePlaySong (Some idlePlayer) demoStorage
                  (tappedPayload albumOnDevice (keptSong (demoSong "s3" "Three" 3)) 2)).
Proof.
  apply (tapped_song_is_asked_for (H := TreeJSON) 12250 2 albumOnDevice freshUi
           {| Bluetooth.deviceConnected := true; Bluetooth.oldDeviceConnected := true |}
           (keptSong (demoSong "s3" "Three" 3)) (Some idlePlayer) demoStorage).
  - exact albumOnDevice_within.
  - reflexivity.
  - reflexivity.
Defined.

Section OpenToQuery.
Context `{JSONSerialization}.

(** X29. Opening an entry on the device asks the app for its songs.  On a
    connected device, opening a playlist, an artist or an album sends one
    document.  When the entry's id is not empty and the frame arrives as
    that document (and the platform writes its payload back), the service
    answers as its scoped handler does for that id: with the pages of the
    songs of the scope, or with the scope's not-found error.  When the id
    is empty the document has no payload, and the service drops the frame
    without an answer: the device is never told. *)
Theorem opened_entry_is_asked_for
    (k : ScopeKind) (millis : Z) (entryId name : string) (u : Ui.State)
    (b : Bluetooth.State) (player : option PlayerFacade.t) (storage : LibraryStorage.t) :
  Bluetooth.deviceConnected b = true →
  ∃ doc,
    registered millis b (ui_show_ble_scope k entryId name u).2 = [Bluetooth.notify (doc, 256)]
    ∧ ∀ data,
        jsonObject data = Some doc →
        ((0 < C.strlen entryId)%nat →
         is_Some (dataWithJSONObject (ArduinoJson.member doc "payload")) →
         handleReceivedData player (Some storage) data
         = handleScopedSongs k storage (C.c_str entryId))
        ∧ (C.strlen entryId = 0%nat →
           handleReceivedData player (Some storage) data = Some []).
Proof.
  intros Hconn.
  destruct (0 <? C.strlen entryId)%nat eqn:Hlen.
  - destruct k;
      cbn [ui_show_ble_scope]; unfold Ui.ui_show_ble_playlist_detail,
        Ui.ui_show_ble_artist_albums, Ui.ui_show_ble_album_detail, Ui.ui_show_ble_detail,
        registered; cbn [snd map concat app];
      unfold Sketch.on_ui_query, Sketch.send_query, Bluetooth.bluetooth_send;
      rewrite Hlen, Hconn;
      (eexists; split; [reflexivity|]);
      (intros data Hdata; split;
        [ intros _ [written Hwrite] | apply Nat.ltb_lt in Hlen; lia ]);
      unfold ArduinoJson.member in Hwrite; revert Hwrite; map_lookup;
      cbn [default from_option Datatypes.id]; intros Hwrite;
      pose proof (jsonObject_dataWithJSONObject _ _ Hwrite) as Hread;
      unfold handleReceivedData, from; rewrite Hdata;
      cbn [mbind option_bind as_Dictionary]; map_lookup;
      cbn [mbind option_bind as_String as_Double];
      [ change (MessageType_init (C.c_str "QUERY_PLAYLIST_SONGS"))
          with (Some queryPlaylistSongs)
      | change (MessageType_init (C.c_str "QUERY_ARTIST_SONGS"))
          with (Some queryArtistSongs)
      | change (MessageType_init (C.c_str "QUERY_ALBUM_SONGS"))
          with (Some queryAlbumSongs) ];
      cbn [mbind option_bind]; map_lookup; rewrite Hwrite;
      unfold handleQuery; cbn [type];
      unfold decode_as, JSONDecoder_decode; cbn [payloadData mbind option_bind];
      rewrite Hread; cbn [mbind option_bind];
      [ unfold QueryPlaylistSongsPayload.decode
      | unfold QueryArtistSongsPayload.decode
      | unfold QueryAlbumSongsPayload.decode ];
      unfold decode_key; cbn [as_Dictionary mbind option_bind]; map_lookup;
      reflexivity.
  - destruct k;
      cbn [ui_show_ble_scope]; unfold Ui.ui_show_ble_playlist_detail,
        Ui.ui_show_ble_artist_albums, Ui.ui_show_ble_album_detail, Ui.ui_show_ble_detail,
        registered; cbn [snd map concat app];
      unfold Sketch.on_ui_query, Sketch.send_query, Bluetooth.bluetooth_send;
      rewrite Hlen, Hconn;
      (eexists; split; [reflexivity|]);
      (intros data Hdata; split;
        [ apply Nat.ltb_ge in Hlen; lia | intros _ ]);
      unfold handleReceivedData, from; rewrite Hdata;
      cbn [mbind option_bind as_Dictionary]; map_lookup;
      cbn [mbind option_bind as_String as_Double];
      [ change (MessageType_init (C.c_str "QUERY_PLAYLIST_SONGS"))
          with (Some queryPlaylistSongs)
      | change (MessageType_init (C.c_str "QUERY_ARTIST_SONGS"))
          with (Some queryArtistSongs)
      | change (MessageType_init (C.c_str "QUERY_ALBUM_SONGS"))
          with (Some queryAlbumSongs) ];
      cbn [mbind option_bind]; map_lookup; reflexivity.
Qed.

End OpenToQuery.

(** Opening the album of the sample catalog on a connected device. *)
Lemma opened_entry_is_asked_for_witness :
  ∃ doc,
    registered 12250
      {| Bluetooth.deviceConnected := true; Bluetooth.oldDeviceConnected := true |}
      (ui_show_ble_scope albumScope "al-1" "Some Album" freshUi).2
    = [Bluetooth.notify (doc, 256)]
    ∧ ∀ data,
        jsonObject (JSONSerialization := TreeJSON) data = Some doc →
        ((0 < C.strlen "al-1")%nat →
         is_Some (dataWithJSONObject (ArduinoJson.member doc "payload")) →
         handleReceivedData (Some idlePlayer) (Some demoStorage) data
         = handleScopedSongs albumScope demoStorage (C.c_str "al-1"))
        ∧ (C.strlen "al-1" = 0%nat →
           handleReceivedData (Some idlePlayer) (Some demoStorage) data = Some []).
Proof.
  apply (opened_entry_is_asked_for (H := TreeJSON) albumScope 12250 "al-1" "Some Album"
           freshUi
           {| Bluetooth.deviceConnected := true; Bluetooth.oldDeviceConnected := true |}
           (Some idlePlayer) demoStorage).
  reflexivity.
Defined.


